(** * Matter bridge server: discovery parser and device registry

    A shallow embedding of the request handlers, the discovery-output parser
    and the in-memory device registry of the Matter bridge servers
    (src/matterServer/server.js, the unnamed variants part_001 and
    part_002, and the pairing handler of src/matterServer/controller.js),
    with the properties of the specification stated over it. *)

From Stdlib Require Import List Bool Arith NArith ZArith Lia.
From Stdlib Require Import Strings.String Strings.Ascii.
From Stdlib Require Import Numbers.DecimalString Numbers.DecimalNat.
Import ListNotations.

Set Implicit Arguments.
Set Warnings "-register-all".

(* ===================================================================== *)
(** ** JavaScript strings *)
(* ===================================================================== *)

(** A JavaScript string is a sequence of UTF-16 code units.  The code only
    inspects strings by code unit (split, includes, indexOf, regular
    expressions over ASCII classes), so a string is a list of code units,
    each a number. *)
Module JsString.

Definition str := list N.

(** Source-text literal: every character of the ASCII literal [s] becomes
    the code unit of the same number. *)
Fixpoint lit (s : string) : str :=
  match s with
  | EmptyString => []
  | String a s' => N_of_ascii a :: lit s'
  end.

Fixpoint eqb (a b : str) : bool :=
  match a, b with
  | [], [] => true
  | x :: a', y :: b' => N.eqb x y && eqb a' b'
  | _, _ => false
  end.

(** [s.startsWith(p)] *)
Fixpoint startsWith (p s : str) : bool :=
  match p, s with
  | [], _ => true
  | x :: p', y :: s' => N.eqb x y && startsWith p' s'
  | _ :: _, [] => false
  end.

(** [s.includes(p)] *)
Fixpoint includes (p s : str) : bool :=
  startsWith p s ||
  match s with
  | [] => false
  | _ :: s' => includes p s'
  end.

(** WhiteSpace and LineTerminator code units: what [trim] removes and what
    the regular-expression class \s matches. *)
Definition is_space (c : N) : bool :=
  ((9 <=? c) && (c <=? 13) || (c =? 32) || (c =? 160) || (c =? 5760)
   || (8192 <=? c) && (c <=? 8202) || (c =? 8232) || (c =? 8233)
   || (c =? 8239) || (c =? 8287) || (c =? 12288) || (c =? 65279))%N.

Fixpoint trimStart (s : str) : str :=
  match s with
  | [] => []
  | c :: s' => if is_space c then trimStart s' else s
  end.

Definition trimEnd (s : str) : str := rev (trimStart (rev s)).

(** [s.trim()] *)
Definition trim (s : str) : str := trimEnd (trimStart s).

(** [s.split(sep)] for a non-empty separator: the pieces between the
    successive leftmost occurrences of [sep].  [skip] counts the code units
    of a separator that has been recognised and is still being passed
    over.  The result always has at least one piece. *)
Fixpoint split_from (sep : str) (skip : nat) (s : str) : list str :=
  match s with
  | [] => [[]]
  | c :: s' =>
      match skip with
      | S k => split_from sep k s'
      | O =>
          if startsWith sep s
          then [] :: split_from sep (List.length sep - 1) s'
          else match split_from sep 0 s' with
               | piece :: pieces => (c :: piece) :: pieces
               | [] => [[c]]
               end
      end
  end.

Definition split (sep s : str) : list str := split_from sep 0 s.

(** [pieces.join(sep)] *)
Fixpoint join (sep : str) (pieces : list str) : str :=
  match pieces with
  | [] => []
  | [p] => p
  | p :: rest => p ++ sep ++ join sep rest
  end.

(** [s.indexOf(c)] for a one-unit [c]: [None] stands for -1. *)
Fixpoint indexOf (c : N) (s : str) : option nat :=
  match s with
  | [] => None
  | x :: s' => if N.eqb x c then Some 0 else option_map S (indexOf c s')
  end.

(** [s.substring(i)] for [0 <= i]. *)
Definition substring (i : nat) (s : str) : str := skipn i s.

(** [s.toLowerCase()].  The letters A-Z are mapped, and so are the two
    code units outside ASCII whose lower case holds an ASCII letter: U+0130
    (capital I with dot above) becomes "i" followed by U+0307, and U+212A
    (the Kelvin sign) becomes "k".  Every other code unit above 127 is left
    as it is; its lower case is above 127 as well and takes as many code
    units, so the comparisons of the code, which are all with ASCII text
    ('wifi', 'thread', 'true'), read the same. *)
Definition lower (c : N) : str :=
  if ((65 <=? c) && (c <=? 90))%N then [(c + 32)%N]
  else if (c =? 304)%N then [105; 775]%N
  else if (c =? 8490)%N then [107]%N
  else [c].

Definition toLowerCase (s : str) : str := flat_map lower s.

(** [n.toString()] for a non-negative integer: its decimal digits. *)
Definition toString (n : nat) : str :=
  lit (NilEmpty.string_of_uint (Nat.to_uint n)).

End JsString.

Import JsString.

(* ===================================================================== *)
(** ** Regular expressions *)
(* ===================================================================== *)

(** The two regular expressions of the code are sequences of single code
    units and of greedy repetitions of a character class.  [matchHere]
    follows the backtracking order of the JavaScript matcher: a greedy
    repetition first takes as many code units as it can and gives them back
    one by one while the rest of the pattern fails.  It returns the number
    of code units of the match that starts at the head of the subject. *)
Module Regex.

Inductive atom : Type :=
| One (p : N -> bool)       (* one code unit of the class *)
| Many (p : N -> bool).     (* class*, greedy *)

Definition regex := list atom.

Fixpoint matchHere (r : regex) (s : str) : option nat :=
  match r with
  | [] => Some 0
  | One p :: r' =>
      match s with
      | c :: s' => if p c then option_map S (matchHere r' s') else None
      | [] => None
      end
  | Many p :: r' =>
      (fix many (s : str) : option nat :=
         match s with
         | c :: s' =>
             if p c
             then match many s' with
                  | Some n => Some (S n)
                  | None => matchHere r' s
                  end
             else matchHere r' s
         | [] => matchHere r' []
         end) s
  end.

(** [s.replace(r, '')] without the g flag: the leftmost match is removed. *)
Fixpoint replaceFirst (r : regex) (s : str) : str :=
  match matchHere r s with
  | Some n => skipn n s
  | None =>
      match s with
      | [] => []
      | c :: s' => c :: replaceFirst r s'
      end
  end.

(** [s.replace(r, '')] with the g flag, for a pattern that matches no empty
    string: every match found in one left-to-right pass is removed, and the
    search resumes after the match.  [skip] counts the code units of the
    current match still to be dropped. *)
Fixpoint replaceAll_from (r : regex) (skip : nat) (s : str) : str :=
  match s with
  | [] => []
  | c :: s' =>
      match skip with
      | S k => replaceAll_from r k s'
      | O =>
          match matchHere r s with
          | Some n => replaceAll_from r (n - 1) s'
          | None => c :: replaceAll_from r 0 s'
          end
      end
  end.

Definition replaceAll (r : regex) (s : str) : str := replaceAll_from r 0 s.

(** [r.test(s)] for an unanchored pattern. *)
Fixpoint test (r : regex) (s : str) : bool :=
  match matchHere r s with
  | Some _ => true
  | None =>
      match s with
      | [] => false
      | _ :: s' => test r s'
      end
  end.

Definition chr (a : ascii) : atom := One (N.eqb (N_of_ascii a)).

Definition is_digit (c : N) : bool := ((48 <=? c) && (c <=? 57))%N.

(** \w : [A-Za-z0-9_] *)
Definition is_word (c : N) : bool :=
  ((65 <=? c) && (c <=? 90) || (97 <=? c) && (c <=? 122)
   || is_digit c || (c =? 95))%N.

(** class+ is class class* *)
Definition plus (p : N -> bool) : regex := [One p; Many p].

End Regex.

Import Regex.


(* ===================================================================== *)
(** ** JavaScript values and objects *)
(* ===================================================================== *)

(** The values that travel through the handlers: the fields of a JSON
    request body, the properties of device records and registry entries.
    Numbers are the integers; a JSON body holds no NaN, and fractional
    numbers play no part in the code.  An object is the list of its own
    properties in creation order. *)
Inductive value : Type :=
| VUndefined
| VNull
| VBool (b : bool)
| VNum (z : Z)
| VStr (s : str)
| VArr (items : list value)
| VObj (props : list (string * value)).

Definition obj := list (string * value).

Module Obj.

(** Own property [k] of [o], if there is one. *)
Fixpoint lookup (k : string) (o : obj) : option value :=
  match o with
  | [] => None
  | (k', v) :: o' => if String.eqb k' k then Some v else lookup k o'
  end.

(** [o.k]: a missing property reads as undefined. *)
Definition get (k : string) (o : obj) : value :=
  match lookup k o with
  | Some v => v
  | None => VUndefined
  end.

(** [o.k = v], and one entry [k: v] of an object literal written after a
    spread: an existing property keeps its place and takes the new value, a
    new property goes to the end. *)
Fixpoint set (k : string) (v : value) (o : obj) : obj :=
  match o with
  | [] => [(k, v)]
  | (k', v') :: o' =>
      if String.eqb k' k then (k', v) :: o' else (k', v') :: set k v o'
  end.

Definition keys (o : obj) : list string := map fst o.

End Obj.

(** Truthiness: what [!v], [v || w] and [if (v)] test. *)
Definition truthy (v : value) : bool :=
  match v with
  | VUndefined | VNull => false
  | VBool b => b
  | VNum z => negb (Z.eqb z 0)
  | VStr s => negb (JsString.eqb s [])
  | VArr _ | VObj _ => true
  end.

(** [v || w] *)
Definition or_else (v w : value) : value := if truthy v then v else w.

(** [const { k = dflt } = body]: the default applies to undefined only. *)
Definition get_default (k : string) (dflt : value) (body : obj) : value :=
  match Obj.get k body with
  | VUndefined => dflt
  | v => v
  end.

(* ===================================================================== *)
(** ** Exceptions *)
(* ===================================================================== *)

(** An Error object: its message, and the [stderr] property that the
    rejection of a child process may carry. *)
Record error : Type := mkError {
  message : str;
  stderr : value
}.

Definition TypeError (message : str) : error := mkError message VUndefined.

(** A computation inside a [try] block either completes or throws; an
    awaited promise either resolves or rejects. *)
Inductive outcome (A : Type) : Type :=
| Done (a : A)
| Throw (e : error).

Arguments Done {A} a.
Arguments Throw {A} e.

Definition bind {A B : Type} (c : outcome A) (k : A -> outcome B) : outcome B :=
  match c with
  | Done a => k a
  | Throw e => Throw e
  end.

Notation "x <- c ;; k" := (bind c (fun x => k))
  (at level 61, c at next level, right associativity).

(** [try { body } catch (error) { handler }] *)
Definition try_catch {A : Type} (body : outcome A) (handler : error -> A) : A :=
  match body with
  | Done a => a
  | Throw e => handler e
  end.

(** Loop [for (const x of xs) body], stopped by the first throw. *)
Fixpoint for_of {S X : Type} (body : S -> X -> outcome S) (xs : list X) (s : S)
  : outcome S :=
  match xs with
  | [] => Done s
  | x :: xs' => s' <- body s x ;; for_of body xs' s'
  end.

(** [array.map((x, index) => f(x, index))], counting from [i]. *)
Fixpoint map_index {X Y : Type} (f : X -> nat -> Y) (i : nat) (xs : list X)
  : list Y :=
  match xs with
  | [] => []
  | x :: xs' => f x i :: map_index f (S i) xs'
  end.

(* ===================================================================== *)
(** ** Template literals *)
(* ===================================================================== *)

(** The TypeError of a value that has no primitive value. *)
Definition cannotConvert : error :=
  TypeError (lit "Cannot convert object to primitive value").

Section Template.

(** [Number::toString] *)
Variable numberText : Z -> str.

(** [`${v}`], the ToString of a value.  An array is joined with commas,
    its undefined and null items as empty strings.  An object takes
    [Object.prototype.toString], unless it has an own property [toString]:
    no value of a JSON body or of a registry entry is a function, so that
    property cannot be called, nor can [valueOf] give a primitive, and the
    conversion throws a TypeError. *)
Fixpoint toText (v : value) : outcome str :=
  match v with
  | VUndefined => Done (lit "undefined")
  | VNull => Done (lit "null")
  | VBool b => Done (if b then lit "true" else lit "false")
  | VNum z => Done (numberText z)
  | VStr s => Done s
  | VArr items =>
      pieces <-
        (fix each (items : list value) : outcome (list str) :=
           match items with
           | [] => Done []
           | item :: rest =>
               piece <- match item with
                        | VUndefined | VNull => Done []
                        | _ => toText item
                        end ;;
               pieces <- each rest ;;
               Done (piece :: pieces)
           end) items ;;
      Done (join (lit ",") pieces)
  | VObj props =>
      match Obj.lookup "toString" props with
      | Some _ => Throw cannotConvert
      | None => Done (lit "[object Object]")
      end
  end.

(** The values interpolated into template literals, converted in order;
    the first that throws ends the evaluation. *)
Fixpoint interpolate (vs : list value) : outcome (list str) :=
  match vs with
  | [] => Done []
  | v :: vs' => s <- toText v ;; ss <- interpolate vs' ;; Done (s :: ss)
  end.

(** [v] can stand in a template literal. *)
Definition renders (v : value) : Prop := exists s, toText v = Done s.

End Template.

(* ===================================================================== *)
(** ** Discovery parsers *)
(* ===================================================================== *)

(** The line feed, [result.split('\n')]. *)
Definition LF : str := [10%N].

(** The node-start marker of the chip-tool discovery output. *)
Definition marker : str := lit "Discovered commissionable/commissioner node:".

(** The loop state of [parseDiscoveryResult]: the array [devices] and the
    variable [currentDevice] ([None] is null). *)
Record scanState : Type := mkScan {
  devices : list obj;
  currentDevice : option obj
}.

Definition scanStart : scanState := mkScan [] None.

(** [if (currentDevice) { devices.push(currentDevice); }] *)
Definition pushCurrent (st : scanState) : list obj :=
  match currentDevice st with
  | Some d => devices st ++ [d]
  | None => devices st
  end.

(** A marker line: the open record is pushed and [currentDevice] becomes
    the fresh object literal [fresh]. *)
Definition openDevice (fresh : obj) (st : scanState) : scanState :=
  mkScan (pushCurrent st) (Some fresh).

(** The loop state is in order for [good]: the records pushed and the
    open record are good. *)
Definition scanOk (good : obj -> Prop) (st : scanState) : Prop :=
  Forall good (devices st) /\
  forall d, currentDevice st = Some d -> good d.

(** The loop state with the records [before] pushed ahead of its own. *)
Definition prepend (before : list obj) (st : scanState) : scanState :=
  mkScan (before ++ devices st) (currentDevice st).

(** The records that the loop [body] has collected after the last line,
    the open one included; none if the loop threw. *)
Definition recordsOf (body : scanState -> str -> outcome scanState)
    (lines : list str) : list obj :=
  match for_of body lines scanStart with
  | Done st => pushCurrent st
  | Throw _ => []
  end.

(** [o.k.push(v)]; it throws a TypeError when [o.k] is no array. *)
Definition push (k : string) (v : value) (o : obj) : outcome obj :=
  match Obj.get k o with
  | VArr items => Done (Obj.set k (VArr (items ++ [v])) o)
  | _ => Throw (TypeError (lit "push is not a function"))
  end.

(** What C5 says of a parser [parse] with the loop [body], the numbering
    [assign] and the node-start lines [isStart]: the result is the records
    of the loop, numbered; there are as many as node-start lines; the i-th
    has the node id i; and the records of the lines before a node-start
    line precede those of the lines from it on. *)
Definition numbered
    (parse : str -> list obj) (body : scanState -> str -> outcome scanState)
    (assign : obj -> nat -> obj) (isStart : str -> bool) : Prop :=
  forall result,
    let lines := split LF result in
    let n := List.length (filter isStart lines) in
    parse result = map_index assign 0 (recordsOf body lines) /\
    List.length (parse result) = n /\
    (forall i, i < n ->
       exists d, nth_error (parse result) i = Some d /\
                 Obj.get "nodeId" d = VStr (toString (i + 1))) /\
    (forall lines1 line lines2,
       lines = lines1 ++ line :: lines2 -> isStart line = true ->
       recordsOf body lines
       = recordsOf body lines1 ++ recordsOf body (line :: lines2)).

(** [detectDeviceType], the same in part_002 and in server.js. *)
Definition detectDeviceType (deviceInfo : str) : str :=
  if includes (lit "wifi") (toLowerCase deviceInfo) then lit "wifi"
  else if includes (lit "thread") (toLowerCase deviceInfo) then lit "thread"
  else lit "unknown".

(** *** The parser of src/unnamed/part_002 *)
Module Part002.

(** /\[\d+\.\d+\]\s*\[\d+:\d+\]\s*\[\w+\]\s*/ *)
Definition logPrefix : regex :=
  chr "[" :: plus is_digit ++ chr "." :: plus is_digit ++ chr "]" ::
  Many is_space ::
  chr "[" :: plus is_digit ++ chr ":" :: plus is_digit ++ chr "]" ::
  Many is_space ::
  chr "[" :: plus is_word ++ chr "]" ::
  [Many is_space].

Definition cleanLine (line : str) : str := trim (replaceFirst logPrefix line).

Definition extractValue (line : str) : str :=
  match indexOf 58 line with
  | None => []
  | Some colonIndex => trim (substring (colonIndex + 1) line)
  end.

Definition newDevice : obj :=
  [ ("name", VStr []);
    ("addresses", VArr []);
    ("port", VStr []);
    ("vendorId", VStr []);
    ("productId", VStr []);
    ("deviceType", VStr []);
    ("discriminator", VStr []);
    ("pairingHint", VStr []);
    ("instanceName", VStr []);
    ("commissioningMode", VStr []);
    ("supportsCommissionerGeneratedPasscode", VBool false) ]%string.

(** The if/else-if chain on a line inside an open record. *)
Definition parseField (currentDevice : obj) (cleanedLine : str) : outcome obj :=
  let assign k := Done (Obj.set k (VStr (extractValue cleanedLine)) currentDevice) in
  if startsWith (lit "Hostname:") cleanedLine then assign "name"%string
  else if startsWith (lit "IP Address #") cleanedLine then
    let address := extractValue cleanedLine in
    if truthy (VStr address)
    then push "addresses" (VStr address) currentDevice
    else Done currentDevice
  else if startsWith (lit "Port:") cleanedLine then assign "port"%string
  else if startsWith (lit "Vendor ID:") cleanedLine then assign "vendorId"%string
  else if startsWith (lit "Product ID:") cleanedLine then assign "productId"%string
  else if startsWith (lit "Device Type:") cleanedLine then assign "deviceType"%string
  else if startsWith (lit "Long Discriminator:") cleanedLine
  then assign "discriminator"%string
  else if startsWith (lit "Pairing Hint:") cleanedLine then assign "pairingHint"%string
  else if startsWith (lit "Instance Name:") cleanedLine
  then assign "instanceName"%string
  else if startsWith (lit "Commissioning Mode:") cleanedLine
  then assign "commissioningMode"%string
  else if startsWith (lit "Supports Commissioner Generated Passcode:") cleanedLine
  then Done (Obj.set "supportsCommissionerGeneratedPasscode"
               (VBool (JsString.eqb (toLowerCase (extractValue cleanedLine))
                                    (lit "true")))
               currentDevice)
  else Done currentDevice.

(** The body of [for (const line of lines)]. *)
Definition loopBody (st : scanState) (line : str) : outcome scanState :=
  let cleanedLine := cleanLine line in
  if JsString.eqb cleanedLine marker then Done (openDevice newDevice st)
  else
    match currentDevice st with
    | None => Done st
    | Some d =>
        d' <- parseField d cleanedLine ;;
        Done (mkScan (devices st) (Some d'))
    end.

(** What the loop does to the open record on a line that starts none. *)
Definition field (d : obj) (line : str) : outcome obj :=
  parseField d (cleanLine line).

(** The shape every open record keeps: [addresses] is an array. *)
Definition good (d : obj) : Prop :=
  exists items, Obj.get "addresses" d = VArr items.

(** The lines that start a record: those equal to the marker once the log
    prefix is removed and the line trimmed. *)
Definition isStart (line : str) : bool := JsString.eqb (cleanLine line) marker.

(** [{...device, nodeId: (index + 1).toString(), type: 'wifi'}] *)
Definition assignNodeId (device : obj) (index : nat) : obj :=
  Obj.set "type" (VStr (lit "wifi"))
    (Obj.set "nodeId" (VStr (toString (index + 1))) device).

(** The [try] block of [parseDiscoveryResult]. *)
Definition tryBlock (result : str) : outcome (list obj) :=
  if negb (truthy (VStr result)) || JsString.eqb (trim result) []
  then Done []
  else
    st <- for_of loopBody (split LF result) scanStart ;;
    Done (map_index assignNodeId 0 (pushCurrent st)).

(** [parseDiscoveryResult]: the [catch] logs the error and returns []. *)
Definition parseDiscoveryResult (result : str) : list obj :=
  try_catch (tryBlock result) (fun _ => []).

End Part002.

(** *** The parser of src/matterServer/server.js *)
Module Server.

Definition ESC : N := 27.

(** /\x1b\[[0-9;]*m/g *)
Definition ansiEscape : regex :=
  [ One (N.eqb ESC); chr "[";
    Many (fun c => is_digit c || N.eqb c 59); chr "m" ].

Definition removeAnsiEscapes (s : str) : str := replaceAll ansiEscape s.

(** [extractValue(line, key)] *)
Definition extractValue (line key : str) : str :=
  match split (key ++ lit ":") line with
  | _ :: part1 :: _ => removeAnsiEscapes (trim part1)
  | _ => []
  end.

Definition newDevice : obj :=
  [ ("nodeId", VStr []);
    ("name", VStr []);
    ("setupPinCode", VStr []);
    ("setupDiscriminator", VStr []);
    ("vendorId", VStr []);
    ("productId", VStr []);
    ("deviceType", VStr []);
    ("instanceName", VStr []);
    ("addresses", VArr []);
    ("port", VStr []);
    ("pairingHint", VStr []);
    ("commissioningMode", VStr []);
    ("type", VStr (lit "wifi")) ]%string.

(** [cleanLine.split('IP Address #')[1].split(':').slice(1).join(':').trim()];
    reading [.split] of a missing element [1] throws a TypeError. *)
Definition addressOf (cleanLine : str) : outcome str :=
  match nth_error (split (lit "IP Address #") cleanLine) 1 with
  | Some part1 => Done (trim (join (lit ":") (tl (split (lit ":") part1))))
  | None => Throw (TypeError (lit "Cannot read properties of undefined (reading 'split')"))
  end.

(** The if/else-if chain on a line inside an open record. *)
Definition parseField (currentDevice : obj) (cleanLine : str) : outcome obj :=
  let assign k key :=
    Done (Obj.set k (VStr (extractValue cleanLine (lit key))) currentDevice) in
  if includes (lit "Hostname:") cleanLine then assign "name"%string "Hostname"%string
  else if includes (lit "IP Address #") cleanLine then
    address <- addressOf cleanLine ;;
    if truthy (VStr address) && negb (JsString.eqb address (lit "not present"))
    then push "addresses" (VStr address) currentDevice
    else Done currentDevice
  else if includes (lit "Port:") cleanLine then assign "port"%string "Port"%string
  else if includes (lit "Long Discriminator:") cleanLine
  then assign "setupDiscriminator"%string "Long Discriminator"%string
  else if includes (lit "Vendor ID:") cleanLine
  then assign "vendorId"%string "Vendor ID"%string
  else if includes (lit "Product ID:") cleanLine
  then assign "productId"%string "Product ID"%string
  else if includes (lit "Device Type:") cleanLine
  then assign "deviceType"%string "Device Type"%string
  else if includes (lit "Instance Name:") cleanLine
  then assign "instanceName"%string "Instance Name"%string
  else if includes (lit "Pairing Hint:") cleanLine
  then assign "pairingHint"%string "Pairing Hint"%string
  else if includes (lit "Commissioning Mode:") cleanLine
  then assign "commissioningMode"%string "Commissioning Mode"%string
  else Done currentDevice.

(** The body of [for (const line of lines)]. *)
Definition loopBody (st : scanState) (line : str) : outcome scanState :=
  if negb (includes (lit "[DIS]") line) then Done st
  else
    let cleanLine := removeAnsiEscapes (trim line) in
    if includes marker cleanLine then Done (openDevice newDevice st)
    else
      match currentDevice st with
      | None => Done st
      | Some d =>
          d' <- parseField d cleanLine ;;
          Done (mkScan (devices st) (Some d'))
      end.

(** What the loop does to the open record on a line that starts none. *)
Definition field (d : obj) (line : str) : outcome obj :=
  if negb (includes (lit "[DIS]") line) then Done d
  else parseField d (removeAnsiEscapes (trim line)).

(** The shape every open record keeps: [addresses] is an array of
    non-empty strings other than 'not present', and [type] is 'wifi'. *)
Definition good (d : obj) : Prop :=
  (exists items,
     Obj.get "addresses" d = VArr items /\
     Forall (fun v => exists a, v = VStr a /\ a <> [] /\ a <> lit "not present")
            items) /\
  Obj.get "type" d = VStr (lit "wifi").

(** The lines that start a record: those with the [DIS] tag whose trimmed
    text, escape sequences removed, contains the marker. *)
Definition isStart (line : str) : bool :=
  includes (lit "[DIS]") line && includes marker (removeAnsiEscapes (trim line)).

(** [{...device, nodeId: (index + 1).toString()}] *)
Definition assignNodeId (device : obj) (index : nat) : obj :=
  Obj.set "nodeId" (VStr (toString (index + 1))) device.

(** The [try] block of [parseDiscoveryResult]. *)
Definition tryBlock (result : str) : outcome (list obj) :=
  if negb (truthy (VStr result)) || JsString.eqb (trim result) []
  then Done []
  else
    st <- for_of loopBody (split LF result) scanStart ;;
    Done (map_index assignNodeId 0 (pushCurrent st)).

(** [parseDiscoveryResult]: the [catch] logs the error and returns []. *)
Definition parseDiscoveryResult (result : str) : list obj :=
  try_catch (tryBlock result) (fun _ => []).

End Server.


(* ===================================================================== *)
(** ** The device registry *)
(* ===================================================================== *)

(** [deviceState = new Map()]: the entries in insertion order.  Keys are
    compared as a Map compares them (SameValueZero): primitives by value,
    while an array or object taken from a request body is a new reference
    that equals no stored key. *)
Definition registry := list (value * obj).

(** On these values (no NaN) it is also what [===] computes. *)
Definition sameValueZero (a b : value) : bool :=
  match a, b with
  | VUndefined, VUndefined => true
  | VNull, VNull => true
  | VBool x, VBool y => Bool.eqb x y
  | VNum x, VNum y => Z.eqb x y
  | VStr x, VStr y => JsString.eqb x y
  | _, _ => false
  end.

(** A primitive value is a Map key that a later lookup can find again. *)
Definition primitive (v : value) : bool :=
  match v with
  | VArr _ | VObj _ => false
  | _ => true
  end.

Module Map.

(** [deviceState.get(k)]; [None] is undefined.  Every stored entry is an
    object, hence truthy: [!deviceState.get(k)] holds exactly for [None]. *)
Fixpoint get (k : value) (m : registry) : option obj :=
  match m with
  | [] => None
  | (k', e) :: m' => if sameValueZero k' k then Some e else get k m'
  end.

(** [deviceState.set(k, e)] *)
Fixpoint set (k : value) (e : obj) (m : registry) : registry :=
  match m with
  | [] => [(k, e)]
  | (k', e') :: m' =>
      if sameValueZero k' k then (k', e) :: m' else (k', e') :: set k e m'
  end.

End Map.

(* ===================================================================== *)
(** ** Request handlers *)
(* ===================================================================== *)

(** The chip-tool command lines, kept as the parts of their template
    strings. *)
Inductive command : Type :=
| DiscoverCommissionables
    (* `discover commissionables` *)
| PairingCode (nodeId setupCode : value)
    (* `pairing code ${nodeId} ${setupCode}` *)
| PairingBleWifi (nodeId discriminator ssid password : value).
    (* `pairing ble-wifi ${nodeId} ${discriminator} "${ssid}" "${password}"` *)

(** [res.status(code).json(body)]; [res.json(body)] answers 200. *)
Record reply : Type := mkReply {
  status : nat;
  body : obj
}.

(** What one request does: its answer, the registry it leaves, and the
    commands it handed to [executeMatterCommand], in order. *)
Record effect : Type := mkEffect {
  response : reply;
  state : registry;
  calls : list command
}.

(** [{...dst, ...src}] *)
Definition spread (src dst : obj) : obj :=
  fold_left (fun o kv => Obj.set (fst kv) (snd kv) o) src dst.

(** "설정 코드는 필수 항목입니다." *)
Definition msgSetupCodeRequired : str :=
  [ 49444; 51221; 32; 53076; 46300; 45716; 32; 54596; 49688; 32; 54637;
    47785; 51077; 45768; 45796; 46 ]%N.

(** "디바이스 페어링 완료" *)
Definition msgPaired : str :=
  [ 46356; 48148; 51060; 49828; 32; 54168; 50612; 47553; 32; 50756;
    47308 ]%N.

(** "Wi-Fi SSID와 비밀번호는 필수 항목입니다." *)
Definition msgWifiRequired : str :=
  [ 87; 105; 45; 70; 105; 32; 83; 83; 73; 68; 50752; 32; 48708; 48128;
    48264; 54840; 45716; 32; 54596; 49688; 32; 54637; 47785; 51077;
    45768; 45796; 46 ]%N.

(** "Wi-Fi 설정 및 커미셔닝 완료" *)
Definition msgWifiCommissioned : str :=
  [ 87; 105; 45; 70; 105; 32; 49444; 51221; 32; 48143; 32; 52964; 48120;
    49492; 45789; 32; 50756; 47308 ]%N.

(** "Matter 설정 코드는 필수 항목입니다." *)
Definition msgManualCodeRequired : str :=
  [ 77; 97; 116; 116; 101; 114; 32; 49444; 51221; 32; 53076; 46300;
    45716; 32; 54596; 49688; 32; 54637; 47785; 51077; 45768; 45796; 46 ]%N.

(** "디바이스를 찾을 수 없습니다." *)
Definition msgDeviceNotFound : str :=
  [ 46356; 48148; 51060; 49828; 47484; 32; 52286; 51012; 32; 49688; 32;
    50630; 49845; 45768; 45796; 46 ]%N.

(** "페어링이 완료되지 않은 디바이스입니다." *)
Definition msgNotPaired : str :=
  [ 54168; 50612; 47553; 51060; 32; 50756; 47308; 46104; 51648; 32;
    50506; 51008; 32; 46356; 48148; 51060; 49828; 51077; 45768; 45796;
    46 ]%N.

(** "Wi-Fi 정보가 제공되지 않았습니다." *)
Definition msgNoWifiInfo : str :=
  [ 87; 105; 45; 70; 105; 32; 51221; 48372; 44032; 32; 51228; 44277;
    46104; 51648; 32; 50506; 50520; 49845; 45768; 45796; 46 ]%N.

(** "Wi-Fi 커미셔닝 완료" *)
Definition msgCommissioned : str :=
  [ 87; 105; 45; 70; 105; 32; 52964; 48120; 49492; 45789; 32; 50756;
    47308 ]%N.

(** "디바이스 검색 완료" *)
Definition msgSearchDone : str :=
  [ 46356; 48148; 51060; 49828; 32; 44160; 49353; 32; 50756; 47308 ]%N.

(** "검색된 디바이스가 없습니다." *)
Definition msgNoDevices : str :=
  [ 44160; 49353; 46108; 32; 46356; 48148; 51060; 49828; 44032; 32;
    50630; 49845; 45768; 45796; 46 ]%N.

Definition errorBody (msg : str) : obj :=
  [ ("status", VStr (lit "error")); ("message", VStr msg) ]%string.

Section Handlers.

(** [executeMatterCommand]: the promise resolves with the standard output
    of chip-tool or rejects with an error. *)
Variable executeMatterCommand : command -> outcome str.

(** [new Date().toISOString()]; one request reads the clock as one value. *)
Variable now : str.

(** [handleMatterError]: the error details of a rejected command. *)
Variable handleMatterError : error -> obj.

(** [Number::toString], for the numbers that a template literal holds. *)
Variable numberText : Z -> str.

(** [MATTER_CONFIG.defaultNodeId] *)
Definition defaultNodeId : value := VStr (lit "1").

(** The [catch] of every handler:
    [res.status(500).json({status: "error", ...errorDetails})]. *)
Definition internalError (e : error) : reply :=
  mkReply 500 (spread (handleMatterError e) [("status", VStr (lit "error"))]%string).

(** POST /api/pairing/code (server.js, part_001).  Inside the [try] the
    template literals of the log line and of the command are evaluated
    before the command runs: a value that cannot be converted throws
    there, and the [catch] answers it. *)
Definition pairing_code (req : obj) (deviceState : registry) : effect :=
  let nodeId := get_default "nodeId" defaultNodeId req in
  let setupCode := Obj.get "setupCode" req in
  let discriminator := Obj.get "discriminator" req in
  if negb (truthy setupCode)
  then mkEffect (mkReply 400 (errorBody msgSetupCodeRequired)) deviceState []
  else
    match interpolate numberText [nodeId; setupCode; nodeId; setupCode] with
    | Throw e => mkEffect (internalError e) deviceState []
    | Done _ =>
        let command := PairingCode nodeId setupCode in
        match executeMatterCommand command with
        | Done result =>
            let entry :=
              [ ("status", VStr (lit "paired"));
                ("setupCode", setupCode);
                ("discriminator", discriminator);
                ("timestamp", VStr now) ]%string in
            mkEffect
              (mkReply 200
                 [ ("status", VStr (lit "success"));
                   ("message", VStr msgPaired);
                   ("deviceInfo", VObj entry);
                   ("output", VStr result) ]%string)
              (Map.set nodeId entry deviceState)
              [command]
        | Throw e => mkEffect (internalError e) deviceState [command]
        end
    end.

(** [{...deviceInfo, status: "commissioned", network: {ssid, timestamp}}] *)
Definition commissioned (deviceInfo : obj) (ssid : value) : obj :=
  Obj.set "network" (VObj [ ("ssid", ssid); ("timestamp", VStr now) ]%string)
    (Obj.set "status" (VStr (lit "commissioned")) deviceInfo).

(** POST /api/commissioning/wifi (server.js, part_001) *)
Definition commissioning_wifi (req : obj) (deviceState : registry) : effect :=
  let nodeId := get_default "nodeId" defaultNodeId req in
  let ssid := Obj.get "ssid" req in
  let password := Obj.get "password" req in
  let discriminator := Obj.get "discriminator" req in
  if negb (truthy ssid) || negb (truthy password)
  then mkEffect (mkReply 400 (errorBody msgWifiRequired)) deviceState []
  else
    match interpolate numberText
            [nodeId; ssid; nodeId; discriminator; ssid; password] with
    | Throw e => mkEffect (internalError e) deviceState []
    | Done _ =>
        let command := PairingBleWifi nodeId discriminator ssid password in
        match executeMatterCommand command with
        | Done result =>
            let deviceInfo :=
              match Map.get nodeId deviceState with
              | Some e => e
              | None => []
              end in
            let entry := commissioned deviceInfo ssid in
            mkEffect
              (mkReply 200
                 [ ("status", VStr (lit "success"));
                   ("message", VStr msgWifiCommissioned);
                   ("deviceInfo", VObj entry);
                   ("output", VStr result) ]%string)
              (Map.set nodeId entry deviceState)
              [command]
        | Throw e => mkEffect (internalError e) deviceState [command]
        end
    end.

(** POST /api/device/pair (part_002) *)
Definition device_pair (req : obj) (deviceState : registry) : effect :=
  let deviceId := Obj.get "deviceId" req in
  let manualPairingCode := Obj.get "manualPairingCode" req in
  if negb (truthy manualPairingCode)
  then mkEffect (mkReply 400 (errorBody msgManualCodeRequired)) deviceState []
  else
    match Map.get deviceId deviceState with
    | None => mkEffect (mkReply 404 (errorBody msgDeviceNotFound)) deviceState []
    | Some deviceInfo =>
        match interpolate numberText
                [ Obj.get "name" deviceInfo; manualPairingCode;
                  deviceId; manualPairingCode ] with
        | Throw e => mkEffect (internalError e) deviceState []
        | Done _ =>
            let command := PairingCode deviceId manualPairingCode in
            match executeMatterCommand command with
            | Done result =>
                let entry :=
                  Obj.set "pairingTimestamp" (VStr now)
                    (Obj.set "status" (VStr (lit "paired"))
                       (Obj.set "manualPairingCode" manualPairingCode
                          deviceInfo)) in
                mkEffect
                  (mkReply 200
                     [ ("status", VStr (lit "success"));
                       ("message", VStr msgPaired);
                       ("deviceInfo", VObj entry) ]%string)
                  (Map.set deviceId entry deviceState)
                  [command]
            | Throw e => mkEffect (internalError e) deviceState [command]
            end
        end
    end.

(** [process.env.WIFI_SSID] and [process.env.WIFI_PASSWORD]: a string, or
    undefined when the variable is not set. *)
Variables env_WIFI_SSID env_WIFI_PASSWORD : value.

(** POST /api/device/commission (part_002) *)
Definition device_commission (req : obj) (deviceState : registry) : effect :=
  let deviceId := Obj.get "deviceId" req in
  let ssid := Obj.get "ssid" req in
  let password := Obj.get "password" req in
  match Map.get deviceId deviceState with
  | None => mkEffect (mkReply 404 (errorBody msgDeviceNotFound)) deviceState []
  | Some deviceInfo =>
      if negb (sameValueZero (Obj.get "status" deviceInfo) (VStr (lit "paired")))
      then mkEffect (mkReply 400 (errorBody msgNotPaired)) deviceState []
      else
        let wifiSSID := or_else ssid env_WIFI_SSID in
        let wifiPassword := or_else password env_WIFI_PASSWORD in
        if negb (truthy wifiSSID) || negb (truthy wifiPassword)
        then mkEffect (mkReply 400 (errorBody msgNoWifiInfo)) deviceState []
        else
          match interpolate numberText
                  [ Obj.get "name" deviceInfo; wifiSSID; deviceId;
                    Obj.get "discriminator" deviceInfo; wifiSSID;
                    wifiPassword ] with
          | Throw e => mkEffect (internalError e) deviceState []
          | Done _ =>
              let command :=
                PairingBleWifi deviceId (Obj.get "discriminator" deviceInfo)
                               wifiSSID wifiPassword in
              match executeMatterCommand command with
              | Done result =>
                  let entry := commissioned deviceInfo wifiSSID in
                  mkEffect
                    (mkReply 200
                       [ ("status", VStr (lit "success"));
                         ("message", VStr msgCommissioned);
                         ("deviceInfo", VObj entry) ]%string)
                    (Map.set deviceId entry deviceState)
                    [command]
              | Throw e => mkEffect (internalError e) deviceState [command]
              end
          end
  end.

(** [{...device, status: 'discovered', timestamp: new Date().toISOString()}] *)
Definition discovered (device : obj) : obj :=
  Obj.set "timestamp" (VStr now)
    (Obj.set "status" (VStr (lit "discovered")) device).

(** [devices.forEach(device => deviceState.set(device.nodeId, {...}))] *)
Definition upsertDiscovered (devices : list obj) (deviceState : registry)
  : registry :=
  fold_left
    (fun m device => Map.set (Obj.get "nodeId" device) (discovered device) m)
    devices deviceState.

(** /api/device/search, over the [parseDiscoveryResult] of its file:
    POST in part_002, GET in server.js. *)
Definition device_search (parseDiscoveryResult : str -> list obj)
    (deviceState : registry) : effect :=
  let command := DiscoverCommissionables in
  match executeMatterCommand command with
  | Done result =>
      let devices := parseDiscoveryResult result in
      mkEffect
        (mkReply 200
           [ ("status", VStr (lit "success"));
             ("message",
               VStr (if Nat.ltb 0 (List.length devices) then msgSearchDone
                     else msgNoDevices));
             ("devices", VArr (map VObj devices)) ]%string)
        (upsertDiscovered devices deviceState)
        [command]
  | Throw e => mkEffect (internalError e) deviceState [command]
  end.

End Handlers.

(** *** The handler of src/matterServer/controller.js *)
Module Controller.

(** The command lines handed to [exec], kept as the parts of their
    template strings. *)
Inductive execCommand : Type :=
| ChipBleWifi (nodeId discriminator ssid password : value)
    (* `chip-tool pairing ble-wifi ${nodeId} ${discriminator} ${ssid} ${password}` *)
| ChipBleThread (nodeId discriminator dataset : value)
    (* `chip-tool pairing ble-thread ${nodeId} ${discriminator} ${dataset}` *)
| ChipCode (nodeId manualPairingCode : value).
    (* `chip-tool pairing code ${nodeId} ${manualPairingCode}` *)

(** The answer of a request and the commands it handed to [exec]; this
    server keeps no registry. *)
Record execEffect : Type := mkExecEffect {
  answered : reply;
  executed : list execCommand
}.

Section Handler.

(** [exec(command, callback)]: the callback gets the standard output, or
    the error of a command that failed. *)
Variable exec : execCommand -> outcome str.

Variable numberText : Z -> str.

(** [process.env.WIFI_SSID], [process.env.WIFI_PASSWORD] and
    [process.env.THREAD_DATASET] *)
Variables env_WIFI_SSID env_WIFI_PASSWORD env_THREAD_DATASET : value.

(** The command of a request, [None] where the handler answers 'Invalid
    networkType' instead; building it throws when a value of its
    template literal cannot be converted. *)
Definition commandOf (req : obj) : outcome (option execCommand) :=
  let nodeId := Obj.get "nodeId" req in
  let manualPairingCode := Obj.get "manualPairingCode" req in
  let discriminator := Obj.get "discriminator" req in
  let deviceAddress := Obj.get "deviceAddress" req in
  let networkType := Obj.get "networkType" req in
  if sameValueZero deviceAddress (VStr (lit "BLE"))
  then
    let ssid := or_else env_WIFI_SSID (VStr (lit "TestSSID")) in
    let password := or_else env_WIFI_PASSWORD (VStr (lit "TestPassword")) in
    if sameValueZero networkType (VStr (lit "wifi"))
    then
      _ <- interpolate numberText [nodeId; discriminator; ssid; password] ;;
      Done (Some (ChipBleWifi nodeId discriminator ssid password))
    else if sameValueZero networkType (VStr (lit "thread"))
    then
      let dataset := or_else env_THREAD_DATASET (VStr (lit "hex:...")) in
      _ <- interpolate numberText [nodeId; discriminator; dataset] ;;
      Done (Some (ChipBleThread nodeId discriminator dataset))
    else Done None
  else
    _ <- interpolate numberText [nodeId; manualPairingCode] ;;
    Done (Some (ChipCode nodeId manualPairingCode)).

(** POST /api/pairing/code (controller.js, lines 9-50).  The handler reads
    [manualPairingCode], never [setupCode], and checks [networkType] only.
    It has no [try]: an exception of a template literal leaves the
    handler, [Throw], and no command has run. *)
Definition pairing_code (req : obj) : outcome execEffect :=
  command <- commandOf req ;;
  match command with
  | None =>
      Done (mkExecEffect
              (mkReply 400 [("error", VStr (lit "Invalid networkType"))]%string)
              [])
  | Some c =>
      match exec c with
      | Done stdout =>
          Done (mkExecEffect (mkReply 200 [("result", VStr stdout)]%string) [c])
      | Throw err =>
          Done (mkExecEffect
                  (mkReply 500 [("error", VStr (message err))]%string) [c])
      end
  end.

End Handler.

End Controller.

(** [s] contains an ANSI colour escape sequence, a match of the pattern
    that [removeAnsiEscapes] removes. *)
Definition hasAnsiEscape (s : str) : bool := Regex.test Server.ansiEscape s.

(** [s] holds no ESC at all. *)
Definition escFree (s : str) : Prop := ~ In Server.ESC s.

(** Every ESC of [s] begins a whole escape sequence. *)
Fixpoint wholeEscapes (s : str) : bool :=
  match s with
  | [] => true
  | c :: s' =>
      (if N.eqb c Server.ESC
       then match matchHere Server.ansiEscape s with
            | Some _ => true
            | None => false
            end
       else true) && wholeEscapes s'
  end.

(** A string value, or an array of string values, without ESC. *)
Definition cleanValue (v : value) : Prop :=
  match v with
  | VStr s => escFree s
  | VArr items =>
      Forall (fun item => match item with VStr s => escFree s | _ => True end)
             items
  | _ => True
  end.

Definition cleanRecord (d : obj) : Prop :=
  Forall (fun kv => cleanValue (snd kv)) d.

(* ===================================================================== *)
(** ** Sample inputs *)
(* ===================================================================== *)

(** The discovery output of the specification's scenario: one block, no
    log prefix on its lines. *)
Definition scenario : str :=
  lit "Discovered commissionable/commissioner node:" ++ LF ++
  lit "Hostname: light1" ++ LF ++
  lit "IP Address #1: 192.168.1.50" ++ LF ++
  lit "Port: 5540" ++ LF ++
  lit "Vendor ID: 0xFFF1" ++ LF.

(** The same block as chip-tool logs it, every line behind its prefix. *)
Definition scenarioTagged : str :=
  lit "[1744266250.301] [47866:47868] [DIS] Discovered commissionable/commissioner node:" ++ LF ++
  lit "[1744266250.301] [47866:47868] [DIS] Hostname: light1" ++ LF ++
  lit "[1744266250.301] [47866:47868] [DIS] IP Address #1: 192.168.1.50" ++ LF ++
  lit "[1744266250.301] [47866:47868] [DIS] Port: 5540" ++ LF ++
  lit "[1744266250.301] [47866:47868] [DIS] Vendor ID: 0xFFF1" ++ LF.

(** Two blocks behind the log prefix. *)
Definition twoBlocks : str :=
  lit "[1744266250.301] [47866:47868] [DIS] Discovered commissionable/commissioner node:" ++ LF ++
  lit "[1744266250.301] [47866:47868] [DIS] Hostname: light1" ++ LF ++
  lit "[1744266251.118] [47866:47868] [DIS] Discovered commissionable/commissioner node:" ++ LF ++
  lit "[1744266251.118] [47866:47868] [DIS] Hostname: plug2" ++ LF.

(** Two marker lines without any prefix. *)
Definition twoMarkers : str :=
  marker ++ LF ++ lit "Hostname: light1" ++ LF ++
  marker ++ LF ++ lit "Hostname: plug2" ++ LF.

(** A line that contains the marker and goes on after it. *)
Definition markerWithText : str :=
  marker ++ lit " (1 of 1)" ++ LF ++ lit "Hostname: light1" ++ LF.

(** One block whose text mentions thread and not wifi. *)
Definition threadScan : str :=
  lit "[1744266250.301] [47866:47868] [DIS] Discovered commissionable/commissioner node:" ++ LF ++
  lit "[1744266250.301] [47866:47868] [DIS] Hostname: thread-sensor" ++ LF.

(** A block with one address line that reads 'not present'. *)
Definition notPresentBlock : str :=
  marker ++ LF ++
  lit "IP Address #1: not present" ++ LF ++
  lit "IP Address #2: 10.0.0.5" ++ LF.

Definition notPresentTagged : str :=
  lit "[1744266250.301] [47866:47868] [DIS] Discovered commissionable/commissioner node:" ++ LF ++
  lit "[1744266250.301] [47866:47868] [DIS] IP Address #1: not present" ++ LF ++
  lit "[1744266250.301] [47866:47868] [DIS] IP Address #2: 10.0.0.5" ++ LF.

(** A block whose hostname line ends with the colour reset ESC [ 0 m. *)
Definition colouredBlock : str :=
  marker ++ LF ++
  lit "Hostname: light1" ++ [Server.ESC] ++ lit "[0m" ++ LF.

(** A tagged block whose address value is ESC [ ESC [ 0 m 0 m: an escape
    sequence inside the two halves of another. *)
Definition nestedEscape : str :=
  lit "[DIS] Discovered commissionable/commissioner node:" ++ LF ++
  lit "[DIS] IP Address #1: " ++
    [Server.ESC] ++ lit "[" ++ [Server.ESC] ++ lit "[0m" ++ lit "0m" ++ LF.

(** A tagged block in colour: every line starts with ESC [ 0 ; 3 2 m and
    ends with ESC [ 0 m. *)
Definition colouredTagged : str :=
  [Server.ESC] ++ lit "[0;32m[1744266250.301] [47866:47868] [DIS] Discovered commissionable/commissioner node:" ++ [Server.ESC] ++ lit "[0m" ++ LF ++
  [Server.ESC] ++ lit "[0;32m[1744266250.301] [47866:47868] [DIS] Hostname: light1" ++ [Server.ESC] ++ lit "[0m" ++ LF ++
  [Server.ESC] ++ lit "[0;32m[1744266250.301] [47866:47868] [DIS] IP Address #1: 192.168.1.50" ++ [Server.ESC] ++ lit "[0m" ++ LF.

(** A command runner that finds the tagged scenario. *)
Definition findsScenario : command -> outcome str := fun _ => Done scenarioTagged.

(** A command runner whose every command succeeds, a clock reading and an
    error handler for the sample runs. *)
Definition alwaysOk : command -> outcome str := fun _ => Done (lit "ok").

(** [Number::toString] on the integers of the sample runs: the decimal
    digits, after a minus sign for a negative one. *)
Definition decimalText (z : Z) : str :=
  if (z <? 0)%Z then lit "-" ++ toString (Z.to_nat (- z))
  else toString (Z.to_nat z).
Definition sampleNow : str := lit "2025-04-10T06:24:10.301Z".
Definition sampleErrorDetails : error -> obj :=
  fun e => [ ("code", VStr (lit "UNKNOWN_ERROR")); ("message", VStr (message e)) ]%string.

(** A registry that holds the discovered record of the scenario under "1". *)
Definition sampleRegistry : registry :=
  upsertDiscovered sampleNow (Part002.parseDiscoveryResult scenario) [].


Definition sampleDevicePair : obj :=
  [ ("deviceId", VStr (lit "1"));
    ("manualPairingCode", VStr (lit "34970112332")) ]%string.

Definition sampleCommission : obj :=
  [ ("nodeId", VStr (lit "7")); ("ssid", VStr (lit "home"));
    ("password", VStr (lit "secret")); ("discriminator", VStr (lit "3840")) ]%string.

Definition sampleDeviceCommission : obj :=
  [ ("deviceId", VStr (lit "7")); ("ssid", VStr (lit "home"));
    ("password", VStr (lit "secret")) ]%string.

(* ===================================================================== *)
(** ** Further code of the servers *)
(* ===================================================================== *)

(** The integers from 0 to 2^53 are all values of a JavaScript number,
    and [x + 1] is exact below 2^53. *)
Definition maxExact : N := 9007199254740992.

(** [generateNodeId] (part_002, server.js): the closure over [lastId],
    with the counter passed in and out.  The counter is a JavaScript
    number that starts at 0 and only changes by [lastId += 1]: below 2^53
    the sum is exact, and at 2^53 the sum 2^53 + 1 is rounded back to 2^53,
    so the counter holds an integer from 0 to 2^53 and stays at 2^53 once
    it is there.  [toString] prints these in decimal (they are below
    10^21). *)
Definition generateNodeId (lastId : N) : str * N :=
  let lastId' := if (lastId <? maxExact)%N then (lastId + 1)%N else lastId in
  (toString (N.to_nat lastId'), lastId').

(** [count] calls of [generateNodeId] one after the other: the ids they
    return, in order, and the counter they leave. *)
Fixpoint generateNodeIds (count : nat) (lastId : N) : list str * N :=
  match count with
  | O => ([], lastId)
  | S count' =>
      let '(id, lastId') := generateNodeId lastId in
      let '(ids, final) := generateNodeIds count' lastId' in
      (id :: ids, final)
  end.

(** [r.exec(s)] for an unanchored pattern: the text of the leftmost match. *)
Fixpoint firstMatch (r : regex) (s : str) : option str :=
  match matchHere r s with
  | Some n => Some (firstn n s)
  | None =>
      match s with
      | [] => None
      | _ :: s' => firstMatch r s'
      end
  end.

(** [0-9a-fA-F] *)
Definition is_hex (c : N) : bool :=
  (is_digit c || (97 <=? c) && (c <=? 102) || (65 <=? c) && (c <=? 70))%N.

(** A literal as a pattern. *)
Definition literally (s : str) : regex := map (fun c => One (N.eqb c)) s.

(** "필수 파라미터가 누락되었습니다. (setupPinCode, ssid, password)" *)
Definition msgMissingParameters : str :=
  [ 54596; 49688; 32; 54028; 46972; 48120; 53552; 44032; 32; 45572;
    46973; 46104; 50632; 49845; 45768; 45796; 46; 32; 40; 115; 101; 116;
    117; 112; 80; 105; 110; 67; 111; 100; 101; 44; 32; 115; 115; 105;
    100; 44; 32; 112; 97; 115; 115; 119; 111; 114; 100; 41 ]%N.

(** "디바이스를 찾을 수 없습니다. (nodeId: " *)
Definition msgDeviceNotFoundFor : str :=
  [ 46356; 48148; 51060; 49828; 47484; 32; 52286; 51012; 32; 49688; 32;
    50630; 49845; 45768; 45796; 46; 32; 40; 110; 111; 100; 101; 73; 100;
    58; 32 ]%N.

(** "Wi-Fi 페어링 및 커미셔닝 완료" *)
Definition msgSetupDone : str :=
  [ 87; 105; 45; 70; 105; 32; 54168; 50612; 47553; 32; 48143; 32; 52964;
    48120; 49492; 45789; 32; 50756; 47308 ]%N.

(** "발견된 디바이스 목록 조회 완료" *)
Definition msgListDone : str :=
  [ 48156; 44204; 46108; 32; 46356; 48148; 51060; 49828; 32; 47785;
    47197; 32; 51312; 54924; 32; 50756; 47308 ]%N.

(** "발견된 디바이스가 없습니다." *)
Definition msgNoneListed : str :=
  [ 48156; 44204; 46108; 32; 46356; 48148; 51060; 49828; 44032; 32;
    50630; 49845; 45768; 45796; 46 ]%N.

(** "Matter 명령어 실행이 시간 초과되었습니다." *)
Definition msgTimeout : str :=
  [ 77; 97; 116; 116; 101; 114; 32; 47749; 47161; 50612; 32; 49892;
    54665; 51060; 32; 49884; 44036; 32; 52488; 44284; 46104; 50632;
    49845; 45768; 45796; 46 ]%N.

(** "BLE 연결 중 오류가 발생했습니다." *)
Definition msgBle : str :=
  [ 66; 76; 69; 32; 50672; 44208; 32; 51473; 32; 50724; 47448; 44032;
    32; 48156; 49373; 54664; 49845; 45768; 45796; 46 ]%N.

(** "데이터 모델 처리 중 오류가 발생했습니다." *)
Definition msgDataModel : str :=
  [ 45936; 51060; 53552; 32; 47784; 45944; 32; 52376; 47532; 32; 51473;
    32; 50724; 47448; 44032; 32; 48156; 49373; 54664; 49845; 45768;
    45796; 46 ]%N.

(** "Matter SDK 명령어를 찾을 수 없습니다. SDK 경로를 확인해주세요." *)
Definition msgCommandNotFound : str :=
  [ 77; 97; 116; 116; 101; 114; 32; 83; 68; 75; 32; 47749; 47161; 50612;
    47484; 32; 52286; 51012; 32; 49688; 32; 50630; 49845; 45768; 45796;
    46; 32; 83; 68; 75; 32; 44221; 47196; 47484; 32; 54869; 51064;
    54644; 51452; 49464; 50836; 46 ]%N.

(** "Matter SDK 오류가 발생했습니다." *)
Definition msgSdkError : str :=
  [ 77; 97; 116; 116; 101; 114; 32; 83; 68; 75; 32; 50724; 47448; 44032;
    32; 48156; 49373; 54664; 49845; 45768; 45796; 46 ]%N.

(** "Matter SDK 오류: " *)
Definition msgSdkErrorWith : str :=
  [ 77; 97; 116; 116; 101; 114; 32; 83; 68; 75; 32; 50724; 47448; 58; 32 ]%N.

(** "알 수 없는 오류가 발생했습니다: " *)
Definition msgUnknownWith : str :=
  [ 50508; 32; 49688; 32; 50630; 45716; 32; 50724; 47448; 44032; 32;
    48156; 49373; 54664; 49845; 45768; 45796; 58; 32 ]%N.

(** "알 수 없는 오류가 발생했습니다." *)
Definition msgUnknown : str :=
  [ 50508; 32; 49688; 32; 50630; 45716; 32; 50724; 47448; 44032; 32;
    48156; 49373; 54664; 49845; 45768; 45796; 46 ]%N.

(** *** [handleMatterError]

    The function reads [error.message], a string, and [error.stderr], a
    string or nothing: [None] is an error object without that property. *)

(** [error.stderr?.includes(text)] *)
Definition stderrIncludes (text : str) (stderr : option str) : bool :=
  match stderr with
  | Some s => includes text s
  | None => false
  end.

(** [if (error.stderr)] *)
Definition stderrGiven (stderr : option str) : bool :=
  match stderr with
  | Some s => truthy (VStr s)
  | None => false
  end.

Definition errorDetails (code message : str) : obj :=
  [ ("code", VStr code); ("message", VStr message) ]%string.

(** src/unnamed/part_001, lines 69-94 *)
Module ErrorsPart001.

Definition handleMatterError (message : str) (stderr : option str) : obj :=
  if includes (lit "CHIP:BLE") message
  then errorDetails (lit "BLE_ERROR") msgBle
  else if includes (lit "CHIP:DMG") message
  then errorDetails (lit "DATA_MODEL_ERROR") msgDataModel
  else if includes (lit "not found") message
  then errorDetails (lit "COMMAND_NOT_FOUND") msgCommandNotFound
  else errorDetails (lit "UNKNOWN_ERROR") (msgUnknownWith ++ message).

End ErrorsPart001.

(** src/matterServer/server.js, lines 129-171 *)
Module ErrorsServerFirst.

Definition handleMatterError (message : str) (stderr : option str) : obj :=
  if includes (lit "Timeout") message || stderrIncludes (lit "Timeout") stderr
  then errorDetails (lit "TIMEOUT_ERROR") msgTimeout
  else if includes (lit "CHIP:BLE") message
  then errorDetails (lit "BLE_ERROR") msgBle
  else if includes (lit "CHIP:DMG") message
  then errorDetails (lit "DATA_MODEL_ERROR") msgDataModel
  else if includes (lit "not found") message
  then errorDetails (lit "COMMAND_NOT_FOUND") msgCommandNotFound
  else if stderrGiven stderr
  then errorDetails (lit "MATTER_SDK_ERROR")
         (msgSdkErrorWith ++ match stderr with Some s => s | None => [] end)
  else errorDetails (lit "UNKNOWN_ERROR") (msgUnknownWith ++ message).

End ErrorsServerFirst.

(** src/matterServer/server.js, lines 418-435 *)
Module ErrorsServerSecond.

Definition handleMatterError (message : str) (stderr : option str) : obj :=
  if includes (lit "CHIP:BLE") message
  then errorDetails (lit "BLE_ERROR") msgBle
  else if includes (lit "CHIP:DMG") message
  then errorDetails (lit "DATA_MODEL_ERROR") msgDataModel
  else errorDetails (lit "UNKNOWN_ERROR") msgUnknown.

End ErrorsServerSecond.

(** src/unnamed/part_002, lines 129-183, and src/matterServer/server.js,
    lines 705-759 *)
Module ErrorsPart002.

Definition timeoutText : str := lit "CHIP Error 0x00000032: Timeout".

(** /CHIP Error (0x[0-9a-fA-F]+)/ *)
Definition chipError : regex := literally (lit "CHIP Error 0x") ++ plus is_hex.

(** [(error.message || error.stderr || '')] *)
Definition errorText (message : str) (stderr : option str) : str :=
  if truthy (VStr message) then message
  else match stderr with
       | Some s => s
       | None => []
       end.

(** [chipErrorMatch[1]]: the match without its first eleven code units,
    "CHIP Error ". *)
Definition chipErrorMatch (message : str) (stderr : option str) : option str :=
  option_map (skipn 11) (firstMatch chipError (errorText message stderr)).

Definition handleMatterError (message : str) (stderr : option str) : obj :=
  if includes timeoutText message || stderrIncludes timeoutText stderr
  then [ ("code", VStr (lit "TIMEOUT_ERROR"));
         ("message", VStr msgTimeout);
         ("errorCode", VStr (lit "0x00000032")) ]%string
  else if includes (lit "CHIP:BLE") message
  then errorDetails (lit "BLE_ERROR") msgBle
  else if includes (lit "CHIP:DMG") message
  then errorDetails (lit "DATA_MODEL_ERROR") msgDataModel
  else if includes (lit "not found") message
  then errorDetails (lit "COMMAND_NOT_FOUND") msgCommandNotFound
  else
    match chipErrorMatch message stderr with
    | Some errorCode =>
        [ ("code", VStr (lit "MATTER_SDK_ERROR"));
          ("message", VStr msgSdkError);
          ("errorCode", VStr errorCode) ]%string
    | None =>
        if stderrGiven stderr
        then errorDetails (lit "MATTER_SDK_ERROR")
               (msgSdkErrorWith ++ match stderr with Some s => s | None => [] end)
        else errorDetails (lit "UNKNOWN_ERROR") (msgUnknownWith ++ message)
    end.

End ErrorsPart002.

(** The [stderr] of an error object as [handleMatterError] reads it. *)
Definition stderrText (e : error) : option str :=
  match stderr e with
  | VStr s => Some s
  | _ => None
  end.

(** An error object whose [stderr] is a string or is not there: what the
    command runner rejects with. *)
Definition plainError (e : error) : Prop :=
  stderr e = VUndefined \/ exists s, stderr e = VStr s.

(** [handleMatterError(error)] for one of the four functions above. *)
Definition detailsOf (handle : str -> option str -> obj) (e : error) : obj :=
  handle (message e) (stderrText e).

(** The codes that the four functions give. *)
Definition errorCodes : list str :=
  [ lit "TIMEOUT_ERROR"; lit "BLE_ERROR"; lit "DATA_MODEL_ERROR";
    lit "COMMAND_NOT_FOUND"; lit "MATTER_SDK_ERROR"; lit "UNKNOWN_ERROR" ].

(** *** Further handlers *)

(** "커미셔닝 가능한 디바이스 검색 완료" *)
Definition msgScanDone : str :=
  [ 52964; 48120; 49492; 45789; 32; 44032; 45733; 54620; 32; 46356;
    48148; 51060; 49828; 32; 44160; 49353; 32; 50756; 47308 ]%N.

(** "디바이스 검색이 중지되었습니다." *)
Definition msgStopped : str :=
  [ 46356; 48148; 51060; 49828; 32; 44160; 49353; 51060; 32; 51473;
    51648; 46104; 50632; 49845; 45768; 45796; 46 ]%N.


(** The commands of the further handlers, beside those of [command]. *)
Inductive toolCommand : Type :=
| Tool (c : command)
| DiscoverList
    (* `discover list` *)
| DiscoverStop
    (* `discover stop` *)
| Discover
    (* `discover`; in the second server of server.js behind
       [MATTER_CONFIG.chipPath] *)
| PairingCodeWifi (nodeId ssid password setupPinCode paaCertPath : value).
    (* `pairing code-wifi ${nodeId} "${ssid}" "${password}" ${setupPinCode}
        --paa-trust-store-path ${paaCertPath}` *)

(** What one request does, for the further handlers. *)
Record toolEffect : Type := mkToolEffect {
  answer : reply;
  registryAfter : registry;
  ran : list toolCommand
}.

(** The effect of a handler of section Handlers, its commands among the
    tool commands. *)
Definition ofEffect (r : effect) : toolEffect :=
  mkToolEffect (response r) (state r) (map Tool (calls r)).

Section FurtherHandlers.

Variable executeMatterCommand : toolCommand -> outcome str.

(** Two readings of [new Date().toISOString()], the second not before the
    first: /api/device/setup stamps the entry and then the reply. *)
Variables now later : str.

Variable handleMatterError : error -> obj.

(** [Number::toString], for the numbers that a template literal holds. *)
Variable numberText : Z -> str.

(** [process.env.MATTER_PAA_STORE_PATH] *)
Variable env_MATTER_PAA_STORE_PATH : value.

(** [MATTER_CONFIG.paaStorePath] *)
Definition paaStorePath : value :=
  or_else env_MATTER_PAA_STORE_PATH
    (VStr (lit "/home/ubuntu/connectedhomeip/credentials/development/paa-root-certs")).

(** [{ssid: ssid, timestamp: new Date().toISOString()}] *)
Definition networkAt (ssid : value) (timestamp : str) : value :=
  VObj [ ("ssid", ssid); ("timestamp", VStr timestamp) ]%string.

(** [updatedDeviceInfo] of /api/device/setup *)
Definition updatedDeviceInfo (deviceInfo : obj)
    (ssid setupPinCode setupDiscriminator : value) : obj :=
  Obj.set "setupDiscriminator" setupDiscriminator
    (Obj.set "setupPinCode" setupPinCode
       (Obj.set "network" (networkAt ssid now)
          (Obj.set "status" (VStr (lit "commissioned")) deviceInfo))).

(** POST /api/device/setup (server.js, lines 895-982).  Every template
    literal is inside the [try]: that of the 404 message, those of the
    two log lines and that of the command. *)
Definition device_setup (req : obj) (deviceState : registry) : toolEffect :=
  let nodeId := Obj.get "nodeId" req in
  let setupPinCode := Obj.get "setupPinCode" req in
  let setupDiscriminator := Obj.get "setupDiscriminator" req in
  let ssid := Obj.get "ssid" req in
  let password := Obj.get "password" req in
  if negb (truthy setupPinCode) || negb (truthy ssid) || negb (truthy password)
  then mkToolEffect (mkReply 400 (errorBody msgMissingParameters)) deviceState []
  else
    match Map.get nodeId deviceState with
    | None =>
        match toText numberText nodeId with
        | Throw e => mkToolEffect (internalError handleMatterError e) deviceState []
        | Done text =>
            mkToolEffect
              (mkReply 404 (errorBody (msgDeviceNotFoundFor ++ text ++ lit ")")))
              deviceState []
        end
    | Some deviceInfo =>
        let paaCertPath := or_else (Obj.get "paaStorePath" req) paaStorePath in
        match interpolate numberText
                [ Obj.get "name" deviceInfo; ssid;
                  nodeId; ssid; password; setupPinCode; paaCertPath;
                  nodeId; paaCertPath ] with
        | Throw e => mkToolEffect (internalError handleMatterError e) deviceState []
        | Done _ =>
            let command :=
              PairingCodeWifi nodeId ssid password setupPinCode paaCertPath in
            match executeMatterCommand command with
            | Done result =>
                let updated :=
                  updatedDeviceInfo deviceInfo ssid setupPinCode
                    setupDiscriminator in
                mkToolEffect
                  (mkReply 200
                     [ ("status", VStr (lit "success"));
                       ("message", VStr msgSetupDone);
                       ("deviceInfo",
                         VObj (Obj.set "network" (networkAt ssid later)
                                 updated)) ]%string)
                  (Map.set nodeId updated deviceState)
                  [command]
            | Throw e =>
                mkToolEffect (internalError handleMatterError e) deviceState
                  [command]
            end
        end
    end.

(** [{...device, status: state?.status || 'discovered',
      lastSeen: state?.timestamp || new Date().toISOString()}] *)
Definition withState (deviceState : registry) (device : obj) : obj :=
  let state := Map.get (Obj.get "nodeId" device) deviceState in
  let property k :=
    match state with
    | Some e => Obj.get k e
    | None => VUndefined
    end in
  Obj.set "lastSeen" (or_else (property "timestamp"%string) (VStr now))
    (Obj.set "status"
       (or_else (property "status"%string) (VStr (lit "discovered")))
       device).

(** GET /api/discovery/list, over the [parseDiscoveryResult] of its file
    (part_002, lines 512-542; server.js, lines 1071-1101) *)
Definition discovery_list (parseDiscoveryResult : str -> list obj)
    (deviceState : registry) : toolEffect :=
  match executeMatterCommand DiscoverList with
  | Done result =>
      let devices := parseDiscoveryResult result in
      let devicesWithState := map (withState deviceState) devices in
      mkToolEffect
        (mkReply 200
           [ ("status", VStr (lit "success"));
             ("message",
               VStr (if Nat.ltb 0 (List.length devices) then msgListDone
                     else msgNoneListed));
             ("devices", VArr (map VObj devicesWithState)) ]%string)
        deviceState
        [DiscoverList]
  | Throw e =>
      mkToolEffect (internalError handleMatterError e) deviceState [DiscoverList]
  end.

(** The handlers of section Handlers on the same command runner. *)
Definition baseRunner : command -> outcome str :=
  fun c => executeMatterCommand (Tool c).

(** POST /api/discovery/scan where it parses and stores (part_002, lines
    458-487; server.js, lines 1017-1046) *)
Definition discovery_scan (parseDiscoveryResult : str -> list obj)
    (deviceState : registry) : toolEffect :=
  let command := Tool DiscoverCommissionables in
  match executeMatterCommand command with
  | Done result =>
      let devices := parseDiscoveryResult result in
      mkToolEffect
        (mkReply 200
           [ ("status", VStr (lit "success"));
             ("message", VStr msgScanDone);
             ("devices", VArr (map VObj devices)) ]%string)
        (upsertDiscovered now devices deviceState)
        [command]
  | Throw e =>
      mkToolEffect (internalError handleMatterError e) deviceState [command]
  end.

(** POST /api/discovery/stop (part_002, lines 490-509; server.js, lines
    196-215 and 1049-1068) *)
Definition discovery_stop (deviceState : registry) : toolEffect :=
  match executeMatterCommand DiscoverStop with
  | Done result =>
      mkToolEffect
        (mkReply 200
           [ ("status", VStr (lit "success"));
             ("message", VStr msgStopped);
             ("result", VStr result) ]%string)
        deviceState
        [DiscoverStop]
  | Throw e =>
      mkToolEffect (internalError handleMatterError e) deviceState [DiscoverStop]
  end.

(** POST /api/discovery/scan where the output of chip-tool is passed on
    as it is (server.js, lines 174-193 and 438-458; part_001, lines
    97-117) *)
Definition discovery_scan_raw (command : toolCommand) (text : str)
    (deviceState : registry) : toolEffect :=
  match executeMatterCommand command with
  | Done result =>
      mkToolEffect
        (mkReply 200
           [ ("status", VStr (lit "success"));
             ("message", VStr text);
             ("devices", VStr result) ]%string)
        deviceState
        [command]
  | Throw e =>
      mkToolEffect (internalError handleMatterError e) deviceState [command]
  end.

(** GET /api/discovery/list of the first server (server.js, lines
    218-247) *)
Definition discovery_list_raw (deviceState : registry) : toolEffect :=
  match executeMatterCommand DiscoverList with
  | Done result =>
      mkToolEffect
        (mkReply 200
           (if negb (truthy (VStr result)) || JsString.eqb (trim result) []
            then [ ("status", VStr (lit "success"));
                   ("message", VStr msgNoneListed);
                   ("devices", VArr []) ]%string
            else [ ("status", VStr (lit "success"));
                   ("message", VStr msgListDone);
                   ("devices", VStr result) ]%string))
        deviceState
        [DiscoverList]
  | Throw e =>
      mkToolEffect (internalError handleMatterError e) deviceState [DiscoverList]
  end.

End FurtherHandlers.

(** *** The servers

    Each file is one server with one registry.  A request names the
    handler and carries the JSON body; /api/logs, which reads log files
    only, is left out. *)

(** src/unnamed/part_002 *)
Inductive requestPart002 : Type :=
| P2Search
| P2Pair (req : obj)
| P2Commission (req : obj)
| P2Scan
| P2Stop
| P2List.

(** src/matterServer/server.js, its last server (lines 560-1143) *)
Inductive requestServer : Type :=
| SvSetup (req : obj)
| SvSearch
| SvScan
| SvStop
| SvList.

(** src/matterServer/server.js, its first server (lines 1-378) and its
    second (lines 380-558), and src/unnamed/part_001.  The three share the
    pairing and the commissioning handler; the scan of the first server
    runs `discover commissionables`, that of the other two `discover`;
    stop and list are routes of the first server only. *)
Inductive requestFirst : Type :=
| F1PairingCode (req : obj)
| F1CommissioningWifi (req : obj)
| F1Scan
| F1Discover
| F1Stop
| F1List.

(** What the world gives one request: the command runner, the two clock
    readings, the error details, the text of numbers and the
    environment. *)
Record world : Type := mkWorld {
  runner : toolCommand -> outcome str;
  clock : str;
  clockLater : str;
  details : error -> obj;
  textOfNumber : Z -> str;
  WIFI_SSID : value;
  WIFI_PASSWORD : value;
  MATTER_PAA_STORE_PATH : value
}.

Definition servePart002 (w : world) (rq : requestPart002) (deviceState : registry)
  : toolEffect :=
  match rq with
  | P2Search =>
      ofEffect (device_search (baseRunner (runner w)) (clock w) (details w)
                  Part002.parseDiscoveryResult deviceState)
  | P2Pair req =>
      ofEffect (device_pair (baseRunner (runner w)) (clock w) (details w)
                  (textOfNumber w) req deviceState)
  | P2Commission req =>
      ofEffect (device_commission (baseRunner (runner w)) (clock w) (details w)
                  (textOfNumber w) (WIFI_SSID w) (WIFI_PASSWORD w)
                  req deviceState)
  | P2Scan =>
      discovery_scan (runner w) (clock w) (details w)
        Part002.parseDiscoveryResult deviceState
  | P2Stop => discovery_stop (runner w) (details w) deviceState
  | P2List =>
      discovery_list (runner w) (clock w) (details w)
        Part002.parseDiscoveryResult deviceState
  end.

Definition serveServer (w : world) (rq : requestServer) (deviceState : registry)
  : toolEffect :=
  match rq with
  | SvSetup req =>
      device_setup (runner w) (clock w) (clockLater w) (details w)
        (textOfNumber w) (MATTER_PAA_STORE_PATH w) req deviceState
  | SvSearch =>
      ofEffect (device_search (baseRunner (runner w)) (clock w) (details w)
                  Server.parseDiscoveryResult deviceState)
  | SvScan =>
      discovery_scan (runner w) (clock w) (details w)
        Server.parseDiscoveryResult deviceState
  | SvStop => discovery_stop (runner w) (details w) deviceState
  | SvList =>
      discovery_list (runner w) (clock w) (details w)
        Server.parseDiscoveryResult deviceState
  end.

Definition serveFirst (w : world) (rq : requestFirst) (deviceState : registry)
  : toolEffect :=
  match rq with
  | F1PairingCode req =>
      ofEffect (pairing_code (baseRunner (runner w)) (clock w) (details w)
                  (textOfNumber w) req deviceState)
  | F1CommissioningWifi req =>
      ofEffect (commissioning_wifi (baseRunner (runner w)) (clock w) (details w)
                  (textOfNumber w) req deviceState)
  | F1Scan =>
      discovery_scan_raw (runner w) (details w) (Tool DiscoverCommissionables)
        msgScanDone deviceState
  | F1Discover =>
      discovery_scan_raw (runner w) (details w) Discover msgSearchDone
        deviceState
  | F1Stop => discovery_stop (runner w) (details w) deviceState
  | F1List => discovery_list_raw (runner w) (details w) deviceState
  end.

(** The registries a server can come to hold: empty when the process
    starts, then whatever a request leaves, in any world. *)
Inductive reachable {Rq : Type} (serve : world -> Rq -> registry -> toolEffect)
  : registry -> Prop :=
| reach_start : reachable serve []
| reach_step (w : world) (rq : Rq) (deviceState : registry) :
    reachable serve deviceState ->
    reachable serve (registryAfter (serve w rq deviceState)).

(* ===================================================================== *)
(** ** Properties of the parsers, the registries and the replies *)
(* ===================================================================== *)

(** The subject stops the class [p]: it is empty or starts outside [p]. *)
Definition stops (p : N -> bool) (s : str) : Prop :=
  match s with
  | [] => True
  | c :: _ => p c = false
  end.

(** [matchHere r s] succeeds and leaves [out] of [s] behind the match. *)
Definition matchesThen (r : regex) (s out : str) : Prop :=
  exists n, matchHere r s = Some n /\ skipn n s = out.

(** A non-empty run of digits, of word characters; a run of blanks. *)
Definition digitRun (d : str) : Prop :=
  d <> [] /\ Forall (fun c => is_digit c = true) d.

Definition wordRun (t : str) : Prop :=
  t <> [] /\ Forall (fun c => is_word c = true) t.

Definition blankRun (b : str) : Prop := Forall (fun c => is_space c = true) b.

(** The text "[seconds.millis] [pid:tid] [tag]" with the given blanks
    between its brackets. *)
Definition logPrefixText (seconds millis blanks1 pid tid blanks2 tag : str) : str :=
  lit "[" ++ seconds ++ lit "." ++ millis ++ lit "]" ++ blanks1 ++
  lit "[" ++ pid ++ lit ":" ++ tid ++ lit "]" ++ blanks2 ++
  lit "[" ++ tag ++ lit "]".

(** The kinds of value a property of a record holds: a string, a boolean,
    one fixed string, or the array of addresses, whose items are non-empty
    strings and, when [strict], never 'not present'. *)
Inductive kind : Type :=
| KString
| KBoolean
| KText (text : str)
| KAddresses (strict : bool).

Definition hasKind (k : kind) (v : value) : Prop :=
  match k with
  | KString => exists s, v = VStr s
  | KBoolean => exists b, v = VBool b
  | KText text => v = VStr text
  | KAddresses strict =>
      exists items,
        v = VArr items /\
        Forall (fun item =>
                  exists a, item = VStr a /\ a <> [] /\
                            (strict = true -> a <> lit "not present"))
               items
  end.

(** [d] has the properties of [schema], in its order, each of its kind. *)
Definition conforms (schema : list (string * kind)) (d : obj) : Prop :=
  Forall2 (fun property entry =>
             fst property = fst entry /\ hasKind (snd entry) (snd property))
          d schema.

Fixpoint kindOf (k : string) (schema : list (string * kind)) : option kind :=
  match schema with
  | [] => None
  | (k', kd) :: schema' => if String.eqb k' k then Some kd else kindOf k schema'
  end.

(** The open record of part_002, and the record it returns. *)
Definition part002Open : list (string * kind) :=
  [ ("name", KString); ("addresses", KAddresses false); ("port", KString);
    ("vendorId", KString); ("productId", KString); ("deviceType", KString);
    ("discriminator", KString); ("pairingHint", KString);
    ("instanceName", KString); ("commissioningMode", KString);
    ("supportsCommissionerGeneratedPasscode", KBoolean) ]%string.

Definition part002Schema : list (string * kind) :=
  part002Open ++ [ ("nodeId", KString); ("type", KText (lit "wifi")) ]%string.

(** The record of server.js, open and returned. *)
Definition serverSchema : list (string * kind) :=
  [ ("nodeId", KString); ("name", KString); ("setupPinCode", KText []);
    ("setupDiscriminator", KString); ("vendorId", KString);
    ("productId", KString); ("deviceType", KString);
    ("instanceName", KString); ("addresses", KAddresses true);
    ("port", KString); ("pairingHint", KString);
    ("commissioningMode", KString); ("type", KText (lit "wifi")) ]%string.

(** The subject is empty or starts with a code unit that no escape
    sequence continues with. *)
Definition inert (s : str) : Prop :=
  match s with
  | [] => True
  | c :: _ =>
      c <> 91%N /\ (is_digit c || N.eqb c 59) = false /\ c <> 109%N
  end.

(** *** What the registries hold *)

Definition hasStatus (text : string) (e : obj) : Prop :=
  Obj.get "status" e = VStr (lit text).

(** [network: {ssid, timestamp}] with an ssid that was given. *)
Definition hasNetwork (e : obj) : Prop :=
  exists ssid timestamp,
    Obj.get "network" e
    = VObj [ ("ssid", ssid); ("timestamp", VStr timestamp) ]%string /\
    truthy ssid = true.

(** A key that the discovery has given: the decimal string of a positive
    number. *)
Definition nodeIdKey (k : value) : Prop := exists n, k = VStr (toString (n + 1)).

(** An entry of the registry of part_002 under the key [k]. *)
Definition entryPart002 (k : value) (e : obj) : Prop :=
  Obj.get "nodeId" e = k /\ nodeIdKey k /\
  incl (map fst part002Schema) (Obj.keys e) /\
  (hasStatus "discovered" e \/
   (hasStatus "paired" e /\ truthy (Obj.get "manualPairingCode" e) = true) \/
   (hasStatus "commissioned" e /\
    truthy (Obj.get "manualPairingCode" e) = true /\ hasNetwork e)).

(** An entry of the registry of the last server of server.js. *)
Definition entryServer (k : value) (e : obj) : Prop :=
  Obj.get "nodeId" e = k /\ nodeIdKey k /\
  incl (map fst serverSchema) (Obj.keys e) /\
  (hasStatus "discovered" e \/
   (hasStatus "commissioned" e /\
    truthy (Obj.get "setupPinCode" e) = true /\ hasNetwork e)).

(** An entry of the registry of the first server of server.js and of
    part_001. *)
Definition entryFirst (e : obj) : Prop :=
  (hasStatus "paired" e /\
   Obj.keys e = ["status"; "setupCode"; "discriminator"; "timestamp"]%string /\
   truthy (Obj.get "setupCode" e) = true) \/
  (hasStatus "commissioned" e /\ hasNetwork e).

(** Every entry of the registry satisfies [P]. *)
Definition everyEntry (P : value -> obj -> Prop) (deviceState : registry) : Prop :=
  Forall (fun ke => P (fst ke) (snd ke)) deviceState.


(** A world for the sample runs: every command succeeds and finds the
    tagged scenario. *)
Definition sampleWorld : world :=
  mkWorld (fun _ => Done scenarioTagged) sampleNow (lit "2025-04-10T06:24:10.412Z")
          sampleErrorDetails decimalText VUndefined VUndefined VUndefined.

(** The registry of part_002 after a search and a pairing of "1". *)
Definition sampleFound : registry :=
  registryAfter (servePart002 sampleWorld P2Search []).

Definition samplePaired : registry :=
  registryAfter (servePart002 sampleWorld (P2Pair sampleDevicePair) sampleFound).

Definition sampleNumeric : obj :=
  [ ("deviceId", VNum 1); ("manualPairingCode", VStr (lit "34970112332"));
    ("ssid", VStr (lit "home")); ("password", VStr (lit "secret")) ]%string.

(** The registry of the last server of server.js after a search and a
    setup of "1". *)
Definition sampleSetup : obj :=
  [ ("nodeId", VStr (lit "1")); ("setupPinCode", VStr (lit "20202021"));
    ("ssid", VStr (lit "home")); ("password", VStr (lit "secret")) ]%string.

Definition sampleSetUp : registry :=
  registryAfter
    (serveServer sampleWorld (SvSetup sampleSetup)
       (registryAfter (serveServer sampleWorld SvSearch []))).

(** The registry of the first server after a direct commissioning of "7". *)
Definition sampleDirect : registry :=
  registryAfter (serveFirst sampleWorld (F1CommissioningWifi sampleCommission) []).

Definition sampleDevicePairCommission : obj :=
  [ ("deviceId", VStr (lit "1")); ("ssid", VStr (lit "home"));
    ("password", VStr (lit "secret")) ]%string.

Definition sampleOtherPassword : obj :=
  [ ("nodeId", VStr (lit "7")); ("ssid", VStr (lit "home"));
    ("password", VStr (lit "hunter2")); ("discriminator", VStr (lit "3840")) ]%string.

(** The world of a later request. *)
Definition sampleLater : world :=
  mkWorld (fun _ => Done scenarioTagged) (lit "2025-04-10T06:25:00.000Z")
          (lit "2025-04-10T06:25:00.001Z") sampleErrorDetails decimalText
          VUndefined VUndefined VUndefined.

(** The error of a command that timed out. *)
Definition sampleTimeout : error :=
  mkError (lit "Command failed: chip-tool pairing")
          (VStr (lit "CHIP Error 0x00000032: Timeout")).

(** A body whose setup code is the object [{"toString": null}]. *)
Definition sampleUnconvertible : obj :=
  [ ("setupCode", VObj [("toString", VNull)]%string) ]%string.

(* ===================================================================== *)
(** ** Facts about strings, objects and the registry *)
(* ===================================================================== *)

Unset Implicit Arguments.

Module JsStringFacts.

Lemma eqb_spec (a b : str) : reflect (a = b) (JsString.eqb a b).
Proof.
  revert b; induction a as [|x a IH]; intros [|y b]; cbn;
    try (constructor; congruence).
  destruct (N.eqb_spec x y) as [->|Hn]; cbn.
  - destruct (IH b) as [->|Hn]; constructor; congruence.
  - constructor; congruence.
Qed.

Lemma eqb_refl (a : str) : JsString.eqb a a = true.
Proof. destruct (eqb_spec a a); congruence. Qed.

Example split_colon :
  split (lit ":") (lit "a:b::c:") = [lit "a"; lit "b"; lit ""; lit "c"; lit ""].
Proof. reflexivity. Qed.

Example split_word :
  split (lit "ab") (lit "xabyabab") = [lit "x"; lit "y"; lit ""; lit ""].
Proof. reflexivity. Qed.

Example trim_both : trim ([32; 9] ++ lit "a b" ++ [10; 32])%N = lit "a b".
Proof. reflexivity. Qed.

Example toString_12 : toString 12 = lit "12".
Proof. reflexivity. Qed.

End JsStringFacts.

Module ObjFacts.

Lemma lookup_set_same (k : string) (v : value) (o : obj) :
  Obj.lookup k (Obj.set k v o) = Some v.
Proof.
  induction o as [|[k' v'] o IH]; cbn.
  - now rewrite String.eqb_refl.
  - destruct (String.eqb k' k) eqn:E; cbn; now rewrite E.
Qed.

Lemma lookup_set_other (k k' : string) (v : value) (o : obj) :
  k <> k' -> Obj.lookup k' (Obj.set k v o) = Obj.lookup k' o.
Proof.
  intros Hne; induction o as [|[k0 v0] o IH]; cbn.
  - destruct (String.eqb_spec k k'); congruence.
  - destruct (String.eqb_spec k0 k) as [->|Hk]; cbn.
    + destruct (String.eqb_spec k k'); congruence.
    + now rewrite IH.
Qed.

Lemma get_set_same (k : string) (v : value) (o : obj) :
  Obj.get k (Obj.set k v o) = v.
Proof. unfold Obj.get; now rewrite lookup_set_same. Qed.

Lemma get_set_other (k k' : string) (v : value) (o : obj) :
  k <> k' -> Obj.get k' (Obj.set k v o) = Obj.get k' o.
Proof. intros; unfold Obj.get; now rewrite lookup_set_other. Qed.

End ObjFacts.

Module MapFacts.

Lemma sameValueZero_refl (k : value) :
  primitive k = true -> sameValueZero k k = true.
Proof.
  destruct k; cbn; try congruence; intros _.
  - now destruct b.
  - apply Z.eqb_refl.
  - apply JsStringFacts.eqb_refl.
Qed.

Lemma sameValueZero_eq (a b : value) : sameValueZero a b = true -> a = b.
Proof.
  destruct a, b; cbn; try congruence; intros H.
  - f_equal; now apply Bool.eqb_prop.
  - f_equal; now apply Z.eqb_eq.
  - f_equal. now destruct (JsStringFacts.eqb_spec s s0).
Qed.

Lemma map_get_set_same (k : value) (e : obj) (m : registry) :
  primitive k = true -> Map.get k (Map.set k e m) = Some e.
Proof.
  intros Hk; induction m as [|[k' e'] m IH]; cbn.
  - now rewrite sameValueZero_refl.
  - destruct (sameValueZero k' k) eqn:E; cbn; now rewrite E.
Qed.

Lemma map_get_set_other (k k' : value) (e : obj) (m : registry) :
  k <> k' -> Map.get k' (Map.set k e m) = Map.get k' m.
Proof.
  intros Hne; induction m as [|[k0 e0] m IH]; cbn.
  - destruct (sameValueZero k k') eqn:E; [|reflexivity].
    apply sameValueZero_eq in E; congruence.
  - destruct (sameValueZero k0 k) eqn:E; cbn.
    + apply sameValueZero_eq in E; subst k0.
      destruct (sameValueZero k k') eqn:E'; [|reflexivity].
      apply sameValueZero_eq in E'; congruence.
    + now rewrite IH.
Qed.

End MapFacts.

Module SplitFacts.

Lemma split_from_nonempty (sep : str) (skip : nat) (s : str) :
  split_from sep skip s <> [].
Proof.
  revert skip; induction s as [|c s IH]; intros skip; cbn; [discriminate|].
  destruct skip as [|k]; [|apply IH].
  destruct (startsWith sep (c :: s)); [discriminate|].
  destruct (split_from sep 0 s); discriminate.
Qed.

(** A string that includes the separator splits into two pieces at least:
    element [1] of the split exists. *)
Lemma split_includes (sep s : str) :
  sep <> [] -> includes sep s = true ->
  exists piece0 piece1 pieces, split sep s = piece0 :: piece1 :: pieces.
Proof.
  intros Hsep; unfold split; induction s as [|c s IH]; intros Hin.
  - destruct sep; [congruence|discriminate].
  - cbn [split_from]. cbn [includes] in Hin.
    destruct (startsWith sep (c :: s)) eqn:Hp.
    + destruct (split_from sep (List.length sep - 1) s) as [|p ps] eqn:E.
      * now apply split_from_nonempty in E.
      * eauto.
    + cbn in Hin. destruct (IH Hin) as (p0 & p1 & ps & ->). eauto.
Qed.

(** Every code unit of a piece is a code unit of the subject. *)
Lemma split_from_units (sep : str) (skip : nat) (s piece : str) (c : N) :
  In piece (split_from sep skip s) -> In c piece -> In c s.
Proof.
  revert skip piece; induction s as [|x s IH]; intros skip piece; cbn.
  - intros [<-|[]] [].
  - destruct skip as [|k].
    + destruct (startsWith sep (x :: s)).
      * intros [<-|Hin] Hc; [destruct Hc|]. right; eapply IH; eauto.
      * destruct (split_from sep 0 s) as [|p ps] eqn:E.
        { intros [<-|[]] [<-|[]]; now left. }
        intros [<-|Hin] Hc.
        -- destruct Hc as [<-|Hc]; [now left|].
           right; apply (IH 0 p); [rewrite E; now left|assumption].
        -- right; apply (IH 0 piece); [rewrite E; now right|assumption].
    + intros Hin Hc; right; eapply IH; eauto.
Qed.

End SplitFacts.

Module TrimFacts.

Lemma trimStart_blank (s : str) :
  trimStart s = [] -> Forall (fun c => is_space c = true) s.
Proof.
  induction s as [|c s IH]; cbn; [constructor|].
  destruct (is_space c) eqn:E; [|discriminate].
  intros H; constructor; auto.
Qed.

Lemma blank_trimStart (s : str) :
  Forall (fun c => is_space c = true) s -> trimStart s = [].
Proof. induction 1 as [|c s Hc _ IH]; cbn; [reflexivity|now rewrite Hc]. Qed.

Lemma trimStart_suffix (s : str) :
  exists spaces, s = spaces ++ trimStart s /\
                 Forall (fun c => is_space c = true) spaces.
Proof.
  induction s as [|c s (sp & Hs & Hsp)]; cbn.
  - exists []; split; [reflexivity|constructor].
  - destruct (is_space c) eqn:E.
    + exists (c :: sp); split; [cbn; congruence|now constructor].
    + exists []; split; [reflexivity|constructor].
Qed.

(** [s.trim() === ''] holds for strings of white space only. *)
Lemma trim_blank (s : str) :
  trim s = [] -> Forall (fun c => is_space c = true) s.
Proof.
  unfold trim, trimEnd; intros H.
  assert (H1 : trimStart (rev (trimStart s)) = []).
  { rewrite <- (rev_involutive (trimStart (rev (trimStart s)))), H.
    reflexivity. }
  apply trimStart_blank in H1.
  destruct (trimStart_suffix s) as (sp & Hs & Hsp).
  rewrite Hs; apply Forall_app; split; [assumption|].
  apply Forall_forall; intros c Hc.
  rewrite Forall_forall in H1; apply H1, in_rev.
  now rewrite rev_involutive.
Qed.

Lemma blank_trim (s : str) :
  Forall (fun c => is_space c = true) s -> trim s = [].
Proof.
  intros H; unfold trim, trimEnd. now rewrite (blank_trimStart _ H).
Qed.

Lemma blank_no_bracket (p s : str) (c : N) :
  is_space c = false ->
  Forall (fun c => is_space c = true) s -> includes (c :: p) s = false.
Proof.
  intros Hc; induction 1 as [|x s Hx _ IH]; cbn; [reflexivity|].
  rewrite IH, orb_false_r.
  destruct (N.eqb_spec c x) as [->|]; [congruence|reflexivity].
Qed.

End TrimFacts.

Module ToStringFacts.

Lemma lit_inj (a b : string) : lit a = lit b -> a = b.
Proof.
  revert b; induction a as [|x a IH]; intros [|y b]; cbn; try congruence.
  intros [= Hxy Hab]. f_equal; [|now apply IH].
  rewrite <- (ascii_N_embedding x), <- (ascii_N_embedding y); congruence.
Qed.

(** Distinct indices give distinct node ids. *)
Lemma toString_inj (n m : nat) : toString n = toString m -> n = m.
Proof.
  unfold toString; intros H; apply lit_inj in H.
  assert (Hu : Some (Nat.to_uint n) = Some (Nat.to_uint m)).
  { rewrite <- !NilEmpty.usu; now rewrite H. }
  injection Hu as Hu.
  rewrite <- (DecimalNat.Unsigned.of_to n), <- (DecimalNat.Unsigned.of_to m).
  now rewrite Hu.
Qed.

End ToStringFacts.

(* ===================================================================== *)
(** ** The scanning loop of the parsers *)
(* ===================================================================== *)

(** Both parsers run the same loop: a node-start line pushes the open
    record and opens a new one, any other line only touches the open
    record.  The section proves what follows from this shape alone. *)
Section ScanLoop.

Variable body : scanState -> str -> outcome scanState.
Variable fresh : obj.
Variable isStart : str -> bool.
Variable field : obj -> str -> outcome obj.
Variable good : obj -> Prop.

Hypothesis good_fresh : good fresh.

Hypothesis body_start : forall st line,
  isStart line = true -> body st line = Done (openDevice fresh st).

Hypothesis body_closed : forall st line,
  isStart line = false -> currentDevice st = None -> body st line = Done st.

Hypothesis body_field : forall st line d,
  isStart line = false -> currentDevice st = Some d ->
  body st line = (d' <- field d line ;; Done (mkScan (devices st) (Some d'))).

Hypothesis field_good : forall d line,
  isStart line = false -> good d -> exists d', field d line = Done d' /\ good d'.

Lemma scanOk_start : scanOk good scanStart.
Proof. split; [constructor|discriminate]. Qed.

Lemma scanOk_pushCurrent (st : scanState) : scanOk good st -> Forall good (pushCurrent st).
Proof.
  intros [Hd Hc]; unfold pushCurrent; destruct (currentDevice st); [|assumption].
  apply Forall_app; split; [assumption|]. constructor; auto.
Qed.

Lemma body_step (st : scanState) (line : str) :
  scanOk good st ->
  exists st', body st line = Done st' /\ scanOk good st' /\
    List.length (pushCurrent st')
    = List.length (pushCurrent st) + (if isStart line then 1 else 0).
Proof.
  intros Hok; destruct (isStart line) eqn:Hs.
  - rewrite (body_start _ _ Hs); eexists; split; [reflexivity|]; split.
    + split; cbn; [now apply scanOk_pushCurrent|].
      now intros d [= <-].
    + unfold pushCurrent at 1; cbn. rewrite length_app; cbn; lia.
  - destruct (currentDevice st) as [d|] eqn:Hc.
    + rewrite (body_field _ _ _ Hs Hc).
      destruct (@field_good d line Hs) as (d' & -> & Hd'); [now apply Hok|].
      cbn; eexists; split; [reflexivity|]; split.
      * split; cbn; [apply Hok|now intros ? [= <-]].
      * unfold pushCurrent; cbn; rewrite Hc, !length_app; cbn; lia.
    + rewrite (body_closed _ _ Hs Hc); exists st; repeat split; try apply Hok; lia.
Qed.

(** The loop never throws, keeps every record good, and pushes one record
    for each node-start line. *)
Lemma scan_total (lines : list str) (st : scanState) :
  scanOk good st ->
  exists st', for_of body lines st = Done st' /\ scanOk good st' /\
    List.length (pushCurrent st')
    = List.length (pushCurrent st) + List.length (filter isStart lines).
Proof.
  revert st; induction lines as [|line lines IH]; intros st Hok; cbn.
  - exists st; repeat split; try apply Hok; lia.
  - destruct (body_step _ line Hok) as (st1 & -> & Hok1 & Hlen1); cbn.
    destruct (IH st1 Hok1) as (st' & -> & Hok' & Hlen').
    exists st'; repeat split; try apply Hok'.
    rewrite Hlen', Hlen1; destruct (isStart line); cbn; lia.
Qed.

Lemma pushCurrent_prepend (before : list obj) (st : scanState) :
  pushCurrent (prepend before st) = before ++ pushCurrent st.
Proof.
  unfold pushCurrent, prepend; cbn.
  destruct (currentDevice st); [now rewrite app_assoc|reflexivity].
Qed.

Lemma body_prepend (before : list obj) (st : scanState) (line : str) :
  body (prepend before st) line
  = (st' <- body st line ;; Done (prepend before st')).
Proof.
  destruct (isStart line) eqn:Hs.
  - rewrite !(body_start _ _ Hs); cbn. unfold openDevice.
    now rewrite pushCurrent_prepend.
  - destruct (currentDevice st) as [d|] eqn:Hc.
    + rewrite (@body_field (prepend before st) line d Hs Hc).
      rewrite (body_field _ _ _ Hs Hc).
      destruct (field d line); reflexivity.
    + rewrite (@body_closed (prepend before st) line Hs Hc).
      now rewrite (body_closed _ _ Hs Hc).
Qed.

Lemma for_of_prepend (before : list obj) (lines : list str) (st : scanState) :
  for_of body lines (prepend before st)
  = (st' <- for_of body lines st ;; Done (prepend before st')).
Proof.
  revert st; induction lines as [|line lines IH]; intros st; cbn; [reflexivity|].
  rewrite body_prepend. destruct (body st line) as [st1|e]; cbn; [|reflexivity].
  apply IH.
Qed.

Lemma for_of_app (lines1 lines2 : list str) (st : scanState) :
  for_of body (lines1 ++ lines2) st
  = (st1 <- for_of body lines1 st ;; for_of body lines2 st1).
Proof.
  revert st; induction lines1 as [|line lines1 IH]; intros st; cbn; [reflexivity|].
  destruct (body st line); cbn; [apply IH|reflexivity].
Qed.

Lemma recordsOf_total (lines : list str) :
  exists st, for_of body lines scanStart = Done st /\
             recordsOf body lines = pushCurrent st /\
             Forall good (recordsOf body lines) /\
             List.length (recordsOf body lines)
             = List.length (filter isStart lines).
Proof.
  destruct (scan_total lines _ scanOk_start) as (st & Hrun & Hok & Hlen).
  exists st; unfold recordsOf; rewrite Hrun; repeat split.
  - now apply scanOk_pushCurrent.
  - now rewrite Hlen.
Qed.

(** Encounter order: the records of the lines before a node-start line
    come first, followed by the records of the lines from it on, each
    group as it would be parsed alone. *)
Lemma recordsOf_app (lines1 lines2 : list str) (line : str) :
  isStart line = true ->
  recordsOf body (lines1 ++ line :: lines2)
  = recordsOf body lines1 ++ recordsOf body (line :: lines2).
Proof.
  intros Hs.
  destruct (recordsOf_total lines1) as (st1 & Hrun1 & Hrec1 & _).
  rewrite Hrec1. unfold recordsOf.
  rewrite for_of_app, Hrun1; cbn.
  rewrite !(body_start _ _ Hs); cbn.
  replace (openDevice fresh st1)
    with (prepend (pushCurrent st1) (openDevice fresh scanStart))
    by (unfold prepend, openDevice; cbn; now rewrite app_nil_r).
  rewrite for_of_prepend.
  destruct (for_of body lines2 (openDevice fresh scanStart)) as [st2|e] eqn:E; cbn.
  - apply pushCurrent_prepend.
  - exfalso.
    destruct (@scan_total lines2 (openDevice fresh scanStart)) as (st2 & E2 & _).
    + split; cbn; [constructor|now intros d [= <-]].
    + congruence.
Qed.

End ScanLoop.

Module MapIndexFacts.

Lemma length_map_index {X Y : Type} (f : X -> nat -> Y) (i : nat) (xs : list X) :
  List.length (map_index f i xs) = List.length xs.
Proof. revert i; induction xs; intros i; cbn; [reflexivity|now rewrite IHxs]. Qed.

Lemma nth_error_map_index {X Y : Type} (f : X -> nat -> Y) (i n : nat)
      (xs : list X) :
  nth_error (map_index f i xs) n
  = option_map (fun x => f x (i + n)) (nth_error xs n).
Proof.
  revert i n; induction xs as [|x xs IH]; intros i [|n]; cbn; try reflexivity.
  - now rewrite Nat.add_0_r.
  - rewrite IH; now rewrite Nat.add_succ_r.
Qed.

Lemma in_map_index {X Y : Type} (f : X -> nat -> Y) (i : nat) (xs : list X)
      (y : Y) :
  In y (map_index f i xs) -> exists x n, In x xs /\ y = f x n.
Proof.
  revert i; induction xs as [|x xs IH]; intros i; cbn; [intros []|].
  intros [<-|Hin]; [eauto|].
  destruct (IH _ Hin) as (x' & n & Hx & ->); eauto.
Qed.

End MapIndexFacts.

(* ===================================================================== *)
(** ** The two parsers as instances of the loop *)
(* ===================================================================== *)

(** The shape shared by the two [parseDiscoveryResult]: blank input gives
    no record, otherwise the records of the loop are numbered from 1. *)
Lemma parse_as_records
    (body : scanState -> str -> outcome scanState) (assign : obj -> nat -> obj)
    (result : str) :
  (trim result = [] -> recordsOf body (split LF result) = []) ->
  try_catch
    (if negb (truthy (VStr result)) || JsString.eqb (trim result) []
     then Done []
     else st <- for_of body (split LF result) scanStart ;;
          Done (map_index assign 0 (pushCurrent st)))
    (fun _ => [])
  = map_index assign 0 (recordsOf body (split LF result)).
Proof.
  intros Hblank.
  destruct (negb (truthy (VStr result)) || JsString.eqb (trim result) []) eqn:E.
  - rewrite Hblank; [reflexivity|].
    apply orb_true_iff in E as [E|E].
    + cbn in E. rewrite negb_involutive in E.
      destruct (JsStringFacts.eqb_spec result []); [now subst|discriminate].
    + now destruct (JsStringFacts.eqb_spec (trim result) []).
  - unfold recordsOf.
    destruct (for_of body (split LF result) scanStart); reflexivity.
Qed.

Lemma blank_lines (result line : str) :
  trim result = [] -> In line (split LF result) ->
  Forall (fun c => is_space c = true) line.
Proof.
  intros Hb Hin; apply TrimFacts.trim_blank in Hb.
  rewrite Forall_forall in Hb |- *; intros c Hc.
  eapply Hb, SplitFacts.split_from_units; eauto.
Qed.

Lemma filter_none {X : Type} (p : X -> bool) (xs : list X) :
  (forall x, In x xs -> p x = false) -> filter p xs = [].
Proof.
  induction xs as [|x xs IH]; cbn; intros H; [reflexivity|].
  rewrite (H x) by now left. apply IH; intros; apply H; now right.
Qed.

Module Part002Facts.

Import Part002.

Lemma part002_loopBody_start (st : scanState) (line : str) :
  isStart line = true -> loopBody st line = Done (openDevice newDevice st).
Proof. unfold isStart, loopBody; now intros ->. Qed.

Lemma part002_loopBody_closed (st : scanState) (line : str) :
  isStart line = false -> currentDevice st = None -> loopBody st line = Done st.
Proof. unfold isStart, loopBody; now intros -> ->. Qed.

Lemma part002_loopBody_field (st : scanState) (line : str) (d : obj) :
  isStart line = false -> currentDevice st = Some d ->
  loopBody st line
  = (d' <- field d line ;; Done (mkScan (devices st) (Some d'))).
Proof. unfold isStart, loopBody, field; now intros -> ->. Qed.

Lemma part002_good_fresh : good newDevice.
Proof. now exists []. Qed.

Lemma part002_good_set (k : string) (v : value) (d : obj) :
  k <> "addresses"%string -> good d -> good (Obj.set k v d).
Proof.
  intros Hk (items & Hi); exists items.
  now rewrite ObjFacts.get_set_other.
Qed.

Lemma part002_parseField_good (d : obj) (cleanedLine : str) :
  good d -> exists d', parseField d cleanedLine = Done d' /\ good d'.
Proof.
  intros Hd; unfold parseField.
  repeat match goal with
         | |- context [if startsWith ?p cleanedLine then _ else _] =>
             destruct (startsWith p cleanedLine)
         end;
    try (eexists; split; [reflexivity|]; first
           [ assumption | apply part002_good_set; [discriminate|assumption] ]).
  destruct (truthy (VStr (extractValue cleanedLine)));
    [|eexists; split; [reflexivity|assumption]].
  destruct Hd as (items & Hi); unfold push; rewrite Hi.
  eexists; split; [reflexivity|].
  eexists; apply ObjFacts.get_set_same.
Qed.

Lemma part002_field_good (d : obj) (line : str) :
  isStart line = false -> good d ->
  exists d', field d line = Done d' /\ good d'.
Proof. intros _; apply part002_parseField_good. Qed.

Lemma part002_blank_not_start (line : str) :
  Forall (fun c => is_space c = true) line -> isStart line = false.
Proof.
  intros Hb; unfold isStart, cleanLine.
  assert (Hsame : replaceFirst logPrefix line = line).
  { induction Hb as [|c line Hc _ IH]; [reflexivity|].
    cbn [replaceFirst]. cbn [logPrefix matchHere chr].
    replace (N.eqb (N_of_ascii "[") c) with false; [now rewrite IH|].
    symmetry; apply N.eqb_neq; intros <-; discriminate. }
  rewrite Hsame, (TrimFacts.blank_trim _ Hb); reflexivity.
Qed.

Lemma part002_records_total (lines : list str) :
  exists st, for_of loopBody lines scanStart = Done st /\
             recordsOf loopBody lines = pushCurrent st /\
             Forall good (recordsOf loopBody lines) /\
             List.length (recordsOf loopBody lines)
             = List.length (filter isStart lines).
Proof.
  exact (recordsOf_total loopBody newDevice isStart field good part002_good_fresh
           part002_loopBody_start part002_loopBody_closed part002_loopBody_field part002_field_good lines).
Qed.

Lemma part002_records_blank (result : str) :
  trim result = [] -> recordsOf loopBody (split LF result) = [].
Proof.
  intros Hb. destruct (part002_records_total (split LF result)) as (_ & _ & _ & _ & Hlen).
  rewrite filter_none in Hlen.
  - now apply length_zero_iff_nil.
  - intros line Hin; eapply part002_blank_not_start, blank_lines; eauto.
Qed.

Lemma part002_parse_records (result : str) :
  parseDiscoveryResult result
  = map_index assignNodeId 0 (recordsOf loopBody (split LF result)).
Proof. apply parse_as_records, part002_records_blank. Qed.

Lemma part002_get_nodeId (device : obj) (index : nat) :
  Obj.get "nodeId" (assignNodeId device index) = VStr (toString (index + 1)).
Proof.
  unfold assignNodeId.
  rewrite ObjFacts.get_set_other by discriminate.
  apply ObjFacts.get_set_same.
Qed.

End Part002Facts.

Module ServerFacts.

Import Server.

Lemma server_loopBody_start (st : scanState) (line : str) :
  isStart line = true -> loopBody st line = Done (openDevice newDevice st).
Proof.
  unfold isStart, loopBody; intros H.
  apply andb_true_iff in H as [-> ->]; reflexivity.
Qed.

Lemma server_loopBody_closed (st : scanState) (line : str) :
  isStart line = false -> currentDevice st = None -> loopBody st line = Done st.
Proof.
  unfold isStart, loopBody; intros H ->.
  destruct (includes (lit "[DIS]") line); cbn in *; [now rewrite H|reflexivity].
Qed.

Lemma server_loopBody_field (st : scanState) (line : str) (d : obj) :
  isStart line = false -> currentDevice st = Some d ->
  loopBody st line
  = (d' <- field d line ;; Done (mkScan (devices st) (Some d'))).
Proof.
  unfold isStart, loopBody, field; intros H Hc.
  destruct (includes (lit "[DIS]") line); cbn in *.
  - now rewrite H, Hc.
  - destruct st; cbn in *; now subst.
Qed.

Lemma server_good_fresh : good newDevice.
Proof. split; [exists []; split; [reflexivity|constructor]|reflexivity]. Qed.

Lemma server_good_set (k : string) (v : value) (d : obj) :
  k <> "addresses"%string -> k <> "type"%string -> good d ->
  good (Obj.set k v d).
Proof.
  intros Hk Ht ((items & Hi & Hall) & Hty); split.
  - exists items; split; [now rewrite ObjFacts.get_set_other|assumption].
  - now rewrite ObjFacts.get_set_other.
Qed.

(** Element [1] of the split on 'IP Address #' exists in the branch that
    reads it, so [addressOf] does not throw there. *)
Lemma server_addressOf_done (cleanLine : str) :
  includes (lit "IP Address #") cleanLine = true ->
  exists address, addressOf cleanLine = Done address.
Proof.
  intros Hin; unfold addressOf.
  destruct (SplitFacts.split_includes (lit "IP Address #") cleanLine)
    as (p0 & p1 & ps & ->); [discriminate|assumption|].
  cbn; eauto.
Qed.

Lemma server_parseField_good (d : obj) (cleanLine : str) :
  good d -> exists d', parseField d cleanLine = Done d' /\ good d'.
Proof.
  intros Hd; unfold parseField.
  destruct (includes (lit "Hostname:") cleanLine);
    [eexists; split; [reflexivity|apply server_good_set; [discriminate..|assumption]]|].
  destruct (includes (lit "IP Address #") cleanLine) eqn:Hip.
  - destruct (server_addressOf_done _ Hip) as (address & ->); cbn [bind].
    destruct (truthy (VStr address)
              && negb (JsString.eqb address (lit "not present"))) eqn:Hc;
      [|eexists; split; [reflexivity|assumption]].
    apply andb_true_iff in Hc as [Ht Hnp].
    destruct Hd as ((items & Hi & Hall) & Hty); unfold push; rewrite Hi.
    eexists; split; [reflexivity|]; split.
    + eexists; split; [apply ObjFacts.get_set_same|].
      apply Forall_app; split; [assumption|].
      constructor; [|constructor].
      exists address; split; [reflexivity|]; split.
      * intros ->; discriminate.
      * intros ->; discriminate.
    + now rewrite ObjFacts.get_set_other.
  - repeat match goal with
           | |- context [if includes ?p cleanLine then _ else _] =>
               destruct (includes p cleanLine)
           end;
      eexists; (split; [reflexivity|]); first
        [ assumption | apply server_good_set; [discriminate..|assumption] ].
Qed.

Lemma server_field_good (d : obj) (line : str) :
  isStart line = false -> good d ->
  exists d', field d line = Done d' /\ good d'.
Proof.
  intros _ Hd; unfold field.
  destruct (negb (includes (lit "[DIS]") line)); [eauto|].
  now apply server_parseField_good.
Qed.

Lemma server_blank_not_start (line : str) :
  Forall (fun c => is_space c = true) line -> isStart line = false.
Proof.
  intros Hb; unfold isStart.
  pose proof (TrimFacts.blank_no_bracket (lit "DIS]") line 91 eq_refl Hb) as H.
  change (91%N :: lit "DIS]") with (lit "[DIS]") in H.
  now rewrite H.
Qed.

Lemma server_records_total (lines : list str) :
  exists st, for_of loopBody lines scanStart = Done st /\
             recordsOf loopBody lines = pushCurrent st /\
             Forall good (recordsOf loopBody lines) /\
             List.length (recordsOf loopBody lines)
             = List.length (filter isStart lines).
Proof.
  exact (recordsOf_total loopBody newDevice isStart field good server_good_fresh
           server_loopBody_start server_loopBody_closed server_loopBody_field server_field_good lines).
Qed.

Lemma server_records_blank (result : str) :
  trim result = [] -> recordsOf loopBody (split LF result) = [].
Proof.
  intros Hb. destruct (server_records_total (split LF result)) as (_ & _ & _ & _ & Hlen).
  rewrite filter_none in Hlen.
  - now apply length_zero_iff_nil.
  - intros line Hin; eapply server_blank_not_start, blank_lines; eauto.
Qed.

Lemma server_parse_records (result : str) :
  parseDiscoveryResult result
  = map_index assignNodeId 0 (recordsOf loopBody (split LF result)).
Proof. apply parse_as_records, server_records_blank. Qed.

Lemma server_get_nodeId (device : obj) (index : nat) :
  Obj.get "nodeId" (assignNodeId device index) = VStr (toString (index + 1)).
Proof. apply ObjFacts.get_set_same. Qed.

End ServerFacts.

(* ===================================================================== *)
(** ** Properties of the discovery parsers *)
(* ===================================================================== *)

Lemma numbered_of_records
    (parse : str -> list obj) (body : scanState -> str -> outcome scanState)
    (assign : obj -> nat -> obj) (isStart : str -> bool) :
  (forall result,
     parse result = map_index assign 0 (recordsOf body (split LF result))) ->
  (forall lines,
     List.length (recordsOf body lines) = List.length (filter isStart lines)) ->
  (forall device index,
     Obj.get "nodeId" (assign device index) = VStr (toString (index + 1))) ->
  (forall lines1 line lines2,
     isStart line = true ->
     recordsOf body (lines1 ++ line :: lines2)
     = recordsOf body lines1 ++ recordsOf body (line :: lines2)) ->
  numbered parse body assign isStart.
Proof.
  intros Hparse Hlen Hid Happ result lines n; subst lines n.
  split; [apply Hparse|]. split; [|split].
  - rewrite Hparse, MapIndexFacts.length_map_index; apply Hlen.
  - intros i Hi. rewrite Hparse, MapIndexFacts.nth_error_map_index.
    rewrite <- Hlen in Hi.
    destruct (nth_error (recordsOf body (split LF result)) i) as [d|] eqn:E.
    + cbn; eexists; split; [reflexivity|apply Hid].
    + apply nth_error_None in E; lia.
  - intros lines1 line lines2 -> Hs; now apply Happ.
Qed.

(** C5, as the code has it: the parser returns as many records as the
    input has node-start lines, where a node-start line is what the loop
    takes for one (part_002: the line equals the marker once the log
    prefix is removed and the line trimmed; server.js: the line carries the
    [DIS] tag and its trimmed text, escape sequences removed, contains the
    marker); the records come in input order, and the i-th of them has the
    decimal string of i as its nodeId. *)
Theorem records_follow_start_lines :
  numbered Part002.parseDiscoveryResult Part002.loopBody Part002.assignNodeId
           Part002.isStart /\
  numbered Server.parseDiscoveryResult Server.loopBody Server.assignNodeId
           Server.isStart.
Proof.
  split.
  - apply numbered_of_records.
    + apply Part002Facts.part002_parse_records.
    + intros lines; now destruct (Part002Facts.part002_records_total lines) as (_&_&_&_&H).
    + apply Part002Facts.part002_get_nodeId.
    + intros; apply (recordsOf_app _ Part002.newDevice Part002.isStart
                       Part002.field Part002.good); auto using
        Part002Facts.part002_good_fresh, Part002Facts.part002_loopBody_start,
        Part002Facts.part002_loopBody_closed, Part002Facts.part002_loopBody_field,
        Part002Facts.part002_field_good.
  - apply numbered_of_records.
    + apply ServerFacts.server_parse_records.
    + intros lines; now destruct (ServerFacts.server_records_total lines) as (_&_&_&_&H).
    + apply ServerFacts.server_get_nodeId.
    + intros; apply (recordsOf_app _ Server.newDevice Server.isStart
                       Server.field Server.good); auto using
        ServerFacts.server_good_fresh, ServerFacts.server_loopBody_start,
        ServerFacts.server_loopBody_closed, ServerFacts.server_loopBody_field,
        ServerFacts.server_field_good.
Qed.

(** Two blocks behind their log prefix: both parsers number them "1" and
    "2". *)
Lemma records_follow_start_lines_witness :
  (exists d1 d2,
     Part002.parseDiscoveryResult twoBlocks = [d1; d2] /\
     Obj.get "nodeId" d1 = VStr (lit "1") /\ Obj.get "nodeId" d2 = VStr (lit "2")) /\
  (exists d1 d2,
     Server.parseDiscoveryResult twoBlocks = [d1; d2] /\
     Obj.get "nodeId" d1 = VStr (lit "1") /\ Obj.get "nodeId" d2 = VStr (lit "2")).
Proof.
  destruct records_follow_start_lines as [H1 H2].
  destruct (H1 twoBlocks) as (_ & Hl1 & Hn1 & _).
  destruct (H2 twoBlocks) as (_ & Hl2 & Hn2 & _).
  split.
  - destruct (Part002.parseDiscoveryResult twoBlocks) as [|d1 [|d2 [|d3 l]]] eqn:E;
      try discriminate Hl1.
    exists d1, d2; split; [reflexivity|].
    destruct (Hn1 0) as (x & Hx & Hid0); [vm_compute; lia|].
    destruct (Hn1 1) as (y & Hy & Hid1); [vm_compute; lia|].
    cbn in Hx, Hy. injection Hx as <-. injection Hy as <-. now split.
  - destruct (Server.parseDiscoveryResult twoBlocks) as [|d1 [|d2 [|d3 l]]] eqn:E;
      try discriminate Hl2.
    exists d1, d2; split; [reflexivity|].
    destruct (Hn2 0) as (x & Hx & Hid0); [vm_compute; lia|].
    destruct (Hn2 1) as (y & Hy & Hid1); [vm_compute; lia|].
    cbn in Hx, Hy. injection Hx as <-. injection Hy as <-. now split.
Defined.

(** The claim C5 fails as it is worded: the two lines of [twoMarkers] each
    contain the marker, and the parser of server.js, which reads tagged
    lines only, returns no record; the line of [markerWithText] contains
    the marker, and the parser of part_002, which wants the line to equal
    the marker, returns no record. *)
Lemma marker_occurrences_not_counted :
  List.length (filter (includes marker) (split LF twoMarkers)) = 2 /\
  Server.parseDiscoveryResult twoMarkers = [] /\
  List.length (filter (includes marker) (split LF markerWithText)) = 1 /\
  Part002.parseDiscoveryResult markerWithText = [].
Proof. repeat split; vm_compute; reflexivity. Qed.

(** C7: [parseDiscoveryResult] returns a sequence for every input string.
    The [try] block itself completes for every input, so what is returned
    is its result; blank input returns the empty sequence; and a throw, had
    there been one, would have been turned into the empty sequence by the
    [catch]. *)
Theorem parseDiscoveryResult_total (result : str) :
  (exists ds, Part002.tryBlock result = Done ds /\
              Part002.parseDiscoveryResult result = ds) /\
  (exists ds, Server.tryBlock result = Done ds /\
              Server.parseDiscoveryResult result = ds) /\
  (trim result = [] ->
   Part002.parseDiscoveryResult result = [] /\
   Server.parseDiscoveryResult result = []) /\
  (forall e,
     (Part002.tryBlock result = Throw e -> Part002.parseDiscoveryResult result = []) /\
     (Server.tryBlock result = Throw e -> Server.parseDiscoveryResult result = [])).
Proof.
  split; [|split; [|split]].
  - unfold Part002.parseDiscoveryResult, Part002.tryBlock.
    destruct (negb (truthy (VStr result)) || JsString.eqb (trim result) []);
      [eauto|].
    destruct (Part002Facts.part002_records_total (split LF result)) as (st & -> & _).
    cbn; eauto.
  - unfold Server.parseDiscoveryResult, Server.tryBlock.
    destruct (negb (truthy (VStr result)) || JsString.eqb (trim result) []);
      [eauto|].
    destruct (ServerFacts.server_records_total (split LF result)) as (st & -> & _).
    cbn; eauto.
  - intros Hb; unfold Part002.parseDiscoveryResult, Part002.tryBlock,
      Server.parseDiscoveryResult, Server.tryBlock.
    rewrite Hb; cbn [JsString.eqb]; rewrite orb_true_r; now cbn.
  - intros e; unfold Part002.parseDiscoveryResult, Server.parseDiscoveryResult.
    split; now intros ->.
Qed.

(** A line feed between two blanks is blank input. *)
Lemma parseDiscoveryResult_total_witness :
  Part002.parseDiscoveryResult [32; 10; 9]%N = [] /\
  Server.parseDiscoveryResult [32; 10; 9]%N = [].
Proof.
  exact (proj1 (proj2 (proj2 (parseDiscoveryResult_total [32; 10; 9]%N))) eq_refl).
Defined.

Lemma Part002_type_wifi (result : str) (d : obj) :
  In d (Part002.parseDiscoveryResult result) ->
  Obj.get "type" d = VStr (lit "wifi").
Proof.
  rewrite Part002Facts.part002_parse_records; intros Hin.
  apply MapIndexFacts.in_map_index in Hin as (x & n & _ & ->).
  apply ObjFacts.get_set_same.
Qed.

Lemma Server_records_good (result : str) (d : obj) :
  In d (Server.parseDiscoveryResult result) -> Server.good d.
Proof.
  rewrite ServerFacts.server_parse_records; intros Hin.
  apply MapIndexFacts.in_map_index in Hin as (x & n & Hx & ->).
  destruct (ServerFacts.server_records_total (split LF result)) as (_ & _ & _ & Hg & _).
  rewrite Forall_forall in Hg.
  apply ServerFacts.server_good_set; [discriminate..|now apply Hg].
Qed.

(** C4, as the code has it: every record of either parser has the type
    'wifi', one of the three network types; it is a constant, written into
    the record when it is started (server.js) or when the node ids are
    assigned (part_002), and no record's type is computed from the text
    of the output. *)
Theorem type_is_always_wifi (result : str) (d : obj) :
  (In d (Part002.parseDiscoveryResult result) \/
   In d (Server.parseDiscoveryResult result) ->
   Obj.get "type" d = VStr (lit "wifi") /\
   In (Obj.get "type" d) [VStr (lit "wifi"); VStr (lit "thread"); VStr (lit "unknown")]) /\
  Obj.get "type" Server.newDevice = VStr (lit "wifi") /\
  Obj.lookup "type" Part002.newDevice = None.
Proof.
  split; [|split; reflexivity].
  intros H. assert (Ht : Obj.get "type" d = VStr (lit "wifi")).
  { destruct H as [H|H]; [now apply (Part002_type_wifi result)|].
    now apply (Server_records_good result). }
  split; [assumption|]. rewrite Ht; now left.
Qed.

(** The record of [threadScan], whose text speaks of thread only. *)
Lemma type_is_always_wifi_witness :
  Obj.get "type" (hd [] (Server.parseDiscoveryResult threadScan))
  = VStr (lit "wifi").
Proof.
  refine (proj1 (proj1 (type_is_always_wifi threadScan _) (or_intror _))).
  vm_compute; left; reflexivity.
Defined.

(** The claim C4 fails on "inferred from the output text": for an output
    that speaks of thread only, [detectDeviceType], the one function that
    reads a network type off a text, says 'thread', while the record that
    either parser returns says 'wifi'. *)
Lemma type_not_inferred_from_text :
  detectDeviceType threadScan = lit "thread" /\
  (exists d, Part002.parseDiscoveryResult threadScan = [d] /\
             Obj.get "name" d = VStr (lit "thread-sensor") /\
             Obj.get "type" d = VStr (lit "wifi")) /\
  (exists d, Server.parseDiscoveryResult threadScan = [d] /\
             Obj.get "name" d = VStr (lit "thread-sensor") /\
             Obj.get "type" d = VStr (lit "wifi")).
Proof.
  split; [vm_compute; reflexivity|].
  split; eexists; (split; [vm_compute; reflexivity|]); split; reflexivity.
Qed.

(** C2, as the code has it: the parser of part_002 turns the scenario into
    exactly one record with nodeId "1", name "light1", addresses
    ["192.168.1.50"], port "5540" and vendorId "0xFFF1"; the parser of
    server.js reads only lines that carry the [DIS] tag: it returns no
    record for the scenario, and the record with the same five values once
    every line is behind its log prefix. *)
Theorem scenario_one_record :
  (exists d,
     Part002.parseDiscoveryResult scenario = [d] /\
     Obj.get "nodeId" d = VStr (lit "1") /\
     Obj.get "name" d = VStr (lit "light1") /\
     Obj.get "addresses" d = VArr [VStr (lit "192.168.1.50")] /\
     Obj.get "port" d = VStr (lit "5540") /\
     Obj.get "vendorId" d = VStr (lit "0xFFF1")) /\
  Server.parseDiscoveryResult scenario = [] /\
  (exists d,
     Server.parseDiscoveryResult scenarioTagged = [d] /\
     Obj.get "nodeId" d = VStr (lit "1") /\
     Obj.get "name" d = VStr (lit "light1") /\
     Obj.get "addresses" d = VArr [VStr (lit "192.168.1.50")] /\
     Obj.get "port" d = VStr (lit "5540") /\
     Obj.get "vendorId" d = VStr (lit "0xFFF1")).
Proof.
  split; [|split].
  - eexists; split; [vm_compute; reflexivity|]. repeat split.
  - vm_compute; reflexivity.
  - eexists; split; [vm_compute; reflexivity|]. repeat split.
Qed.

(** The claim C2 fails on the parser of server.js: no line of the scenario
    contains [DIS], every line is skipped and no record is returned. *)
Lemma scenario_untagged_no_record :
  Forall (fun line => includes (lit "[DIS]") line = false) (split LF scenario) /\
  Server.parseDiscoveryResult scenario = [].
Proof. split; [repeat constructor|vm_compute; reflexivity]. Qed.

(** C3 at the failing input: the parser of part_002 appends the literal
    'not present' to [addresses] like any other non-empty value. *)
Theorem part002_appends_not_present :
  exists d,
    Part002.parseDiscoveryResult notPresentBlock = [d] /\
    Obj.get "addresses" d = VArr [VStr (lit "not present"); VStr (lit "10.0.0.5")].
Proof. eexists; split; [vm_compute; reflexivity|reflexivity]. Qed.

(** The parser of server.js never has 'not present', nor the empty string,
    among the addresses of a record. *)
Lemma server_addresses_present (result : str) (d : obj) :
  In d (Server.parseDiscoveryResult result) ->
  exists items,
    Obj.get "addresses" d = VArr items /\
    ~ In (VStr (lit "not present")) items /\ ~ In (VStr []) items.
Proof.
  intros Hin. destruct (Server_records_good result d Hin) as ((items & Hi & Hall) & _).
  exists items; split; [assumption|].
  rewrite Forall_forall in Hall.
  split; intros Hbad; destruct (Hall _ Hbad) as (a & Ha & Hne & Hnp);
    injection Ha as <-; [now apply Hnp|now apply Hne].
Qed.

(** On the same block behind the [DIS] tag it skips 'not present' and
    appends "10.0.0.5". *)
Example server_skips_not_present :
  exists d,
    Server.parseDiscoveryResult notPresentTagged = [d] /\
    Obj.get "addresses" d = VArr [VStr (lit "10.0.0.5")].
Proof. eexists; split; [vm_compute; reflexivity|reflexivity]. Qed.

(** C6 at the failing inputs: the parser of part_002 removes no escape
    sequence, so the reset sequence that ends a coloured line stays in the
    value; the parser of server.js removes the sequences found in one pass,
    which joins the two halves around a removed sequence into a new one. *)
Theorem escape_sequences_survive :
  (exists d,
     Part002.parseDiscoveryResult colouredBlock = [d] /\
     Obj.get "name" d = VStr (lit "light1" ++ [Server.ESC] ++ lit "[0m") /\
     hasAnsiEscape (lit "light1" ++ [Server.ESC] ++ lit "[0m") = true) /\
  (exists d,
     Server.parseDiscoveryResult nestedEscape = [d] /\
     Obj.get "addresses" d = VArr [VStr ([Server.ESC] ++ lit "[0m")] /\
     hasAnsiEscape ([Server.ESC] ++ lit "[0m") = true).
Proof.
  split; eexists; (split; [vm_compute; reflexivity|]); split; reflexivity.
Qed.

(** On coloured output whose sequences are whole, the parser of server.js
    returns values without them. *)
Example server_removes_whole_sequences :
  exists d,
    Server.parseDiscoveryResult colouredTagged = [d] /\
    Obj.get "name" d = VStr (lit "light1") /\
    Obj.get "addresses" d = VArr [VStr (lit "192.168.1.50")].
Proof. eexists; split; [vm_compute; reflexivity|]. split; reflexivity. Qed.

(* ===================================================================== *)
(** ** Escape sequences in the values of server.js *)
(* ===================================================================== *)

Module EscapeFacts.

Import Server.

Lemma wholeEscapes_cons (c : N) (s : str) :
  wholeEscapes (c :: s)
  = (if N.eqb c ESC
     then match matchHere ansiEscape (c :: s) with
          | Some _ => true
          | None => false
          end
     else true) && wholeEscapes s.
Proof. reflexivity. Qed.

Lemma replaceAll_from_cons (r : regex) (c : N) (s : str) :
  replaceAll_from r 0 (c :: s)
  = match matchHere r (c :: s) with
    | Some n => replaceAll_from r (n - 1) s
    | None => c :: replaceAll_from r 0 s
    end.
Proof. reflexivity. Qed.

Lemma wholeEscapes_skipn (k : nat) (s : str) :
  wholeEscapes s = true -> wholeEscapes (skipn k s) = true.
Proof.
  revert k; induction s as [|c s IH]; intros k H.
  - now destruct k.
  - destruct k as [|k]; [assumption|]. cbn [skipn].
    rewrite wholeEscapes_cons in H. apply andb_true_iff in H as [_ H].
    now apply IH.
Qed.

(** One pass over a string whose escape sequences are whole leaves no ESC. *)
Lemma replaceAll_escFree (s : str) (k : nat) :
  wholeEscapes (skipn k s) = true ->
  escFree (replaceAll_from ansiEscape k s).
Proof.
  revert k; induction s as [|c s IH]; intros k H; [intros []|].
  destruct k as [|k]; [|now apply IH].
  cbn [skipn] in H. rewrite wholeEscapes_cons in H.
  apply andb_true_iff in H as [Hc Hs].
  rewrite replaceAll_from_cons.
  destruct (matchHere ansiEscape (c :: s)) as [n|].
  - apply IH; now apply wholeEscapes_skipn.
  - destruct (N.eqb_spec c ESC) as [->|Hne]; [discriminate|].
    intros [E|Hin]; [congruence|]. now apply (IH 0).
Qed.

Lemma replaceAll_units (r : regex) (k : nat) (s : str) :
  incl (replaceAll_from r k s) s.
Proof.
  revert k; induction s as [|c s IH]; intros k x; cbn [replaceAll_from];
    [intros []|].
  destruct k as [|k]; [|intros Hx; right; now apply (IH k)].
  destruct (matchHere r (c :: s)) as [n|].
  - intros Hx; right; now apply (IH (n - 1)).
  - intros [<-|Hx]; [now left|right; now apply (IH 0)].
Qed.

Lemma trimStart_units (s : str) : incl (trimStart s) s.
Proof.
  induction s as [|c s IH]; cbn; [intros x []|].
  destruct (is_space c); [|apply incl_refl].
  intros x Hx; right; now apply IH.
Qed.

Lemma trim_units (s : str) : incl (trim s) s.
Proof.
  unfold trim, trimEnd; intros x Hx.
  apply in_rev, trimStart_units in Hx.
  rewrite <- in_rev in Hx. now apply trimStart_units.
Qed.

Lemma join_units (sep : str) (pieces : list str) (x : N) :
  In x (join sep pieces) ->
  In x sep \/ exists piece, In piece pieces /\ In x piece.
Proof.
  induction pieces as [|p ps IH]; cbn; [intros []|].
  destruct ps as [|q ps].
  - intros Hx; right; exists p; split; [now left|assumption].
  - intros Hx. apply in_app_or in Hx as [Hx|Hx].
    + right; exists p; split; [now left|assumption].
    + apply in_app_or in Hx as [Hx|Hx]; [now left|].
      destruct (IH Hx) as [Hs|(piece & Hp & Hxp)]; [now left|].
      right; exists piece; split; [now right|assumption].
Qed.

Lemma escFree_incl (a b : str) : incl a b -> escFree b -> escFree a.
Proof. intros Hi Hb Ha; apply Hb, Hi, Ha. Qed.

Lemma extractValue_escFree (cleanLine key : str) :
  escFree cleanLine -> escFree (extractValue cleanLine key).
Proof.
  intros Hc; unfold extractValue.
  destruct (split (key ++ lit ":") cleanLine) as [|p0 [|p1 ps]] eqn:E;
    try (intros []).
  apply (escFree_incl _ cleanLine); [|assumption].
  intros x Hx. apply replaceAll_units, trim_units in Hx.
  apply (SplitFacts.split_from_units (key ++ lit ":") 0 cleanLine p1);
    [|assumption].
  unfold split in E; rewrite E; right; now left.
Qed.

Lemma addressOf_escFree (cleanLine address : str) :
  escFree cleanLine -> addressOf cleanLine = Done address -> escFree address.
Proof.
  intros Hc; unfold addressOf.
  destruct (nth_error (split (lit "IP Address #") cleanLine) 1) as [p1|] eqn:E;
    [|discriminate].
  intros [= <-] Hx. apply trim_units, join_units in Hx.
  destruct Hx as [Hx|(piece & Hp & Hx)].
  - cbn in Hx; destruct Hx as [Hx|[]]; discriminate.
  - apply Hc.
    apply (SplitFacts.split_from_units (lit "IP Address #") 0 cleanLine p1);
      [now apply nth_error_In in E|].
    apply (SplitFacts.split_from_units (lit ":") 0 p1 piece); [|assumption].
    unfold split in Hp. change (lit ":") with [58%N] in Hp |- *.
    destruct (split_from [58%N] 0 p1) as [|q qs]; cbn in Hp;
      [destruct Hp|now right].
Qed.

Lemma cleanRecord_set (k : string) (v : value) (d : obj) :
  cleanValue v -> cleanRecord d -> cleanRecord (Obj.set k v d).
Proof.
  intros Hv; induction 1 as [|[k' v'] d Hkv Hd IH]; cbn.
  - repeat constructor; assumption.
  - destruct (String.eqb k' k); constructor; assumption.
Qed.

Lemma cleanRecord_get (k : string) (d : obj) :
  cleanRecord d -> cleanValue (Obj.get k d).
Proof.
  unfold Obj.get; induction 1 as [|[k' v'] d Hkv Hd IH]; cbn; [exact I|].
  destruct (String.eqb k' k); assumption.
Qed.

Lemma parseField_clean (d d' : obj) (cleanLine : str) :
  escFree cleanLine -> cleanRecord d ->
  parseField d cleanLine = Done d' -> cleanRecord d'.
Proof.
  intros Hc Hd; unfold parseField.
  destruct (includes (lit "Hostname:") cleanLine);
    [intros [= <-]; apply cleanRecord_set; [now apply extractValue_escFree|assumption]|].
  destruct (includes (lit "IP Address #") cleanLine).
  - destruct (addressOf cleanLine) as [address|e] eqn:Ha; cbn [bind];
      [|discriminate].
    destruct (truthy (VStr address)
              && negb (JsString.eqb address (lit "not present")));
      [|now intros [= <-]].
    unfold push.
    pose proof (cleanRecord_get "addresses" d Hd) as Hg.
    destruct (Obj.get "addresses" d) as [| | | | |items|]; try discriminate.
    intros [= <-]. apply cleanRecord_set; [|assumption].
    cbn in Hg |- *. apply Forall_app; split; [assumption|].
    constructor; [|constructor]. now apply (addressOf_escFree cleanLine).
  - repeat match goal with
           | |- context [if includes ?p cleanLine then _ else _] =>
               destruct (includes p cleanLine)
           end;
      intros [= <-]; first
        [ assumption
        | apply cleanRecord_set; [now apply extractValue_escFree|assumption] ].
Qed.

Lemma newDevice_clean : cleanRecord newDevice.
Proof.
  repeat constructor; cbn; try exact I; intros H;
    repeat (destruct H as [H|H]; [discriminate|]); exact H.
Qed.

Lemma loopBody_clean (st st' : scanState) (line : str) :
  wholeEscapes (trim line) = true -> scanOk cleanRecord st ->
  loopBody st line = Done st' -> scanOk cleanRecord st'.
Proof.
  intros Hw Hok; unfold loopBody.
  destruct (negb (includes (lit "[DIS]") line)); [now intros [= <-]|].
  destruct (includes marker (removeAnsiEscapes (trim line))).
  - intros [= <-]; split; cbn.
    + now apply (scanOk_pushCurrent cleanRecord).
    + intros d [= <-]; apply newDevice_clean.
  - destruct (currentDevice st) as [d|] eqn:Hc; [|now intros [= <-]].
    destruct (parseField d (removeAnsiEscapes (trim line))) as [d'|e] eqn:Hp;
      cbn [bind]; [|discriminate].
    intros [= <-]; split; cbn; [apply Hok|].
    intros ? [= <-].
    apply (parseField_clean d d' (removeAnsiEscapes (trim line)));
      [now apply replaceAll_escFree|now apply Hok|assumption].
Qed.

Lemma for_of_clean (lines : list str) (st st' : scanState) :
  Forall (fun line => wholeEscapes (trim line) = true) lines ->
  scanOk cleanRecord st ->
  for_of loopBody lines st = Done st' -> scanOk cleanRecord st'.
Proof.
  intros Hl; revert st; induction Hl as [|line lines Hw _ IH]; intros st Hok; cbn.
  - now intros [= <-].
  - destruct (loopBody st line) as [st1|e] eqn:E; cbn; [|discriminate].
    apply IH. now apply (loopBody_clean st st1 line).
Qed.

(** On output whose escape sequences are whole in every line, no value
    that the parser of server.js has read holds an ESC, so none holds an
    escape sequence: all properties but the node id, which is a decimal
    number, are covered. *)
Theorem server_values_escFree (result : str) (d : obj) (k : string) :
  Forall (fun line => wholeEscapes (trim line) = true) (split LF result) ->
  In d (parseDiscoveryResult result) ->
  k <> "nodeId"%string ->
  cleanValue (Obj.get k d).
Proof.
  intros Hl Hin Hk. rewrite ServerFacts.server_parse_records in Hin.
  apply MapIndexFacts.in_map_index in Hin as (x & n & Hx & ->).
  unfold assignNodeId. rewrite ObjFacts.get_set_other by congruence.
  apply cleanRecord_get.
  destruct (ServerFacts.server_records_total (split LF result))
    as (st & Hrun & Hrec & _).
  rewrite Hrec in Hx.
  pose proof (for_of_clean _ _ _ Hl (scanOk_start cleanRecord) Hrun) as Hok.
  apply (scanOk_pushCurrent cleanRecord) in Hok.
  rewrite Forall_forall in Hok; now apply Hok.
Qed.

(** The coloured sample has whole sequences only. *)
Example server_values_escFree_coloured (d : obj) :
  In d (parseDiscoveryResult colouredTagged) ->
  cleanValue (Obj.get "name" d) /\ cleanValue (Obj.get "addresses" d).
Proof.
  intros Hin.
  assert (Hw : Forall (fun line => wholeEscapes (trim line) = true)
                      (split LF colouredTagged)).
  { let lines := eval vm_compute in (split LF colouredTagged) in
    change (split LF colouredTagged) with lines.
    repeat (constructor; [vm_compute; reflexivity|]). constructor. }
  split; apply (server_values_escFree colouredTagged d); auto; discriminate.
Qed.

End EscapeFacts.

(* ===================================================================== *)
(** ** The request handlers and the registry *)
(* ===================================================================== *)

Module TemplateFacts.

Lemma renders_primitive (numberText : Z -> str) (v : value) :
  primitive v = true -> renders numberText v.
Proof. destruct v; cbn; intros H; try discriminate; eexists; reflexivity. Qed.

Lemma renders_string (numberText : Z -> str) (s : str) :
  renders numberText (VStr s).
Proof. now exists s. Qed.

(** Values that can all be converted make a template literal. *)
Lemma interpolate_done (numberText : Z -> str) (vs : list value) :
  Forall (renders numberText) vs ->
  exists ss, interpolate numberText vs = Done ss.
Proof.
  induction 1 as [|v vs (s & Hs) _ (ss & Hss)]; cbn; [eauto|].
  rewrite Hs, Hss; cbn; eauto.
Qed.

(** A key that holds an entry is a primitive. *)
Lemma found_primitive (k : value) (deviceState : registry) (e : obj) :
  Map.get k deviceState = Some e -> primitive k = true.
Proof.
  induction deviceState as [|[k' e'] m IH]; cbn; [discriminate|].
  destruct (sameValueZero k' k) eqn:E; [|exact IH].
  intros _; destruct k', k; cbn in E; try discriminate; reflexivity.
Qed.

End TemplateFacts.

Section HandlerFacts.

Variable executeMatterCommand : command -> outcome str.
Variable now : str.
Variable handleMatterError : error -> obj.
Variable numberText : Z -> str.

Lemma pairing_code_falsy (req : obj) (deviceState : registry) :
  truthy (Obj.get "setupCode" req) = false ->
  pairing_code executeMatterCommand now handleMatterError numberText req deviceState
  = mkEffect (mkReply 400 (errorBody msgSetupCodeRequired)) deviceState [].
Proof. intros H; unfold pairing_code; now rewrite H. Qed.

(** C8, as the code has it: on the servers of server.js and part_001 a POST
    /api/pairing/code whose body has no [setupCode] is answered with status
    400 and the error envelope [{status: "error", message}]; no command is
    handed to the command runner and the registry is left as it was.  The
    handler of the same route in controller.js does not read [setupCode]:
    it takes its code from [manualPairingCode] and answers 400 only for
    the device address "BLE" with a network type that is neither "wifi"
    nor "thread", and then without a command. *)
Theorem pairing_code_without_setupCode :
  (forall (req : obj) (deviceState : registry),
     Obj.lookup "setupCode" req = None ->
     let r := pairing_code executeMatterCommand now handleMatterError numberText
                req deviceState in
     status (response r) = 400 /\
     Obj.get "status" (body (response r)) = VStr (lit "error") /\
     Obj.keys (body (response r)) = ["status"; "message"]%string /\
     calls r = [] /\
     state r = deviceState)
  /\
  (forall (exec : Controller.execCommand -> outcome str)
          (ssid password dataset : value) (req : obj) (setupCode : value),
     let serve := Controller.pairing_code exec numberText ssid password dataset in
     serve (Obj.set "setupCode" setupCode req) = serve req /\
     forall r,
       serve req = Done r ->
       (status (Controller.answered r) = 400 <->
        Obj.get "deviceAddress" req = VStr (lit "BLE") /\
        Obj.get "networkType" req <> VStr (lit "wifi") /\
        Obj.get "networkType" req <> VStr (lit "thread")) /\
       (status (Controller.answered r) = 400 -> Controller.executed r = [])).
Proof.
  split.
  - intros req deviceState Hnone r; subst r.
    rewrite pairing_code_falsy; [now cbn|].
    unfold Obj.get; now rewrite Hnone.
  - intros exec ssid password dataset req setupCode serve; subst serve; split.
    + unfold Controller.pairing_code, Controller.commandOf.
      now rewrite !ObjFacts.get_set_other by discriminate.
    + intros r. unfold Controller.pairing_code, Controller.commandOf.
      assert (Heq : forall v s, sameValueZero v (VStr (lit s)) = true <->
                                v = VStr (lit s)).
      { intros v s; split; [apply MapFacts.sameValueZero_eq|].
        intros ->; now apply MapFacts.sameValueZero_refl. }
      destruct (sameValueZero (Obj.get "deviceAddress" req) (VStr (lit "BLE")))
        eqn:Hble.
      * apply Heq in Hble.
        destruct (sameValueZero (Obj.get "networkType" req) (VStr (lit "wifi")))
          eqn:Hwifi.
        { apply Heq in Hwifi.
          destruct (interpolate _ _); cbn [bind]; [|discriminate].
          destruct (exec _); intros E; injection E as <-;
            cbn [status Controller.answered Controller.executed];
            (split; [split; [discriminate|intros (_ & H & _); congruence]
                    |discriminate]). }
        destruct (sameValueZero (Obj.get "networkType" req) (VStr (lit "thread")))
          eqn:Hthread.
        { apply Heq in Hthread.
          destruct (interpolate _ _); cbn [bind]; [|discriminate].
          destruct (exec _); intros E; injection E as <-;
            cbn [status Controller.answered Controller.executed];
            (split; [split; [discriminate|intros (_ & _ & H); congruence]
                    |discriminate]). }
        cbn [bind]. intros E; injection E as <-;
          cbn [status Controller.answered Controller.executed].
        split; [|reflexivity]. split; [intros _|reflexivity].
        split; [assumption|].
        split; intros H; apply Heq in H; congruence.
      * destruct (interpolate _ _); cbn [bind]; [|discriminate].
        destruct (exec _); intros E; injection E as <-;
          cbn [status Controller.answered Controller.executed];
          (split; [split; [discriminate|]|discriminate]);
          intros (H & _); apply Heq in H; congruence.
Qed.

Lemma upsert_other (devices : list obj) (deviceState : registry) (k : value) :
  ~ In k (map (Obj.get "nodeId") devices) ->
  Map.get k (upsertDiscovered now devices deviceState) = Map.get k deviceState.
Proof.
  revert deviceState; induction devices as [|d devices IH]; intros deviceState Hk;
    [reflexivity|].
  cbn in Hk |- *. unfold upsertDiscovered in IH; rewrite IH by tauto.
  apply MapFacts.map_get_set_other; tauto.
Qed.

Lemma upsert_get (devices : list obj) (deviceState : registry) (d : obj) :
  NoDup (map (Obj.get "nodeId") devices) ->
  (forall x, In x devices -> primitive (Obj.get "nodeId" x) = true) ->
  In d devices ->
  Map.get (Obj.get "nodeId" d) (upsertDiscovered now devices deviceState)
  = Some (discovered now d).
Proof.
  revert deviceState; induction devices as [|x devices IH];
    intros deviceState Hnd Hprim Hin; [destruct Hin|].
  cbn in Hnd; inversion Hnd as [|? ? Hnotin Hnd']; subst.
  destruct Hin as [->|Hin].
  - cbn. pose proof (upsert_other devices) as Ho; unfold upsertDiscovered in Ho.
    rewrite Ho by assumption.
    apply MapFacts.map_get_set_same, Hprim; now left.
  - cbn. unfold upsertDiscovered in IH. apply IH; auto.
    intros y Hy; apply Hprim; now right.
Qed.

Lemma nodeIds_from (assign : obj -> nat -> obj) (i : nat) (recs : list obj)
      (v : value) :
  (forall device index,
     Obj.get "nodeId" (assign device index) = VStr (toString (index + 1))) ->
  In v (map (Obj.get "nodeId") (map_index assign i recs)) ->
  exists j, i <= j /\ v = VStr (toString (j + 1)).
Proof.
  intros Hid; revert i; induction recs as [|x recs IH]; intros i; cbn; [intros []|].
  intros [<-|Hin]; [exists i; split; [lia|apply Hid]|].
  destruct (IH _ Hin) as (j & Hj & ->); exists j; split; [lia|reflexivity].
Qed.

Lemma nodeIds_NoDup (assign : obj -> nat -> obj) (i : nat) (recs : list obj) :
  (forall device index,
     Obj.get "nodeId" (assign device index) = VStr (toString (index + 1))) ->
  NoDup (map (Obj.get "nodeId") (map_index assign i recs)).
Proof.
  intros Hid; revert i; induction recs as [|x recs IH]; intros i; cbn;
    constructor; [|apply IH].
  intros Hin; apply (nodeIds_from assign (S i) recs _ Hid) in Hin as (j & Hj & E).
  rewrite Hid in E; injection E as E.
  apply ToStringFacts.toString_inj in E; lia.
Qed.

Lemma parsed_nodeIds (parse : str -> list obj) (result : str) :
  parse = Part002.parseDiscoveryResult \/ parse = Server.parseDiscoveryResult ->
  NoDup (map (Obj.get "nodeId") (parse result)) /\
  (forall d, In d (parse result) -> primitive (Obj.get "nodeId" d) = true).
Proof.
  intros [->| ->].
  - rewrite Part002Facts.part002_parse_records; split.
    + apply nodeIds_NoDup, Part002Facts.part002_get_nodeId.
    + intros d Hin; apply MapIndexFacts.in_map_index in Hin as (x & n & _ & ->).
      now rewrite Part002Facts.part002_get_nodeId.
  - rewrite ServerFacts.server_parse_records; split.
    + apply nodeIds_NoDup, ServerFacts.server_get_nodeId.
    + intros d Hin; apply MapIndexFacts.in_map_index in Hin as (x & n & _ & ->).
      now rewrite ServerFacts.server_get_nodeId.
Qed.

Lemma discovered_keeps (d : obj) (k : string) :
  k <> "status"%string -> k <> "timestamp"%string ->
  Obj.lookup k (discovered now d) = Obj.lookup k d.
Proof.
  intros Hs Ht; unfold discovered.
  rewrite !ObjFacts.lookup_set_other; auto.
Qed.

(** C9: after a discovery scan has stored its records, looking up the
    nodeId of any of them returns the entry made from that record: its
    status is 'discovered' and every property other than status and
    timestamp, so name, addresses, port, vendorId, productId, deviceType,
    discriminator, instanceName and commissioningMode, reads as in the
    record.  It holds for the search handler over either parser. *)
Theorem discovered_round_trip
    (parse : str -> list obj) (result : str) (deviceState : registry) (d : obj) :
  parse = Part002.parseDiscoveryResult \/ parse = Server.parseDiscoveryResult ->
  executeMatterCommand DiscoverCommissionables = Done result ->
  In d (parse result) ->
  let r := device_search executeMatterCommand now handleMatterError parse
             deviceState in
  exists entry,
    Map.get (Obj.get "nodeId" d) (state r) = Some entry /\
    entry = discovered now d /\
    Obj.get "status" entry = VStr (lit "discovered") /\
    Forall (fun k => Obj.get k entry = Obj.get k d)
      [ "name"; "addresses"; "port"; "vendorId"; "productId"; "deviceType";
        "discriminator"; "instanceName"; "commissioningMode" ]%string /\
    (forall k, k <> "status"%string -> k <> "timestamp"%string ->
               Obj.lookup k entry = Obj.lookup k d).
Proof.
  intros Hparse Hrun Hin r; subst r; unfold device_search; rewrite Hrun; cbn.
  destruct (parsed_nodeIds parse result Hparse) as [Hnd Hprim].
  exists (discovered now d); split; [now apply upsert_get|].
  split; [reflexivity|]. split; [|split].
  - unfold discovered. rewrite ObjFacts.get_set_other by discriminate.
    apply ObjFacts.get_set_same.
  - repeat constructor; unfold Obj.get; now rewrite discovered_keeps.
  - intros k Hs Ht; now apply discovered_keeps.
Qed.


Section Commission.

Variables env_WIFI_SSID env_WIFI_PASSWORD : value.

(** C1, as the code has it: POST /api/device/commission for a [deviceId]
    without registry entry is answered 404, runs no command and leaves the
    registry as it was, whatever the other fields are; POST
    /api/commissioning/wifi does not look the [nodeId] up before it runs
    the command and never answers 404: given an ssid and a password, and
    values that can stand in the command line, it runs the command, and
    after a successful run it stores a new entry with status
    'commissioned' for a [nodeId] that had none. *)
Theorem commission_unknown_device :
  (forall (req : obj) (deviceState : registry),
     Map.get (Obj.get "deviceId" req) deviceState = None ->
     let r := device_commission executeMatterCommand now handleMatterError
                numberText env_WIFI_SSID env_WIFI_PASSWORD req deviceState in
     status (response r) = 404 /\
     Obj.get "status" (body (response r)) = VStr (lit "error") /\
     calls r = [] /\
     state r = deviceState)
  /\
  (forall (req : obj) (deviceState : registry),
     let r := commissioning_wifi executeMatterCommand now handleMatterError
                numberText req deviceState in
     let nodeId := get_default "nodeId" defaultNodeId req in
     let ssid := Obj.get "ssid" req in
     let password := Obj.get "password" req in
     let discriminator := Obj.get "discriminator" req in
     let command := PairingBleWifi nodeId discriminator ssid password in
     status (response r) <> 404 /\
     (truthy ssid = true -> truthy password = true ->
      Forall (renders numberText) [nodeId; discriminator; ssid; password] ->
      calls r = [command] /\
      (forall result,
         executeMatterCommand command = Done result ->
         Map.get nodeId deviceState = None ->
         status (response r) = 200 /\
         state r = Map.set nodeId (commissioned now [] ssid) deviceState))).
Proof.
  split.
  - intros req deviceState Hg; cbn zeta; unfold device_commission.
    rewrite Hg; cbn; auto.
  - intros req deviceState r nodeId ssid password discriminator command; split.
    + subst r; unfold commissioning_wifi.
      destruct (negb _ || negb _); [discriminate|].
      destruct (interpolate _ _); [|discriminate].
      destruct (executeMatterCommand _); discriminate.
    + intros Hs Hp Hr.
      destruct (TemplateFacts.interpolate_done numberText
                  [nodeId; ssid; nodeId; discriminator; ssid; password])
        as (ss & Hss).
      { inversion Hr as [|? ? Hn Hr1]; subst.
        inversion Hr1 as [|? ? Hd Hr2]; subst.
        inversion Hr2 as [|? ? Hs' Hr3]; subst.
        inversion Hr3 as [|? ? Hp' _]; subst.
        repeat constructor; assumption. }
      subst r; unfold commissioning_wifi;
        fold nodeId ssid password discriminator.
      rewrite Hs, Hp, Hss; cbn [negb orb]. fold command.
      destruct (executeMatterCommand command) as [result|e] eqn:Hx;
        cbn [calls response state status]; (split; [reflexivity|]).
      * intros result' _ Hg; now rewrite Hg.
      * discriminate.
Qed.

End Commission.

End HandlerFacts.

(** The scenario of C8: the body [{discriminator: "123"}]. *)
Lemma pairing_code_without_setupCode_witness :
  let req := [("discriminator", VStr (lit "123"))]%string in
  let r := pairing_code alwaysOk sampleNow sampleErrorDetails decimalText req [] in
  status (response r) = 400 /\
  Obj.get "status" (body (response r)) = VStr (lit "error") /\
  Obj.keys (body (response r)) = ["status"; "message"]%string /\
  calls r = [] /\
  state r = [].
Proof.
  exact (proj1 (pairing_code_without_setupCode alwaysOk sampleNow
                  sampleErrorDetails decimalText)
           [("discriminator", VStr (lit "123"))]%string [] eq_refl).
Defined.

(** The claim C8 fails on the handler of controller.js.  The body
    [{nodeId: "1", manualPairingCode: "34970112332"}] has no [setupCode]
    and is a regular request there: the handler hands the pairing command
    to [exec] and answers 200 with its output.  The body
    [{discriminator: "123"}] of the claim has no [setupCode] either, and
    the handler hands a command to [exec] as well, with undefined for the
    node id and for the code; the answer is 200 when the command succeeds
    and 500 when it fails, never 400. *)
Lemma controller_pairing_code_runs :
  let serve exec :=
    Controller.pairing_code exec decimalText VUndefined VUndefined VUndefined in
  let ok := fun _ : Controller.execCommand => Done (lit "ok") in
  let failing :=
    fun _ : Controller.execCommand =>
      @Throw str (TypeError (lit "Command failed")) in
  let regular :=
    [ ("nodeId", VStr (lit "1"));
      ("manualPairingCode", VStr (lit "34970112332")) ]%string in
  let req := [("discriminator", VStr (lit "123"))]%string in
  (Obj.lookup "setupCode" regular = None /\
   serve ok regular
   = Done (Controller.mkExecEffect
             (mkReply 200 [("result", VStr (lit "ok"))]%string)
             [Controller.ChipCode (VStr (lit "1")) (VStr (lit "34970112332"))])) /\
  (Obj.lookup "setupCode" req = None /\
   serve ok req
   = Done (Controller.mkExecEffect
             (mkReply 200 [("result", VStr (lit "ok"))]%string)
             [Controller.ChipCode VUndefined VUndefined]) /\
   serve failing req
   = Done (Controller.mkExecEffect
             (mkReply 500 [("error", VStr (lit "Command failed"))]%string)
             [Controller.ChipCode VUndefined VUndefined])).
Proof. repeat split. Qed.


(** The claim C1 fails on /api/commissioning/wifi: with an empty registry
    the [nodeId] "7" has no entry, yet the request is answered 200, the
    ble-wifi command runs and the registry gains an entry for "7". *)
Lemma commissioning_wifi_unknown_nodeId_runs :
  let r := commissioning_wifi alwaysOk sampleNow sampleErrorDetails decimalText
             sampleCommission [] in
  Map.get (VStr (lit "7")) [] = None /\
  status (response r) = 200 /\
  calls r = [PairingBleWifi (VStr (lit "7")) (VStr (lit "3840"))
               (VStr (lit "home")) (VStr (lit "secret"))] /\
  Map.get (VStr (lit "7")) (state r)
  = Some [ ("status", VStr (lit "commissioned"));
           ("network", VObj [ ("ssid", VStr (lit "home"));
                              ("timestamp", VStr sampleNow) ]) ]%string.
Proof. repeat split. Qed.

Lemma commission_unknown_device_witness :
  (let r := device_commission alwaysOk sampleNow sampleErrorDetails decimalText
              VUndefined VUndefined sampleDeviceCommission [] in
   status (response r) = 404 /\ calls r = [] /\ state r = []) /\
  (let r := commissioning_wifi alwaysOk sampleNow sampleErrorDetails decimalText
              sampleCommission [] in
   calls r <> [] /\ status (response r) = 200).
Proof.
  split.
  - destruct (proj1 (commission_unknown_device alwaysOk sampleNow
                       sampleErrorDetails decimalText VUndefined VUndefined)
                sampleDeviceCommission [] eq_refl) as (H1 & _ & H2 & H3).
    auto.
  - destruct (proj2 (proj2 (commission_unknown_device alwaysOk sampleNow
                              sampleErrorDetails decimalText VUndefined VUndefined)
                       sampleCommission [])
                eq_refl eq_refl) as (H1 & H2).
    + repeat constructor; eexists; reflexivity.
    + split; [cbn zeta in H1; rewrite H1; discriminate|].
      exact (proj1 (H2 (lit "ok") eq_refl eq_refl)).
Defined.

(** The search over the tagged scenario, read back under "1". *)
Lemma discovered_round_trip_witness :
  exists entry,
    Map.get (VStr (lit "1"))
      (state (device_search findsScenario sampleNow sampleErrorDetails
                Server.parseDiscoveryResult [])) = Some entry /\
    Obj.get "status" entry = VStr (lit "discovered") /\
    Obj.lookup "name" entry = Some (VStr (lit "light1")).
Proof.
  destruct (discovered_round_trip findsScenario sampleNow sampleErrorDetails
              Server.parseDiscoveryResult scenarioTagged []
              (Obj.set "nodeId" (VStr (lit "1"))
                 (Obj.set "vendorId" (VStr (lit "0xFFF1"))
                    (Obj.set "port" (VStr (lit "5540"))
                       (Obj.set "addresses" (VArr [VStr (lit "192.168.1.50")])
                          (Obj.set "name" (VStr (lit "light1")) Server.newDevice)))))
              (or_intror eq_refl) eq_refl)
    as (entry & Hget & _ & Hstatus & _ & Hkeep).
  - vm_compute; left; reflexivity.
  - exists entry; split; [exact Hget|]; split; [exact Hstatus|].
    rewrite Hkeep by discriminate. reflexivity.
Defined.


(* ===================================================================== *)
(** ** Further facts: patterns *)
(* ===================================================================== *)

Module MatchFacts.

Lemma many_nil (p : N -> bool) (r : regex) :
  matchHere (Many p :: r) [] = matchHere r [].
Proof. reflexivity. Qed.

Lemma many_cons (p : N -> bool) (r : regex) (c : N) (s : str) :
  matchHere (Many p :: r) (c :: s)
  = if p c
    then match matchHere (Many p :: r) s with
         | Some n => Some (S n)
         | None => matchHere r (c :: s)
         end
    else matchHere r (c :: s).
Proof. reflexivity. Qed.

Lemma one_cons (p : N -> bool) (r : regex) (c : N) (s : str) :
  matchHere (One p :: r) (c :: s)
  = if p c then option_map S (matchHere r s) else None.
Proof. reflexivity. Qed.

(** A greedy repetition takes a whole run of the class when the rest of
    the pattern matches behind it. *)
Lemma many_run (p : N -> bool) (r : regex) (run rest : str) (n : nat) :
  Forall (fun c => p c = true) run -> stops p rest ->
  matchHere r rest = Some n ->
  matchHere (Many p :: r) (run ++ rest) = Some (List.length run + n).
Proof.
  intros Hrun Hstop Hr; induction Hrun as [|c run Hc _ IH]; cbn [app List.length].
  - destruct rest as [|c rest]; [now rewrite many_nil|].
    cbn in Hstop. now rewrite many_cons, Hstop.
  - now rewrite many_cons, Hc, IH.
Qed.

Lemma literally_app (lit_ : str) (r : regex) (rest : str) (n : nat) :
  matchHere r rest = Some n ->
  matchHere (literally lit_ ++ r) (lit_ ++ rest) = Some (List.length lit_ + n).
Proof.
  intros Hr; induction lit_ as [|c l IH]; [assumption|].
  cbn [literally map app List.length]. rewrite one_cons, N.eqb_refl.
  change (map (fun c0 => One (N.eqb c0)) l) with (literally l).
  now rewrite IH.
Qed.

(** A match of a literal followed by [r] starts with the literal. *)
Lemma literally_inv (lit_ : str) (r : regex) (s : str) (n : nat) :
  matchHere (literally lit_ ++ r) s = Some n ->
  exists rest m, s = lit_ ++ rest /\ matchHere r rest = Some m /\
                 n = List.length lit_ + m.
Proof.
  revert s n; induction lit_ as [|c l IH]; intros s n H.
  - exists s, n; auto.
  - cbn [literally map app] in H.
    change (map (fun c0 => One (N.eqb c0)) l) with (literally l) in H.
    destruct s as [|x s]; [discriminate|]. rewrite one_cons in H.
    destruct (N.eqb_spec c x) as [->|]; [|discriminate].
    destruct (matchHere (literally l ++ r) s) as [k|] eqn:E; [|discriminate].
    injection H as <-. destruct (IH s k E) as (rest & m & -> & Hm & ->).
    exists rest, m; auto.
Qed.

(** What a repetition that ends the pattern has matched is in the class. *)
Lemma many_last_inv (p : N -> bool) (s : str) (n : nat) :
  matchHere [Many p] s = Some n ->
  Forall (fun c => p c = true) (firstn n s) /\ n <= List.length s.
Proof.
  revert n; induction s as [|c s IH]; intros n.
  - rewrite many_nil; intros [= <-]; split; [constructor|reflexivity].
  - rewrite many_cons. destruct (p c) eqn:Hc.
    + destruct (matchHere [Many p] s) as [k|] eqn:E.
      * intros [= <-]; destruct (IH k eq_refl) as [Hall Hlen]; cbn; split;
          [now constructor|lia].
      * cbn; intros [= <-]; split; [constructor|cbn; lia].
    + cbn; intros [= <-]; split; [constructor|cbn; lia].
Qed.

Lemma plus_last_inv (p : N -> bool) (s : str) (n : nat) :
  matchHere (plus p) s = Some n ->
  0 < n /\ Forall (fun c => p c = true) (firstn n s) /\ n <= List.length s.
Proof.
  unfold plus; destruct s as [|c s]; [discriminate|]. rewrite one_cons.
  destruct (p c) eqn:Hc; [|discriminate].
  destruct (matchHere [Many p] s) as [k|] eqn:E; [|discriminate].
  intros [= <-]; destruct (many_last_inv p s k E) as [Hall Hlen].
  cbn; repeat split; [lia|now constructor|lia].
Qed.

Lemma firstMatch_inv (r : regex) (s text : str) :
  firstMatch r s = Some text ->
  exists before after n,
    s = before ++ after /\ matchHere r after = Some n /\ text = firstn n after.
Proof.
  induction s as [|c s IH]; cbn [firstMatch].
  - destruct (matchHere r []) as [n|] eqn:E; [|discriminate].
    intros [= <-]; exists [], [], n; auto.
  - destruct (matchHere r (c :: s)) as [n|] eqn:E.
    + intros [= <-]; exists [], (c :: s), n; auto.
    + intros H; destruct (IH H) as (b & a & n & -> & Hm & ->).
      exists (c :: b), a, n; auto.
Qed.

Lemma startsWith_app (p rest : str) : startsWith p (p ++ rest) = true.
Proof. induction p as [|c p IH]; cbn; [reflexivity|now rewrite N.eqb_refl]. Qed.

Lemma includes_app (p before rest : str) :
  includes p (before ++ p ++ rest) = true.
Proof.
  induction before as [|c b IH]; cbn [app].
  - destruct (p ++ rest) eqn:E; cbn [includes];
      rewrite <- E, startsWith_app; reflexivity.
  - cbn [includes]. now rewrite IH, orb_true_r.
Qed.

(** A text that is included comes with the texts before and after it. *)
Lemma startsWith_inv (p s : str) :
  startsWith p s = true -> exists rest, s = p ++ rest.
Proof.
  revert s; induction p as [|c p IH]; intros s; cbn; [eauto|].
  destruct s as [|d s]; [discriminate|].
  intros H; apply andb_true_iff in H as [Hc Hp].
  apply N.eqb_eq in Hc; subst d.
  destruct (IH s Hp) as (rest & ->); eauto.
Qed.

Lemma includes_inv (p s : str) :
  includes p s = true -> exists before rest, s = before ++ p ++ rest.
Proof.
  induction s as [|c s IH]; cbn [includes]; intros H;
    apply orb_true_iff in H as [H|H]; try discriminate.
  - apply startsWith_inv in H as (rest & ->). now exists [], rest.
  - apply startsWith_inv in H as (rest & ->). now exists [], rest.
  - destruct (IH H) as (before & rest & ->). now exists (c :: before), rest.
Qed.

(** Whoever includes a text includes its beginning. *)
Lemma includes_prefix (p q s : str) :
  includes (p ++ q) s = true -> includes p s = true.
Proof.
  intros H; apply includes_inv in H as (before & rest & ->).
  rewrite <- app_assoc. apply includes_app.
Qed.

End MatchFacts.

(** What the pattern /CHIP Error (0x[0-9a-fA-F]+)/ captures. *)
Lemma chipErrorMatch_hex (message : str) (stderr : option str) (errorCode : str) :
  ErrorsPart002.chipErrorMatch message stderr = Some errorCode ->
  (exists digits,
     errorCode = lit "0x" ++ digits /\ digits <> [] /\
     Forall (fun c => is_hex c = true) digits) /\
  includes (lit "CHIP Error " ++ errorCode)
           (ErrorsPart002.errorText message stderr) = true.
Proof.
  unfold ErrorsPart002.chipErrorMatch.
  destruct (firstMatch ErrorsPart002.chipError _) as [text|] eqn:E; [|discriminate].
  cbn [option_map]; intros [= <-].
  apply MatchFacts.firstMatch_inv in E as (before & after & n & Htext & Hm & ->).
  unfold ErrorsPart002.chipError in Hm.
  apply MatchFacts.literally_inv in Hm as (rest & m & -> & Hm & ->).
  apply MatchFacts.plus_last_inv in Hm as (Hpos & Hall & Hlen).
  assert (Hfirst : firstn (List.length (lit "CHIP Error 0x") + m)
                     (lit "CHIP Error 0x" ++ rest)
                   = lit "CHIP Error 0x" ++ firstn m rest).
  { rewrite firstn_app, firstn_all2 by (cbn; lia).
    replace (List.length (lit "CHIP Error 0x") + m
             - List.length (lit "CHIP Error 0x")) with m by lia.
    reflexivity. }
  rewrite Hfirst. split.
  - exists (firstn m rest); split; [reflexivity|]; split; [|assumption].
    destruct rest as [|c rest]; [cbn in Hlen; lia|].
    destruct m; [lia|discriminate].
  - rewrite Htext.
    change (lit "CHIP Error " ++ skipn 11 (lit "CHIP Error 0x" ++ firstn m rest))
      with (lit "CHIP Error 0x" ++ firstn m rest).
    rewrite <- (firstn_skipn m rest) at 2.
    rewrite !app_assoc, <- (app_assoc before), <- app_assoc.
    apply MatchFacts.includes_app.
Qed.

(** The errorCode that [handleMatterError] of part_002 and of the last
    server of server.js reports: whenever its result has an [errorCode],
    that is the string "0x" followed by one hexadecimal digit or more, and
    "CHIP Error " followed by that code stands in the message of the error
    or in its stderr.  The code is then TIMEOUT_ERROR, with the errorCode
    "0x00000032", or MATTER_SDK_ERROR, with the code of the first CHIP
    error of the message, or of stderr when the message is empty. *)
Theorem chip_error_code_is_hex (message : str) (stderr : option str)
    (errorCode : value) :
  let details := ErrorsPart002.handleMatterError message stderr in
  Obj.lookup "errorCode" details = Some errorCode ->
  exists digits,
    errorCode = VStr (lit "0x" ++ digits) /\
    digits <> [] /\
    Forall (fun c => is_hex c = true) digits /\
    (includes (lit "CHIP Error 0x" ++ digits) message = true \/
     stderrIncludes (lit "CHIP Error 0x" ++ digits) stderr = true) /\
    ((Obj.get "code" details = VStr (lit "TIMEOUT_ERROR") /\
      digits = lit "00000032") \/
     (Obj.get "code" details = VStr (lit "MATTER_SDK_ERROR") /\
      ErrorsPart002.chipErrorMatch message stderr = Some (lit "0x" ++ digits))).
Proof.
  intros details; subst details; unfold ErrorsPart002.handleMatterError.
  destruct (includes ErrorsPart002.timeoutText message
            || stderrIncludes ErrorsPart002.timeoutText stderr) eqn:Htimeout.
  - cbn [Obj.lookup String.eqb Ascii.eqb Bool.eqb]. intros [= <-].
    exists (lit "00000032"). split; [reflexivity|]. split; [discriminate|].
    split; [repeat constructor|]. split; [|left; split; reflexivity].
    apply orb_true_iff in Htimeout as [H|H]; [left|right].
    + exact (MatchFacts.includes_prefix (lit "CHIP Error 0x00000032")
               (lit ": Timeout") message H).
    + destruct stderr as [s|]; [|discriminate].
      exact (MatchFacts.includes_prefix (lit "CHIP Error 0x00000032")
               (lit ": Timeout") s H).
  - destruct (includes (lit "CHIP:BLE") message); [discriminate|].
    destruct (includes (lit "CHIP:DMG") message); [discriminate|].
    destruct (includes (lit "not found") message); [discriminate|].
    destruct (ErrorsPart002.chipErrorMatch message stderr) as [code|] eqn:Hmatch.
    + cbn [Obj.lookup String.eqb Ascii.eqb Bool.eqb]. intros [= <-].
      destruct (chipErrorMatch_hex message stderr code Hmatch)
        as ((digits & -> & Hne & Hhex) & Hin).
      exists digits. split; [reflexivity|]. split; [assumption|].
      split; [assumption|]. split; [|right; split; reflexivity].
      unfold ErrorsPart002.errorText in Hin.
      destruct (truthy (VStr message)); [now left|].
      destruct stderr as [s|]; [now right|discriminate].
    + destruct (stderrGiven stderr); discriminate.
Qed.

(** A failed pairing with a CHIP error in its message. *)
Lemma chip_error_code_is_hex_witness :
  exists digits,
    VStr (lit "0x000000AC") = VStr (lit "0x" ++ digits) /\
    digits <> [] /\
    Forall (fun c => is_hex c = true) digits.
Proof.
  destruct (chip_error_code_is_hex
              (lit "Run command failure: CHIP Error 0x000000AC: Internal error")
              None (VStr (lit "0x000000AC")) eq_refl)
    as (digits & H1 & H2 & H3 & _).
  exists digits; auto.
Defined.

Module PrefixFacts.

Lemma then_chr (a : ascii) (r : regex) (rest out : str) :
  matchesThen r rest out ->
  matchesThen (chr a :: r) (N_of_ascii a :: rest) out.
Proof.
  intros (n & Hm & Hs); exists (S n); unfold chr.
  now rewrite MatchFacts.one_cons, N.eqb_refl, Hm.
Qed.

Lemma then_many (p : N -> bool) (r : regex) (run rest out : str) :
  Forall (fun c => p c = true) run -> stops p rest ->
  matchesThen r rest out ->
  matchesThen (Many p :: r) (run ++ rest) out.
Proof.
  intros Hrun Hstop (n & Hm & Hs); exists (List.length run + n); split.
  - now apply MatchFacts.many_run.
  - now rewrite skipn_app, skipn_all2, Nat.add_comm, Nat.add_sub by lia.
Qed.

Lemma then_plus (p : N -> bool) (r : regex) (run rest out : str) :
  run <> [] -> Forall (fun c => p c = true) run -> stops p rest ->
  matchesThen r rest out ->
  matchesThen (plus p ++ r) (run ++ rest) out.
Proof.
  intros Hne Hrun Hstop Hr. destruct run as [|c run]; [congruence|].
  inversion Hrun as [|? ? Hc Hrun']; subst.
  destruct (then_many p r run rest out Hrun' Hstop Hr) as (n & Hm & Hs).
  exists (S n); cbn [plus app]. now rewrite MatchFacts.one_cons, Hc, Hm.
Qed.

Lemma then_spaces (s : str) : matchesThen [Many is_space] s (trimStart s).
Proof.
  induction s as [|c s (n & Hm & Hs)]; [now exists 0|].
  rewrite (ltac:(reflexivity) : trimStart (c :: s)
                                = if is_space c then trimStart s else c :: s).
  destruct (is_space c) eqn:Hc.
  - exists (S n). now rewrite MatchFacts.many_cons, Hc, Hm.
  - exists 0. now rewrite MatchFacts.many_cons, Hc.
Qed.

Lemma replaceFirst_here (r : regex) (s : str) (n : nat) :
  matchHere r s = Some n -> replaceFirst r s = skipn n s.
Proof. intros H; destruct s; cbn [replaceFirst]; now rewrite H. Qed.

Lemma trimStart_idem (s : str) : trimStart (trimStart s) = trimStart s.
Proof.
  induction s as [|c s IH]; [reflexivity|]. cbn [trimStart].
  destruct (is_space c) eqn:Hc; [assumption|]. cbn [trimStart]. now rewrite Hc.
Qed.

End PrefixFacts.

(** The log prefix of chip-tool: [cleanLine] of part_002 removes a prefix
    "[seconds.millis] [pid:tid] [TAG]" from the start of a line, whatever
    its numbers, its tag and the blanks between its brackets, and returns
    the rest of the line trimmed. *)
Theorem cleanLine_strips_log_prefix
    (seconds millis pid tid tag blanks1 blanks2 rest : str) :
  digitRun seconds -> digitRun millis -> digitRun pid -> digitRun tid ->
  wordRun tag -> blankRun blanks1 -> blankRun blanks2 ->
  Part002.cleanLine
    (logPrefixText seconds millis blanks1 pid tid blanks2 tag ++ rest)
  = trim rest.
Proof.
  intros [Hs1 Hs2] [Hm1 Hm2] [Hp1 Hp2] [Ht1 Ht2] [Hw1 Hw2] Hb1 Hb2.
  assert (H : matchesThen Part002.logPrefix
                (logPrefixText seconds millis blanks1 pid tid blanks2 tag ++ rest)
                (trimStart rest)).
  { unfold logPrefixText, Part002.logPrefix. rewrite <- !app_assoc.
    cbn [lit app].
    apply (PrefixFacts.then_chr "["), PrefixFacts.then_plus; [assumption..|reflexivity|].
    apply (PrefixFacts.then_chr "."), PrefixFacts.then_plus; [assumption..|reflexivity|].
    apply (PrefixFacts.then_chr "]"), PrefixFacts.then_many; [assumption|reflexivity|].
    apply (PrefixFacts.then_chr "["), PrefixFacts.then_plus; [assumption..|reflexivity|].
    apply (PrefixFacts.then_chr ":"), PrefixFacts.then_plus; [assumption..|reflexivity|].
    apply (PrefixFacts.then_chr "]"), PrefixFacts.then_many; [assumption|reflexivity|].
    apply (PrefixFacts.then_chr "["), PrefixFacts.then_plus; [assumption..|reflexivity|].
    apply (PrefixFacts.then_chr "]"), PrefixFacts.then_spaces. }
  destruct H as (n & Hmatch & Hskip).
  unfold Part002.cleanLine.
  rewrite (PrefixFacts.replaceFirst_here _ _ n Hmatch), Hskip.
  unfold trim. now rewrite PrefixFacts.trimStart_idem.
Qed.

(** The prefix of the sample lines, before a hostname line. *)
Lemma cleanLine_strips_log_prefix_witness :
  Part002.cleanLine
    (lit "[1744266250.301] [47866:47868] [DIS]" ++ lit " 	Hostname: light1 ")
  = lit "Hostname: light1".
Proof.
  refine (cleanLine_strips_log_prefix
            (lit "1744266250") (lit "301") (lit "47866") (lit "47868") (lit "DIS")
            (lit " ") (lit " ") (lit " 	Hostname: light1 ") _ _ _ _ _ _ _);
    try (split; [discriminate|]); repeat constructor.
Defined.

(* ===================================================================== *)
(** ** Further facts: node ids and records *)
(* ===================================================================== *)

Lemma generateNodeIds_spec (count : nat) (lastId : N) :
  (lastId + N.of_nat count <= maxExact)%N ->
  generateNodeIds count lastId
  = (map (fun i => toString (N.to_nat lastId + i)) (seq 1 count),
     (lastId + N.of_nat count)%N).
Proof.
  revert lastId; induction count as [|count IH]; intros lastId Hle;
    cbn [generateNodeIds].
  - cbn [seq map]. now rewrite N.add_0_r.
  - unfold generateNodeId.
    assert (Hlt : (lastId <? maxExact)%N = true) by (apply N.ltb_lt; lia).
    rewrite Hlt, IH by lia. cbn [seq map]. f_equal.
    + f_equal; [f_equal; lia|].
      rewrite <- (seq_shift count 1), map_map.
      apply map_ext; intros i; f_equal; lia.
    + lia.
Qed.

Lemma NoDup_map_injective {A B : Type} (f : A -> B) (l : list A) :
  (forall x y, f x = f y -> x = y) -> NoDup l -> NoDup (map f l).
Proof.
  intros Hinj; induction 1 as [|x l Hx _ IH]; cbn; constructor; [|assumption].
  intros Hin; apply in_map_iff in Hin as (y & Hy & Hin).
  apply Hinj in Hy; now subst.
Qed.

(** [generateNodeId] does not repeat itself below 2^53: while the counter
    stays within 2^53, the ids of any number of calls in a row are the
    decimal strings of lastId+1, lastId+2, ... in that order, all
    different, and the counter ends that many higher.  At 2^53 the
    counter stays where it is, and from then on every call returns the
    same id. *)
Theorem generateNodeId_fresh (count : nat) (lastId : N) :
  ((lastId + N.of_nat count <= maxExact)%N ->
   fst (generateNodeIds count lastId)
   = map (fun i => toString (N.to_nat lastId + i)) (seq 1 count) /\
   snd (generateNodeIds count lastId) = (lastId + N.of_nat count)%N /\
   NoDup (fst (generateNodeIds count lastId))) /\
  generateNodeId (snd (generateNodeId maxExact)) = generateNodeId maxExact.
Proof.
  split.
  - intros Hle. rewrite generateNodeIds_spec by assumption; cbn [fst snd].
    split; [reflexivity|]; split; [reflexivity|].
    apply NoDup_map_injective; [|apply seq_NoDup].
    intros x y E; apply ToStringFacts.toString_inj in E; lia.
  - unfold generateNodeId. rewrite N.ltb_irrefl; cbn [snd].
    now rewrite N.ltb_irrefl.
Qed.

(** The first three calls after the start give "1", "2" and "3". *)
Lemma generateNodeId_fresh_witness :
  fst (generateNodeIds 3 0) = [lit "1"; lit "2"; lit "3"] /\
  snd (generateNodeIds 3 0) = 3%N.
Proof.
  destruct (proj1 (generateNodeId_fresh 3 0)) as (H1 & H2 & _).
  - vm_compute; discriminate.
  - split; [exact H1|exact H2].
Defined.

Lemma recordsOf_no_start
    (body : scanState -> str -> outcome scanState) (isStart : str -> bool)
    (lines : list str) :
  List.length (recordsOf body lines) = List.length (filter isStart lines) ->
  filter isStart lines = [] -> recordsOf body lines = [].
Proof. intros Hlen Hnone; rewrite Hnone in Hlen. now apply length_zero_iff_nil. Qed.

(** Both parsers number the records of their loop. *)
Lemma parsers_numbered :
  numbered Part002.parseDiscoveryResult Part002.loopBody Part002.assignNodeId
           Part002.isStart /\
  numbered Server.parseDiscoveryResult Server.loopBody Server.assignNodeId
           Server.isStart.
Proof.
  split; apply numbered_of_records.
  - apply Part002Facts.part002_parse_records.
  - intros lines; now destruct (Part002Facts.part002_records_total lines) as (_&_&_&_&H).
  - apply Part002Facts.part002_get_nodeId.
  - intros; apply (recordsOf_app _ Part002.newDevice Part002.isStart
                     Part002.field Part002.good); auto using
      Part002Facts.part002_good_fresh, Part002Facts.part002_loopBody_start,
      Part002Facts.part002_loopBody_closed, Part002Facts.part002_loopBody_field,
      Part002Facts.part002_field_good.
  - apply ServerFacts.server_parse_records.
  - intros lines; now destruct (ServerFacts.server_records_total lines) as (_&_&_&_&H).
  - apply ServerFacts.server_get_nodeId.
  - intros; apply (recordsOf_app _ Server.newDevice Server.isStart
                     Server.field Server.good); auto using
      ServerFacts.server_good_fresh, ServerFacts.server_loopBody_start,
      ServerFacts.server_loopBody_closed, ServerFacts.server_loopBody_field,
      ServerFacts.server_field_good.
Qed.

(** Lines before the first node-start line are ignored: when a line of the
    output starts a record and none before it does, either parser returns
    what it returns for the output from that line on. *)
Theorem lines_before_first_start_ignored
    (result : str) (before : list str) (line : str) (after : list str) :
  split LF result = before ++ line :: after ->
  (Part002.isStart line = true ->
   filter Part002.isStart before = [] ->
   Part002.parseDiscoveryResult result
   = map_index Part002.assignNodeId 0
       (recordsOf Part002.loopBody (line :: after))) /\
  (Server.isStart line = true ->
   filter Server.isStart before = [] ->
   Server.parseDiscoveryResult result
   = map_index Server.assignNodeId 0
       (recordsOf Server.loopBody (line :: after))).
Proof.
  intros Hlines; destruct parsers_numbered as [H1 H2]; split;
    intros Hstart Hnone.
  - destruct (H1 result) as (Hparse & _ & _ & Happ).
    cbn zeta in Hparse, Happ. rewrite Hparse, (Happ before line after Hlines Hstart).
    rewrite (recordsOf_no_start _ Part002.isStart before); [reflexivity| |assumption].
    now destruct (Part002Facts.part002_records_total before) as (_&_&_&_&H).
  - destruct (H2 result) as (Hparse & _ & _ & Happ).
    cbn zeta in Hparse, Happ. rewrite Hparse, (Happ before line after Hlines Hstart).
    rewrite (recordsOf_no_start _ Server.isStart before); [reflexivity| |assumption].
    now destruct (ServerFacts.server_records_total before) as (_&_&_&_&H).
Qed.

(** A banner and a blank line before the two tagged blocks. *)
Lemma lines_before_first_start_ignored_witness :
  Server.parseDiscoveryResult (lit "[1744266249.007] [47866:47868] [CTL] Waiting" ++ LF ++ LF ++ twoBlocks)
  = Server.parseDiscoveryResult twoBlocks.
Proof.
  pose (noise := [lit "[1744266249.007] [47866:47868] [CTL] Waiting"; []]).
  pose (lines := split LF twoBlocks).
  destruct lines as [|line after] eqn:E; [discriminate E|].
  pose proof (proj2 (lines_before_first_start_ignored
                       (lit "[1744266249.007] [47866:47868] [CTL] Waiting" ++ LF ++ LF ++ twoBlocks)
                       noise line after
                       ltac:(subst lines noise; vm_compute in E |- *;
                             injection E as <- <-; reflexivity))) as H.
  rewrite H.
  - subst lines; vm_compute in E; injection E as <- <-; vm_compute; reflexivity.
  - subst lines; vm_compute in E; injection E as <- <-; vm_compute; reflexivity.
  - reflexivity.
Defined.

Module SchemaFacts.

Lemma conforms_set (schema : list (string * kind)) (d : obj) (k : string)
      (kd : kind) (v : value) :
  conforms schema d -> kindOf k schema = Some kd -> hasKind kd v ->
  conforms schema (Obj.set k v d).
Proof.
  intros Hc; induction Hc as [|[k0 v0] [k1 kd1] d schema [Hk Hv] Hrest IH];
    cbn in *; [discriminate|].
  subst k1. destruct (String.eqb k0 k).
  - intros [= <-] Hkd; constructor; [now split|assumption].
  - intros Hkind Hkd; constructor; [now split|now apply IH].
Qed.

Lemma conforms_get (schema : list (string * kind)) (d : obj) (k : string)
      (kd : kind) :
  conforms schema d -> kindOf k schema = Some kd -> hasKind kd (Obj.get k d).
Proof.
  unfold Obj.get.
  intros Hc; induction Hc as [|[k0 v0] [k1 kd1] d schema [Hk Hv] Hrest IH];
    cbn in *; [discriminate|].
  subst k1. destruct (String.eqb k0 k); [now intros [= <-]|assumption].
Qed.

Lemma conforms_append (schema : list (string * kind)) (d : obj) (k : string)
      (kd : kind) (v : value) :
  conforms schema d -> kindOf k schema = None -> hasKind kd v ->
  conforms (schema ++ [(k, kd)]) (Obj.set k v d).
Proof.
  intros Hc; induction Hc as [|[k0 v0] [k1 kd1] d schema [Hk Hv] Hrest IH];
    cbn in *.
  - intros _ Hkd; repeat constructor; assumption.
  - subst k1. destruct (String.eqb k0 k); [discriminate|].
    intros Hkind Hkd; constructor; [now split|now apply IH].
Qed.

Lemma conforms_keys (schema : list (string * kind)) (d : obj) :
  conforms schema d -> Obj.keys d = map fst schema.
Proof.
  unfold Obj.keys; induction 1 as [|[k0 v0] [k1 kd1] d schema [Hk Hv] _ IH];
    cbn in *; [reflexivity|congruence].
Qed.

Lemma conforms_push (schema : list (string * kind)) (d d' : obj)
      (strict : bool) (address : str) :
  conforms schema d -> kindOf "addresses" schema = Some (KAddresses strict) ->
  address <> [] -> (strict = true -> address <> lit "not present") ->
  push "addresses" (VStr address) d = Done d' -> conforms schema d'.
Proof.
  intros Hc Hk Hne Hnp. unfold push.
  destruct (conforms_get _ _ _ _ Hc Hk) as (items & -> & Hall).
  intros [= <-]. apply (conforms_set _ _ _ (KAddresses strict)); auto.
  exists (items ++ [VStr address]); split; [reflexivity|].
  apply Forall_app; split; [assumption|]. repeat constructor. eauto.
Qed.

Lemma truthy_nonempty (a : str) : truthy (VStr a) = true -> a <> [].
Proof. intros H ->; discriminate. Qed.

Lemma part002_parseField (d d' : obj) (cleanedLine : str) :
  conforms part002Open d -> Part002.parseField d cleanedLine = Done d' ->
  conforms part002Open d'.
Proof.
  intros Hd; unfold Part002.parseField.
  repeat match goal with
         | |- context [if startsWith ?p cleanedLine then _ else _] =>
             destruct (startsWith p cleanedLine)
         end;
    try (intros [= <-]; first
           [ assumption
           | apply (conforms_set _ _ _ KString); [assumption|reflexivity|cbn; eauto]
           | apply (conforms_set _ _ _ KBoolean); [assumption|reflexivity|cbn; eauto] ]).
  destruct (truthy (VStr (Part002.extractValue cleanedLine))) eqn:Ht;
    [|now intros [= <-]].
  apply (conforms_push _ _ _ false); auto using truthy_nonempty; discriminate.
Qed.

Lemma server_parseField (d d' : obj) (cleanLine : str) :
  conforms serverSchema d -> Server.parseField d cleanLine = Done d' ->
  conforms serverSchema d'.
Proof.
  intros Hd; unfold Server.parseField.
  destruct (includes (lit "Hostname:") cleanLine);
    [intros [= <-]; apply (conforms_set _ _ _ KString);
       [assumption|reflexivity|cbn; eauto]|].
  destruct (includes (lit "IP Address #") cleanLine).
  - destruct (Server.addressOf cleanLine) as [address|e]; cbn [bind];
      [|discriminate].
    destruct (truthy (VStr address)
              && negb (JsString.eqb address (lit "not present"))) eqn:Hc;
      [|now intros [= <-]].
    apply andb_true_iff in Hc as [Ht Hnp].
    apply (conforms_push _ _ _ true); auto using truthy_nonempty.
    intros _ ->; discriminate.
  - repeat match goal with
           | |- context [if includes ?p cleanLine then _ else _] =>
               destruct (includes p cleanLine)
           end;
      intros [= <-]; first
        [ assumption
        | apply (conforms_set _ _ _ KString); [assumption|reflexivity|cbn; eauto] ].
Qed.

Lemma part002_field (d : obj) (line : str) :
  Part002.isStart line = false ->
  Part002.good d /\ conforms part002Open d ->
  exists d', Part002.field d line = Done d' /\
             (Part002.good d' /\ conforms part002Open d').
Proof.
  intros Hs [Hg Hc].
  destruct (Part002Facts.part002_field_good d line Hs Hg) as (d' & Hf & Hg').
  exists d'; split; [assumption|]; split; [assumption|].
  now apply (part002_parseField d d' (Part002.cleanLine line)).
Qed.

Lemma server_field (d : obj) (line : str) :
  Server.isStart line = false ->
  Server.good d /\ conforms serverSchema d ->
  exists d', Server.field d line = Done d' /\
             (Server.good d' /\ conforms serverSchema d').
Proof.
  intros Hs [Hg Hc].
  destruct (ServerFacts.server_field_good d line Hs Hg) as (d' & Hf & Hg').
  exists d'; split; [assumption|]; split; [assumption|].
  unfold Server.field in Hf.
  destruct (negb (includes (lit "[DIS]") line)); [now injection Hf as <-|].
  now apply (server_parseField d d' (Server.removeAnsiEscapes (trim line))).
Qed.

Lemma newDevice_part002 : conforms part002Open Part002.newDevice.
Proof. repeat constructor; cbn; eauto. Qed.

Lemma newDevice_server : conforms serverSchema Server.newDevice.
Proof. repeat constructor; cbn; eauto. Qed.

End SchemaFacts.

Lemma part002_shape (result : str) (d : obj) :
  In d (Part002.parseDiscoveryResult result) ->
  conforms part002Schema d /\ Obj.keys d = map fst part002Schema.
Proof.
  intros Hin.
  assert (Hc : conforms part002Schema d); [|split; [assumption|]].
  - rewrite Part002Facts.part002_parse_records in Hin.
    apply MapIndexFacts.in_map_index in Hin as (x & n & Hx & ->).
    destruct (recordsOf_total Part002.loopBody Part002.newDevice Part002.isStart
                Part002.field
                (fun d => Part002.good d /\ conforms part002Open d)
                (conj Part002Facts.part002_good_fresh SchemaFacts.newDevice_part002)
                Part002Facts.part002_loopBody_start
                Part002Facts.part002_loopBody_closed
                Part002Facts.part002_loopBody_field
                SchemaFacts.part002_field (split LF result))
      as (_ & _ & _ & Hall & _).
    rewrite Forall_forall in Hall. destruct (Hall x Hx) as [_ Hopen].
    unfold Part002.assignNodeId, part002Schema.
    change (part002Open ++ [("nodeId"%string, KString);
                            ("type"%string, KText (lit "wifi"))])
      with ((part002Open ++ [("nodeId"%string, KString)])
              ++ [("type"%string, KText (lit "wifi"))]).
    apply SchemaFacts.conforms_append; [|reflexivity|reflexivity].
    apply SchemaFacts.conforms_append; [assumption|reflexivity|cbn; eauto].
  - now apply SchemaFacts.conforms_keys.
Qed.

(** The records of part_002 have one shape: every record returned has the
    thirteen properties name, addresses, port, vendorId, productId,
    deviceType, discriminator, pairingHint, instanceName,
    commissioningMode, supportsCommissionerGeneratedPasscode, nodeId and
    type, in this order; addresses is an array of non-empty strings, the
    passcode flag a boolean, type 'wifi', every other one a string. *)
Theorem part002_record_shape (result : str) (d : obj) :
  In d (Part002.parseDiscoveryResult result) ->
  conforms part002Schema d /\ Obj.keys d = map fst part002Schema.
Proof. exact (part002_shape result d). Qed.

Lemma part002_record_shape_witness :
  Obj.keys (hd [] (Part002.parseDiscoveryResult scenario))
  = map fst part002Schema.
Proof.
  refine (proj2 (part002_record_shape scenario _ _)).
  vm_compute; left; reflexivity.
Defined.

Lemma server_shape (result : str) (d : obj) :
  In d (Server.parseDiscoveryResult result) ->
  conforms serverSchema d /\ Obj.keys d = map fst serverSchema.
Proof.
  intros Hin.
  assert (Hc : conforms serverSchema d); [|split; [assumption|]].
  - rewrite ServerFacts.server_parse_records in Hin.
    apply MapIndexFacts.in_map_index in Hin as (x & n & Hx & ->).
    destruct (recordsOf_total Server.loopBody Server.newDevice Server.isStart
                Server.field
                (fun d => Server.good d /\ conforms serverSchema d)
                (conj ServerFacts.server_good_fresh SchemaFacts.newDevice_server)
                ServerFacts.server_loopBody_start
                ServerFacts.server_loopBody_closed
                ServerFacts.server_loopBody_field
                SchemaFacts.server_field (split LF result))
      as (_ & _ & _ & Hall & _).
    rewrite Forall_forall in Hall. destruct (Hall x Hx) as [_ Hopen].
    unfold Server.assignNodeId.
    apply (SchemaFacts.conforms_set _ _ _ KString); [assumption|reflexivity|].
    cbn; eauto.
  - now apply SchemaFacts.conforms_keys.
Qed.

(** The records of server.js have one shape: every record returned has the
    thirteen properties nodeId, name, setupPinCode, setupDiscriminator,
    vendorId, productId, deviceType, instanceName, addresses, port,
    pairingHint, commissioningMode and type, in this order; addresses is an
    array of non-empty strings other than 'not present', setupPinCode is
    the empty string (the parser never fills it), type 'wifi', every
    other one a string. *)
Theorem server_record_shape (result : str) (d : obj) :
  In d (Server.parseDiscoveryResult result) ->
  conforms serverSchema d /\ Obj.keys d = map fst serverSchema.
Proof. exact (server_shape result d). Qed.

Lemma server_record_shape_witness :
  Obj.get "setupPinCode" (hd [] (Server.parseDiscoveryResult scenarioTagged))
  = VStr [].
Proof.
  destruct (server_record_shape scenarioTagged
              (hd [] (Server.parseDiscoveryResult scenarioTagged))) as [Hc _].
  - vm_compute; left; reflexivity.
  - exact (SchemaFacts.conforms_get serverSchema _ "setupPinCode" (KText [])
             Hc eq_refl).
Defined.

(* ===================================================================== *)
(** ** Further facts: escape sequences across lines *)
(* ===================================================================== *)

Module WholeFacts.

Import Server.

Lemma tail_cut (p : N -> bool) (m : N) (t u : str) (n : nat) :
  p m = false ->
  matchHere [Many p; One (N.eqb m)] (t ++ u) = Some n ->
  match u with [] => True | c :: _ => p c = false /\ c <> m end ->
  matchHere [Many p; One (N.eqb m)] t = Some n.
Proof.
  intros Hpm; revert n; induction t as [|c t IH]; intros n H Hu; cbn [app] in H.
  - exfalso. destruct u as [|c u]; [discriminate|].
    destruct Hu as (Hp & Hm).
    rewrite MatchFacts.many_cons, Hp, MatchFacts.one_cons in H.
    destruct (N.eqb_spec m c) as [<-|]; [now apply Hm|discriminate].
  - rewrite MatchFacts.many_cons in H |- *. destruct (p c) eqn:Hc.
    + destruct (matchHere [Many p; One (N.eqb m)] (t ++ u)) as [k|] eqn:E.
      * now rewrite (IH k eq_refl Hu).
      * exfalso. rewrite MatchFacts.one_cons in H.
        destruct (N.eqb_spec m c) as [<-|]; [congruence|discriminate].
    + rewrite MatchFacts.one_cons in H |- *.
      destruct (N.eqb m c); [|discriminate].
      cbn in H |- *; assumption.
Qed.

(** A sequence that matches in a longer subject matches in the part of it
    that ends where no sequence can go on. *)
Lemma match_cut (t u : str) (n : nat) :
  t <> [] -> matchHere ansiEscape (t ++ u) = Some n -> inert u ->
  matchHere ansiEscape t = Some n.
Proof.
  intros Ht H Hu. destruct t as [|c0 t]; [congruence|]. clear Ht.
  unfold ansiEscape, chr in *; cbn [app] in H.
  rewrite MatchFacts.one_cons in H |- *.
  destruct (N.eqb ESC c0); [|discriminate].
  destruct t as [|c1 t]; cbn [app] in H.
  - exfalso. destruct u as [|c u]; [discriminate|].
    destruct Hu as (Hb & _). rewrite MatchFacts.one_cons in H.
    destruct (N.eqb_spec (N_of_ascii "[") c) as [<-|]; [now apply Hb|discriminate].
  - rewrite MatchFacts.one_cons in H |- *.
    destruct (N.eqb (N_of_ascii "[") c1); [|discriminate].
    destruct (matchHere _ (t ++ u)) as [k|] eqn:E; [|discriminate].
    rewrite (tail_cut _ _ t u k eq_refl E); [assumption|].
    destruct u as [|x u]; [exact I|]. destruct Hu as (_ & Hp & Hm); now split.
Qed.

Lemma whole_cut (t u : str) :
  wholeEscapes (t ++ u) = true -> inert u -> wholeEscapes t = true.
Proof.
  intros H Hu; induction t as [|c t IH]; [reflexivity|].
  cbn [app] in H. rewrite EscapeFacts.wholeEscapes_cons in H |- *.
  apply andb_true_iff in H as [Hc Ht]. rewrite (IH Ht), andb_true_r.
  destruct (N.eqb c ESC); [|reflexivity].
  change (c :: t ++ u) with ((c :: t) ++ u) in Hc.
  destruct (matchHere ansiEscape ((c :: t) ++ u)) as [n|] eqn:E; [|discriminate].
  now rewrite (match_cut (c :: t) u n ltac:(discriminate) E Hu).
Qed.

Lemma whole_tail (c : N) (s : str) :
  wholeEscapes (c :: s) = true -> wholeEscapes s = true.
Proof.
  rewrite EscapeFacts.wholeEscapes_cons; intros H.
  now apply andb_true_iff in H as [_ H].
Qed.

Lemma split_LF_cons (c : N) (s : str) :
  split LF (c :: s)
  = if N.eqb 10 c then [] :: split LF s
    else match split LF s with
         | piece :: pieces => (c :: piece) :: pieces
         | [] => [[c]]
         end.
Proof.
  unfold split, LF; cbn [split_from startsWith List.length Nat.sub].
  now rewrite andb_true_r.
Qed.

(** The first line is the subject up to its first line feed. *)
Lemma first_line (s piece : str) (pieces : list str) :
  split LF s = piece :: pieces ->
  exists rest, s = piece ++ rest /\ inert rest.
Proof.
  revert piece pieces; induction s as [|c s IH]; intros piece pieces.
  - intros [= <- <-]; now exists [].
  - rewrite split_LF_cons. destruct (N.eqb_spec 10 c) as [<-|Hc].
    + intros [= <- <-]. exists (10%N :: s); split; [reflexivity|].
      cbn; repeat split; discriminate.
    + destruct (split LF s) as [|p ps] eqn:E.
      * now apply SplitFacts.split_from_nonempty in E.
      * intros [= <- <-]. destruct (IH p ps eq_refl) as (rest & -> & Hr).
        now exists rest.
Qed.

Lemma whole_lines (s : str) :
  wholeEscapes s = true ->
  Forall (fun line => wholeEscapes line = true) (split LF s).
Proof.
  induction s as [|c s IH]; intros H; [repeat constructor|].
  pose proof (IH (whole_tail c s H)) as Hs.
  rewrite split_LF_cons. destruct (N.eqb 10 c); [now constructor|].
  destruct (split LF s) as [|p ps] eqn:E.
  - now apply SplitFacts.split_from_nonempty in E.
  - inversion Hs as [|? ? Hp Hps]; subst. constructor; [|assumption].
    destruct (first_line s p ps E) as (rest & -> & Hr).
    now apply (whole_cut (c :: p) rest).
Qed.

Lemma whole_trimStart (s : str) :
  wholeEscapes s = true -> wholeEscapes (trimStart s) = true.
Proof.
  induction s as [|c s IH]; intros H; [reflexivity|]. cbn [trimStart].
  destruct (is_space c); [apply IH; now apply (whole_tail c)|assumption].
Qed.

Lemma blank_inert (s : str) :
  Forall (fun c => is_space c = true) s -> inert s.
Proof.
  intros Hb; destruct Hb as [|c rest Hc _]; [exact I|].
  cbn; repeat split; try (intros ->; discriminate).
  destruct (is_digit c || N.eqb c 59) eqn:E; [|reflexivity].
  exfalso. apply orb_true_iff in E as [E|E].
  - unfold is_digit in E. apply andb_true_iff in E as [E1 E2].
    apply N.leb_le in E1, E2.
    assert (H : (c = 48 \/ c = 49 \/ c = 50 \/ c = 51 \/ c = 52 \/ c = 53
                 \/ c = 54 \/ c = 55 \/ c = 56 \/ c = 57)%N) by lia.
    repeat (destruct H as [->|H]; [discriminate|]). subst c; discriminate.
  - apply N.eqb_eq in E; subst c; discriminate.
Qed.

Lemma whole_trim (s : str) :
  wholeEscapes s = true -> wholeEscapes (trim s) = true.
Proof.
  intros H; apply whole_trimStart in H. unfold trim, trimEnd.
  destruct (TrimFacts.trimStart_suffix (rev (trimStart s))) as (sp & Hs & Hsp).
  apply (whole_cut _ (rev sp)).
  - rewrite <- rev_app_distr, <- Hs, rev_involutive. assumption.
  - apply blank_inert, Forall_rev, Hsp.
Qed.

End WholeFacts.

(** The values of server.js are free of ESC whenever every ESC of the
    discovery output begins a whole colour sequence (ESC, '[', digits and
    semicolons, 'm'): then no string property and no address of a returned
    record, the node id aside, holds an ESC. *)
Theorem server_values_clean (result : str) (d : obj) (k : string) :
  wholeEscapes result = true ->
  In d (Server.parseDiscoveryResult result) ->
  k <> "nodeId"%string ->
  cleanValue (Obj.get k d).
Proof.
  intros Hw Hin Hk.
  apply (EscapeFacts.server_values_escFree result d k); try assumption.
  apply WholeFacts.whole_lines in Hw.
  rewrite Forall_forall in Hw |- *; intros line Hl.
  now apply WholeFacts.whole_trim, Hw.
Qed.

(** The coloured sample: its name and its addresses hold no ESC. *)
Lemma server_values_clean_witness :
  cleanValue (Obj.get "name" (hd [] (Server.parseDiscoveryResult colouredTagged)))
  /\ cleanValue (Obj.get "addresses"
                   (hd [] (Server.parseDiscoveryResult colouredTagged))).
Proof.
  split; apply (server_values_clean colouredTagged);
    first [ discriminate | vm_compute; reflexivity | vm_compute; left; reflexivity ].
Defined.

(* ===================================================================== *)
(** ** Further facts: values with colons *)
(* ===================================================================== *)

Module ColonFacts.

Lemma startsWith_skipn (p s : str) :
  startsWith p s = true -> s = p ++ skipn (List.length p) s.
Proof.
  revert s; induction p as [|c p IH]; intros [|x s]; cbn; try discriminate;
    [reflexivity..|].
  intros H; apply andb_true_iff in H as [Hc Hp].
  apply N.eqb_eq in Hc; subst. f_equal; now apply IH.
Qed.

Lemma join_cons (sep : str) (c : N) (piece : str) (pieces : list str) :
  join sep ((c :: piece) :: pieces) = c :: join sep (piece :: pieces).
Proof. destruct pieces; reflexivity. Qed.

Lemma join_nil_cons (sep : str) (pieces : list str) :
  pieces <> [] -> join sep ([] :: pieces) = sep ++ join sep pieces.
Proof. destruct pieces; [congruence|reflexivity]. Qed.

(** Splitting and joining with the same separator gives the string back:
    [s.split(sep).join(sep)]. *)
Lemma join_split_from (sep : str) (skip : nat) (s : str) :
  sep <> [] ->
  join sep (split_from sep skip s) = skipn skip s.
Proof.
  intros Hsep; revert skip; induction s as [|c s IH]; intros skip.
  - now destruct skip.
  - destruct skip as [|k]; cbn [split_from skipn]; [|apply IH].
    destruct (startsWith sep (c :: s)) eqn:Hp.
    + rewrite join_nil_cons by apply SplitFacts.split_from_nonempty.
      rewrite IH.
      rewrite (startsWith_skipn sep (c :: s) Hp) at 1.
      destruct sep as [|x sep]; [congruence|].
      cbn [List.length skipn Nat.sub]. now rewrite Nat.sub_0_r.
    + pose proof (SplitFacts.split_from_nonempty sep 0 s) as Hne.
      destruct (split_from sep 0 s) as [|p ps] eqn:E; [congruence|].
      rewrite join_cons, <- E, IH. reflexivity.
Qed.

Lemma split_colon_first (label v : str) :
  ~ In 58%N label ->
  split (lit ":") (label ++ lit ":" ++ v) = label :: split (lit ":") v.
Proof.
  unfold split; induction label as [|c label IH]; intros Hno.
  - cbn. reflexivity.
  - cbn [app split_from]. change (lit ":") with [58%N] in *.
    cbn [startsWith]. destruct (N.eqb_spec 58 c) as [<-|Hc];
      [exfalso; apply Hno; now left|].
    cbn [andb]. rewrite IH; [reflexivity|].
    intros Hin; apply Hno; now right.
Qed.

Lemma indexOf_colon (label v : str) :
  ~ In 58%N label ->
  indexOf 58 (label ++ lit ":" ++ v) = Some (List.length label).
Proof.
  induction label as [|c label IH]; intros Hno; [reflexivity|].
  cbn [app indexOf List.length]. destruct (N.eqb_spec c 58) as [->|Hc];
    [exfalso; apply Hno; now left|].
  rewrite IH; [reflexivity|]. intros Hin; apply Hno; now right.
Qed.

End ColonFacts.

(** A value keeps its colons.  In part_002 the value of a line
    "label:value" whose label holds no colon is everything after the first
    colon, trimmed.  In server.js the address of a line is everything
    after the first colon of the text that follows 'IP Address #', trimmed:
    the colons of an IPv6 address survive the split on ':' because the
    pieces are joined with ':' again. *)
Theorem values_keep_colons :
  (forall label v,
     ~ In 58%N label ->
     Part002.extractValue (label ++ lit ":" ++ v) = trim v) /\
  (forall cleanLine before number v others,
     split (lit "IP Address #") cleanLine
     = before :: (number ++ lit ":" ++ v) :: others ->
     ~ In 58%N number ->
     Server.addressOf cleanLine = Done (trim v)).
Proof.
  split.
  - intros label v Hno; unfold Part002.extractValue.
    rewrite (ColonFacts.indexOf_colon label v Hno). unfold substring.
    rewrite skipn_app, skipn_all2 by lia.
    replace (List.length label + 1 - List.length label) with 1 by lia.
    reflexivity.
  - intros cleanLine before number v others Hsplit Hno; unfold Server.addressOf.
    rewrite Hsplit; cbn [nth_error].
    rewrite (ColonFacts.split_colon_first number v Hno); cbn [tl].
    unfold split. rewrite ColonFacts.join_split_from by discriminate.
    reflexivity.
Qed.

(** A link-local IPv6 address behind the log prefix. *)
Lemma values_keep_colons_witness :
  Part002.extractValue (lit "IP Address #1" ++ lit ":" ++ lit " fe80::1a2b:3c4d ")
  = lit "fe80::1a2b:3c4d" /\
  Server.addressOf (lit "[1744266250.301] [47866:47868] [DIS] IP Address #1: fe80::1a2b:3c4d")
  = Done (lit "fe80::1a2b:3c4d").
Proof.
  split.
  - exact (proj1 values_keep_colons (lit "IP Address #1")
             (lit " fe80::1a2b:3c4d ") ltac:(cbn; intuition discriminate)).
  - exact (proj2 values_keep_colons
             (lit "[1744266250.301] [47866:47868] [DIS] IP Address #1: fe80::1a2b:3c4d")
             (lit "[1744266250.301] [47866:47868] [DIS] ") (lit "1")
             (lit " fe80::1a2b:3c4d") [] eq_refl
             ltac:(cbn; intuition discriminate)).
Defined.

(* ===================================================================== *)
(** ** Further facts: the servers *)
(* ===================================================================== *)

Module RegistryFacts.

Lemma everyEntry_set (P : value -> obj -> Prop) (k : value) (e : obj)
      (m : registry) :
  everyEntry P m -> P k e -> everyEntry P (Map.set k e m).
Proof.
  unfold everyEntry; intros Hm Hke; induction Hm as [|[k' e'] m Hh Ht IH]; cbn.
  - repeat constructor; assumption.
  - destruct (sameValueZero k' k) eqn:E.
    + apply MapFacts.sameValueZero_eq in E; subst k'. constructor; assumption.
    + constructor; assumption.
Qed.

Lemma everyEntry_get (P : value -> obj -> Prop) (k : value) (e : obj)
      (m : registry) :
  everyEntry P m -> Map.get k m = Some e -> P k e.
Proof.
  unfold everyEntry; intros Hm; induction Hm as [|[k' e'] m Hh Ht IH]; cbn;
    [discriminate|].
  destruct (sameValueZero k' k) eqn:E; [|assumption].
  apply MapFacts.sameValueZero_eq in E; subst k'. now intros [= <-].
Qed.

Lemma everyEntry_upsert (P : value -> obj -> Prop) (now : str)
      (found : list obj) (m : registry) :
  (forall d, In d found -> P (Obj.get "nodeId" d) (discovered now d)) ->
  everyEntry P m -> everyEntry P (upsertDiscovered now found m).
Proof.
  revert m; induction found as [|d found IH]; intros m Hf Hm; [assumption|].
  cbn. apply IH; [intros; apply Hf; now right|].
  apply everyEntry_set; [assumption|apply Hf; now left].
Qed.

Lemma get_primitive (k : value) (e : obj) (m : registry) :
  Map.get k m = Some e -> primitive k = true.
Proof.
  induction m as [|[k' e'] m IH]; cbn; [discriminate|].
  destruct (sameValueZero k' k) eqn:E; [|assumption].
  intros _. destruct k; try reflexivity; destruct k'; discriminate.
Qed.

(** A key that holds an entry still holds one after [set]. *)
Lemma get_set_kept (k k0 : value) (e0 : obj) (m : registry) :
  Map.get k m <> None -> Map.get k (Map.set k0 e0 m) <> None.
Proof.
  induction m as [|[k' e'] m IH]; cbn; [congruence|].
  destruct (sameValueZero k' k0); cbn; destruct (sameValueZero k' k);
    intros H; first [discriminate | assumption | now apply IH].
Qed.

Lemma upsert_kept (now : str) (found : list obj) (k : value) (m : registry) :
  Map.get k m <> None -> Map.get k (upsertDiscovered now found m) <> None.
Proof.
  revert m; induction found as [|d found IH]; intros m H; [assumption|].
  cbn. apply IH. now apply get_set_kept.
Qed.

Lemma keys_set (k : string) (v : value) (o : obj) :
  incl (Obj.keys o) (Obj.keys (Obj.set k v o)).
Proof.
  unfold Obj.keys; induction o as [|[k' v'] o IH]; cbn; [intros x []|].
  destruct (String.eqb k' k); cbn; [apply incl_refl|].
  intros x [<-|Hx]; [now left|right; now apply IH].
Qed.

Lemma parsed_key (parse : str -> list obj) (result : str) (d : obj) :
  parse = Part002.parseDiscoveryResult \/ parse = Server.parseDiscoveryResult ->
  In d (parse result) -> nodeIdKey (Obj.get "nodeId" d).
Proof.
  intros [->| ->] Hin.
  - rewrite Part002Facts.part002_parse_records in Hin.
    apply MapIndexFacts.in_map_index in Hin as (x & n & _ & ->).
    exists n. apply Part002Facts.part002_get_nodeId.
  - rewrite ServerFacts.server_parse_records in Hin.
    apply MapIndexFacts.in_map_index in Hin as (x & n & _ & ->).
    exists n. apply ServerFacts.server_get_nodeId.
Qed.

Lemma discovered_status (now : str) (d : obj) :
  hasStatus "discovered" (discovered now d).
Proof.
  unfold hasStatus, discovered.
  rewrite ObjFacts.get_set_other by discriminate. apply ObjFacts.get_set_same.
Qed.

Lemma discovered_nodeId (now : str) (d : obj) :
  Obj.get "nodeId" (discovered now d) = Obj.get "nodeId" d.
Proof. unfold discovered; now rewrite !ObjFacts.get_set_other by discriminate. Qed.

Lemma discovered_keys (now : str) (d : obj) :
  incl (Obj.keys d) (Obj.keys (discovered now d)).
Proof.
  unfold discovered. eapply incl_tran; [|apply keys_set]. apply keys_set.
Qed.

End RegistryFacts.

Ltac handler_cases :=
  repeat match goal with
         | |- context [if ?c then _ else _] => destruct c eqn:?
         | |- context [match ?x with Some _ => _ | None => _ end] =>
             destruct x eqn:?
         | |- context [match ?x with Done _ => _ | Throw _ => _ end] =>
             destruct x eqn:?
         end.

Ltac unfold_handlers :=
  unfold servePart002, serveServer, serveFirst, ofEffect, device_search,
    device_pair, device_commission, device_setup, discovery_scan,
    discovery_stop, discovery_list, discovery_scan_raw, discovery_list_raw,
    pairing_code, commissioning_wifi, internalError, baseRunner.


(** No request deletes an entry: a key that holds an entry before a
    request to any of the three servers holds one after it. *)
Theorem entries_are_never_deleted (w : world) (deviceState : registry) (k : value) :
  Map.get k deviceState <> None ->
  (forall rq, Map.get k (registryAfter (servePart002 w rq deviceState)) <> None) /\
  (forall rq, Map.get k (registryAfter (serveServer w rq deviceState)) <> None) /\
  (forall rq, Map.get k (registryAfter (serveFirst w rq deviceState)) <> None).
Proof.
  intros Hk; repeat split; intros rq; destruct rq; unfold_handlers;
    handler_cases; cbn [registryAfter state];
    first [ assumption
          | now apply RegistryFacts.get_set_kept
          | now apply RegistryFacts.upsert_kept ].
Qed.

Lemma entries_are_never_deleted_witness :
  Map.get (VStr (lit "1"))
    (registryAfter
       (servePart002 sampleWorld (P2Pair sampleDevicePair) sampleRegistry))
  <> None.
Proof.
  refine (proj1 (entries_are_never_deleted sampleWorld sampleRegistry
                   (VStr (lit "1")) _) (P2Pair sampleDevicePair)).
  vm_compute; discriminate.
Defined.

Module InvariantFacts.

Import RegistryFacts.

Lemma status_paired (e : obj) :
  negb (sameValueZero (Obj.get "status" e) (VStr (lit "paired"))) = false ->
  hasStatus "paired" e.
Proof.
  intros H; apply negb_false_iff, MapFacts.sameValueZero_eq in H. exact H.
Qed.

Lemma or_else_truthy (v w : value) :
  truthy (or_else v w) = true \/ truthy (or_else v w) = false.
Proof. destruct (truthy (or_else v w)); auto. Qed.

Lemma commissioned_status (now : str) (info : obj) (ssid : value) :
  hasStatus "commissioned" (commissioned now info ssid).
Proof.
  unfold hasStatus, commissioned.
  rewrite ObjFacts.get_set_other by discriminate. apply ObjFacts.get_set_same.
Qed.

Lemma commissioned_network (now : str) (info : obj) (ssid : value) :
  truthy ssid = true -> hasNetwork (commissioned now info ssid).
Proof.
  intros Ht; exists ssid, now; split; [|assumption].
  apply ObjFacts.get_set_same.
Qed.

Lemma commissioned_other (now : str) (info : obj) (ssid : value) (k : string) :
  k <> "status"%string -> k <> "network"%string ->
  Obj.get k (commissioned now info ssid) = Obj.get k info.
Proof.
  intros H1 H2; unfold commissioned. now rewrite !ObjFacts.get_set_other by congruence.
Qed.

Lemma commissioned_keys (now : str) (info : obj) (ssid : value) :
  incl (Obj.keys info) (Obj.keys (commissioned now info ssid)).
Proof. unfold commissioned. eapply incl_tran; [|apply keys_set]. apply keys_set. Qed.

Lemma part002_found (now : str) (result : str) (d : obj) :
  In d (Part002.parseDiscoveryResult result) ->
  entryPart002 (Obj.get "nodeId" d) (discovered now d).
Proof.
  intros Hin; split; [apply discovered_nodeId|]. split; [|split].
  - now apply (parsed_key Part002.parseDiscoveryResult result d (or_introl eq_refl)).
  - eapply incl_tran; [|apply discovered_keys].
    destruct (part002_shape result d Hin) as [_ ->]. apply incl_refl.
  - left; apply discovered_status.
Qed.

Lemma server_found (now : str) (result : str) (d : obj) :
  In d (Server.parseDiscoveryResult result) ->
  entryServer (Obj.get "nodeId" d) (discovered now d).
Proof.
  intros Hin; split; [apply discovered_nodeId|]. split; [|split].
  - now apply (parsed_key Server.parseDiscoveryResult result d (or_intror eq_refl)).
  - eapply incl_tran; [|apply discovered_keys].
    destruct (server_shape result d Hin) as [_ ->]. apply incl_refl.
  - left; apply discovered_status.
Qed.

Lemma step_part002 (w : world) (rq : requestPart002) (deviceState : registry) :
  everyEntry entryPart002 deviceState ->
  everyEntry entryPart002 (registryAfter (servePart002 w rq deviceState)).
Proof.
  intros Hinv; destruct rq; unfold_handlers; handler_cases;
    cbn [registryAfter state]; try assumption;
    try (apply everyEntry_upsert; [intros d; apply part002_found|assumption]).
  - (* pair *)
    match goal with
    | H : Map.get _ deviceState = Some ?info |- _ =>
        pose proof (everyEntry_get _ _ _ _ Hinv H) as (Hid & Hkey & Hkeys & _)
    end.
    apply everyEntry_set; [assumption|]. split; [|split; [|split]].
    + now rewrite !ObjFacts.get_set_other by discriminate.
    + assumption.
    + eapply incl_tran; [eassumption|].
      eapply incl_tran; [|apply keys_set].
      eapply incl_tran; [|apply keys_set]. apply keys_set.
    + right; left; split.
      * unfold hasStatus. rewrite ObjFacts.get_set_other by discriminate.
        apply ObjFacts.get_set_same.
      * rewrite !ObjFacts.get_set_other by discriminate.
        rewrite ObjFacts.get_set_same.
        match goal with
        | H : negb (truthy _) = false |- _ => now apply negb_false_iff in H
        end.
  - (* commission *)
    match goal with
    | H : Map.get _ deviceState = Some ?info |- _ =>
        pose proof (everyEntry_get _ _ _ _ Hinv H) as (Hid & Hkey & Hkeys & Hst)
    end.
    match goal with
    | H : negb (sameValueZero _ _) = false |- _ =>
        apply status_paired in H; rename H into Hpaired
    end.
    match goal with
    | H : negb (truthy (or_else (Obj.get "ssid" _) _)) || _ = false |- _ =>
        apply orb_false_iff in H as [Hssid _];
        apply negb_false_iff in Hssid
    end.
    apply everyEntry_set; [assumption|]. split; [|split; [|split]].
    + now rewrite commissioned_other by discriminate.
    + assumption.
    + eapply incl_tran; [eassumption|apply commissioned_keys].
    + right; right; split; [apply commissioned_status|]. split.
      * rewrite commissioned_other by discriminate.
        unfold hasStatus in *.
        destruct Hst as [Hd|[[_ Hm]|[_ [Hm _]]]]; [|assumption..].
        rewrite Hpaired in Hd; discriminate.
      * now apply commissioned_network.
Qed.

Lemma step_server (w : world) (rq : requestServer) (deviceState : registry) :
  everyEntry entryServer deviceState ->
  everyEntry entryServer (registryAfter (serveServer w rq deviceState)).
Proof.
  intros Hinv; destruct rq; unfold_handlers; handler_cases;
    cbn [registryAfter state]; try assumption;
    try (apply everyEntry_upsert; [intros d; apply server_found|assumption]).
  (* setup *)
    match goal with
    | H : Map.get _ deviceState = Some ?info |- _ =>
        pose proof (everyEntry_get _ _ _ _ Hinv H) as (Hid & Hkey & Hkeys & _)
    end.
    match goal with
    | H : negb (truthy _) || negb (truthy _) || _ = false |- _ =>
        apply orb_false_iff in H as [H _];
        apply orb_false_iff in H as [Hpin Hssid];
        apply negb_false_iff in Hpin, Hssid
    end.
    apply everyEntry_set; [assumption|]. unfold updatedDeviceInfo.
    split; [|split; [|split]].
    + now rewrite !ObjFacts.get_set_other by discriminate.
    + assumption.
    + eapply incl_tran; [eassumption|].
      repeat (eapply incl_tran; [|apply keys_set]). apply incl_refl.
    + right; split; [|split].
      * unfold hasStatus. rewrite !ObjFacts.get_set_other by discriminate.
        apply ObjFacts.get_set_same.
      * rewrite ObjFacts.get_set_other by discriminate.
        now rewrite ObjFacts.get_set_same.
      * exists (Obj.get "ssid" req), (clock w); split; [|assumption].
        rewrite !ObjFacts.get_set_other by discriminate.
        apply ObjFacts.get_set_same.
Qed.

Lemma step_first (w : world) (rq : requestFirst) (deviceState : registry) :
  everyEntry (fun _ => entryFirst) deviceState ->
  everyEntry (fun _ => entryFirst) (registryAfter (serveFirst w rq deviceState)).
Proof.
  intros Hinv; destruct rq; unfold_handlers; handler_cases;
    cbn [registryAfter state]; try assumption.
  - apply everyEntry_set; [assumption|]. left; split; [reflexivity|].
    split; [reflexivity|].
    match goal with
    | H : negb (truthy _) = false |- _ => now apply negb_false_iff in H
    end.
  - match goal with
    | H : negb (truthy _) || _ = false |- _ =>
        apply orb_false_iff in H as [Hssid _]; apply negb_false_iff in Hssid
    end.
    apply everyEntry_set; [assumption|]. right; split;
      [apply commissioned_status|now apply commissioned_network].
  - match goal with
    | H : negb (truthy _) || _ = false |- _ =>
        apply orb_false_iff in H as [Hssid _]; apply negb_false_iff in Hssid
    end.
    apply everyEntry_set; [assumption|]. right; split;
      [apply commissioned_status|now apply commissioned_network].
Qed.

Lemma reach_part002 (deviceState : registry) :
  reachable servePart002 deviceState -> everyEntry entryPart002 deviceState.
Proof. induction 1; [constructor|now apply step_part002]. Qed.

Lemma reach_server (deviceState : registry) :
  reachable serveServer deviceState -> everyEntry entryServer deviceState.
Proof. induction 1; [constructor|now apply step_server]. Qed.

Lemma reach_first (deviceState : registry) :
  reachable serveFirst deviceState -> everyEntry (fun _ => entryFirst) deviceState.
Proof. induction 1; [constructor|now apply step_first]. Qed.

End InvariantFacts.

(** The registry of part_002, whatever requests came before: every key
    that holds an entry is the decimal string of a positive number, the
    node id of the entry; the entry has all thirteen properties of a
    discovery record; its status is 'discovered', 'paired' or
    'commissioned'; a paired or commissioned entry holds the manual pairing
    code it was paired with, and a commissioned entry its network with the
    ssid. *)
Theorem part002_registry_invariant (deviceState : registry) (k : value) (e : obj) :
  reachable servePart002 deviceState ->
  Map.get k deviceState = Some e ->
  entryPart002 k e.
Proof.
  intros Hr Hg.
  exact (RegistryFacts.everyEntry_get _ _ _ _ (InvariantFacts.reach_part002 _ Hr) Hg).
Qed.

Lemma part002_registry_invariant_witness :
  exists e,
    Map.get (VStr (lit "1")) samplePaired = Some e /\
    entryPart002 (VStr (lit "1")) e.
Proof.
  eexists; split; [vm_compute; reflexivity|].
  apply (part002_registry_invariant samplePaired).
  - unfold samplePaired. do 2 apply reach_step. apply reach_start.
  - vm_compute; reflexivity.
Defined.

(** The registry of the last server of server.js, whatever requests came
    before: every key that holds an entry is the decimal string of a
    positive number, the node id of the entry; the entry has all thirteen
    properties of a discovery record; its status is 'discovered' or
    'commissioned', never 'paired'; a commissioned entry holds the setup
    PIN code it was set up with and its network with the ssid. *)
Theorem server_registry_invariant (deviceState : registry) (k : value) (e : obj) :
  reachable serveServer deviceState ->
  Map.get k deviceState = Some e ->
  entryServer k e.
Proof.
  intros Hr Hg.
  exact (RegistryFacts.everyEntry_get _ _ _ _ (InvariantFacts.reach_server _ Hr) Hg).
Qed.

Lemma server_registry_invariant_witness :
  exists e,
    Map.get (VStr (lit "1")) sampleSetUp = Some e /\
    entryServer (VStr (lit "1")) e.
Proof.
  eexists; split; [vm_compute; reflexivity|].
  apply (server_registry_invariant sampleSetUp).
  - unfold sampleSetUp. do 2 apply reach_step. apply reach_start.
  - vm_compute; reflexivity.
Defined.

(** The registry of the first server of server.js and of part_001,
    whatever requests came before: every entry is either 'paired', and
    then has exactly the properties status, setupCode, discriminator and
    timestamp with the setup code that was given, or 'commissioned', and
    then has its network with the ssid; no entry is 'discovered'. *)
Theorem first_registry_invariant (deviceState : registry) (k : value) (e : obj) :
  reachable serveFirst deviceState ->
  Map.get k deviceState = Some e ->
  entryFirst e.
Proof.
  intros Hr Hg.
  exact (RegistryFacts.everyEntry_get (fun _ => entryFirst) _ _ _
           (InvariantFacts.reach_first _ Hr) Hg).
Qed.

Lemma first_registry_invariant_witness :
  exists e,
    Map.get (VStr (lit "7")) sampleDirect = Some e /\ entryFirst e.
Proof.
  eexists; split; [vm_compute; reflexivity|].
  apply (first_registry_invariant sampleDirect (VStr (lit "7"))).
  - unfold sampleDirect. apply reach_step. apply reach_start.
  - vm_compute; reflexivity.
Defined.

Lemma number_not_nodeId (z : Z) : ~ nodeIdKey (VNum z).
Proof. intros (n & H); discriminate. Qed.

(** A node id sent as a JSON number is never found: discovery stores
    every device under a string, so on the server of part_002 pairing or
    commissioning with a numeric deviceId is answered 404, and on the last
    server of server.js a setup with a numeric nodeId and all its
    parameters is answered 404, whatever requests came before. *)
Theorem numeric_ids_are_unknown (w : world) (z : Z) (req : obj) :
  (forall deviceState,
     reachable servePart002 deviceState ->
     Obj.get "deviceId" req = VNum z ->
     status (answer (servePart002 w (P2Commission req) deviceState)) = 404 /\
     (truthy (Obj.get "manualPairingCode" req) = true ->
      status (answer (servePart002 w (P2Pair req) deviceState)) = 404)) /\
  (forall deviceState,
     reachable serveServer deviceState ->
     Obj.get "nodeId" req = VNum z ->
     truthy (Obj.get "setupPinCode" req) = true ->
     truthy (Obj.get "ssid" req) = true ->
     truthy (Obj.get "password" req) = true ->
     status (answer (serveServer w (SvSetup req) deviceState)) = 404).
Proof.
  split.
  - intros deviceState Hr Hid.
    assert (Hnone : Map.get (VNum z) deviceState = None).
    { destruct (Map.get (VNum z) deviceState) as [e|] eqn:E; [|reflexivity].
      destruct (RegistryFacts.everyEntry_get _ _ _ _
                  (InvariantFacts.reach_part002 _ Hr) E) as (_ & Hk & _).
      now apply number_not_nodeId in Hk. }
    unfold_handlers; rewrite Hid, Hnone; cbn. split; [reflexivity|].
    now intros ->.
  - intros deviceState Hr Hid Hp Hs Hw.
    assert (Hnone : Map.get (VNum z) deviceState = None).
    { destruct (Map.get (VNum z) deviceState) as [e|] eqn:E; [|reflexivity].
      destruct (RegistryFacts.everyEntry_get _ _ _ _
                  (InvariantFacts.reach_server _ Hr) E) as (_ & Hk & _).
      now apply number_not_nodeId in Hk. }
    unfold_handlers; now rewrite Hid, Hp, Hs, Hw, Hnone.
Qed.

(** After the search has stored the scenario under "1", the number 1 is
    not found. *)
Lemma numeric_ids_are_unknown_witness :
  status (answer (servePart002 sampleWorld (P2Commission sampleNumeric)
                    sampleFound)) = 404.
Proof.
  refine (proj1 (proj1 (numeric_ids_are_unknown sampleWorld 1 sampleNumeric)
                   sampleFound _ eq_refl)).
  unfold sampleFound. apply reach_step, reach_start.
Defined.

Module FlowFacts.

Lemma found_entry (parse : str -> list obj) (now result : str)
      (deviceState : registry) (d : obj) :
  parse = Part002.parseDiscoveryResult \/ parse = Server.parseDiscoveryResult ->
  In d (parse result) ->
  Map.get (Obj.get "nodeId" d) (upsertDiscovered now (parse result) deviceState)
  = Some (discovered now d).
Proof.
  intros Hp Hin. destruct (parsed_nodeIds parse result Hp) as [Hnd Hprim].
  now apply upsert_get.
Qed.

Lemma nodeIdKey_primitive (k : value) : nodeIdKey k -> primitive k = true.
Proof. now intros (n & ->). Qed.

Lemma truthy_or_else (v w : value) : truthy v = true -> or_else v w = v.
Proof. unfold or_else; now intros ->. Qed.

(** The string properties of a discovery record can stand in a template
    literal, also after the search has stored the record. *)
Lemma part002_renders (numberText : Z -> str) (now result : str) (d : obj)
      (k : string) :
  In d (Part002.parseDiscoveryResult result) ->
  kindOf k part002Schema = Some KString ->
  renders numberText (Obj.get k d) /\
  (k <> "status"%string -> k <> "timestamp"%string ->
   renders numberText (Obj.get k (discovered now d))).
Proof.
  intros Hin Hk. destruct (part002_shape result d Hin) as [Hc _].
  destruct (SchemaFacts.conforms_get _ _ _ _ Hc Hk) as (s & Hs).
  split; [rewrite Hs; apply TemplateFacts.renders_string|].
  intros H1 H2; unfold discovered.
  rewrite !ObjFacts.get_set_other by congruence.
  rewrite Hs; apply TemplateFacts.renders_string.
Qed.

Lemma server_renders (numberText : Z -> str) (now result : str) (d : obj)
      (k : string) :
  In d (Server.parseDiscoveryResult result) ->
  kindOf k serverSchema = Some KString ->
  renders numberText (Obj.get k d) /\
  (k <> "status"%string -> k <> "timestamp"%string ->
   renders numberText (Obj.get k (discovered now d))).
Proof.
  intros Hin Hk. destruct (server_shape result d Hin) as [Hc _].
  destruct (SchemaFacts.conforms_get _ _ _ _ Hc Hk) as (s & Hs).
  split; [rewrite Hs; apply TemplateFacts.renders_string|].
  intros H1 H2; unfold discovered.
  rewrite !ObjFacts.get_set_other by congruence.
  rewrite Hs; apply TemplateFacts.renders_string.
Qed.

End FlowFacts.

(** A request changes the entry of its own key only.  Pairing,
    commissioning and setup requests leave the entry of every other key as
    it was; a search or scan leaves the entry of every key that is not the
    node id of a device it found, so the entries of devices that are no
    longer found stay in the registry. *)
Theorem requests_touch_their_key_only (w : world) (deviceState : registry)
    (k : value) (req : obj) :
  (k <> Obj.get "deviceId" req ->
   Map.get k (registryAfter (servePart002 w (P2Pair req) deviceState))
   = Map.get k deviceState /\
   Map.get k (registryAfter (servePart002 w (P2Commission req) deviceState))
   = Map.get k deviceState) /\
  (k <> Obj.get "nodeId" req ->
   Map.get k (registryAfter (serveServer w (SvSetup req) deviceState))
   = Map.get k deviceState) /\
  (k <> get_default "nodeId" defaultNodeId req ->
   Map.get k (registryAfter (serveFirst w (F1PairingCode req) deviceState))
   = Map.get k deviceState /\
   Map.get k (registryAfter (serveFirst w (F1CommissioningWifi req) deviceState))
   = Map.get k deviceState) /\
  (forall result,
     runner w (Tool DiscoverCommissionables) = Done result ->
     (~ In k (map (Obj.get "nodeId") (Part002.parseDiscoveryResult result)) ->
      Map.get k (registryAfter (servePart002 w P2Search deviceState))
      = Map.get k deviceState /\
      Map.get k (registryAfter (servePart002 w P2Scan deviceState))
      = Map.get k deviceState) /\
     (~ In k (map (Obj.get "nodeId") (Server.parseDiscoveryResult result)) ->
      Map.get k (registryAfter (serveServer w SvSearch deviceState))
      = Map.get k deviceState /\
      Map.get k (registryAfter (serveServer w SvScan deviceState))
      = Map.get k deviceState)).
Proof.
  split; [|split; [|split]].
  - intros Hk; split; unfold_handlers; handler_cases;
      cbn [registryAfter state]; try reflexivity;
      apply MapFacts.map_get_set_other; congruence.
  - intros Hk; unfold_handlers; handler_cases;
      cbn [registryAfter state]; try reflexivity;
      apply MapFacts.map_get_set_other; congruence.
  - intros Hk; split; unfold_handlers; handler_cases;
      cbn [registryAfter state]; try reflexivity;
      apply MapFacts.map_get_set_other; congruence.
  - intros result Hrun; split; intros Hk; split; unfold_handlers;
      rewrite Hrun; cbn [registryAfter state]; now apply upsert_other.
Qed.

Lemma requests_touch_their_key_only_witness :
  Map.get (VStr (lit "2"))
    (registryAfter (servePart002 sampleWorld (P2Pair sampleDevicePair) sampleFound))
  = Map.get (VStr (lit "2")) sampleFound.
Proof.
  refine (proj1 (proj1 (requests_touch_their_key_only sampleWorld sampleFound
                          (VStr (lit "2")) sampleDevicePair) _)).
  discriminate.
Defined.

Lemma commission_200 (w : world) (req : obj) (deviceState : registry) :
  status (answer (servePart002 w (P2Commission req) deviceState)) = 200 ->
  exists info,
    Map.get (Obj.get "deviceId" req) deviceState = Some info /\
    registryAfter (servePart002 w (P2Commission req) deviceState)
    = Map.set (Obj.get "deviceId" req)
        (commissioned (clock w) info
           (or_else (Obj.get "ssid" req) (WIFI_SSID w)))
        deviceState.
Proof.
  unfold_handlers; handler_cases; cbn [answer response status registryAfter state];
    try discriminate. eauto.
Qed.

(** Commissioning is refused the second time: once /api/device/commission
    has answered 200 for a device, the entry is 'commissioned' and no
    longer 'paired', so the next commission request for the same deviceId
    is answered 400, runs no command and leaves the registry as it is. *)
Theorem commission_only_once (w w' : world) (req req' : obj)
    (deviceState : registry) :
  let first := servePart002 w (P2Commission req) deviceState in
  let second := servePart002 w' (P2Commission req') (registryAfter first) in
  status (answer first) = 200 ->
  Obj.get "deviceId" req' = Obj.get "deviceId" req ->
  status (answer second) = 400 /\ ran second = [] /\
  registryAfter second = registryAfter first.
Proof.
  intros first second H200 Hid; subst first second.
  destruct (commission_200 w req deviceState H200) as (info & Hget & ->).
  pose proof (RegistryFacts.get_primitive _ _ _ Hget) as Hprim.
  unfold servePart002, ofEffect, device_commission. rewrite Hid.
  rewrite (MapFacts.map_get_set_same _ _ _ Hprim).
  rewrite (InvariantFacts.commissioned_status (clock w) info _ : Obj.get _ _ = _).
  cbn. auto.
Qed.

Lemma commission_only_once_witness :
  let first := servePart002 sampleWorld (P2Commission sampleDevicePairCommission)
                 samplePaired in
  status (answer (servePart002 sampleWorld (P2Commission sampleDevicePairCommission)
                    (registryAfter first))) = 400.
Proof.
  exact (proj1 (commission_only_once sampleWorld sampleWorld
                  sampleDevicePairCommission sampleDevicePairCommission
                  samplePaired eq_refl eq_refl)).
Defined.

(** Discovery, pairing and commissioning in a row on the server of
    part_002: for any device that a search has found, a pairing request
    with a code and then a commission request with ssid and password, each
    on the device's node id, with values that can stand in the command
    line and with a command that succeeds, are all answered 200.  The
    ble-wifi command carries the Long Discriminator that the search has
    parsed.  The entry ends 'commissioned', with the pairing code and the
    network, and every other property still reads as in the discovery
    record. *)
Theorem discover_pair_commission
    (w1 w2 w3 : world) (deviceState : registry) (result out2 out3 : str)
    (d pairReq commissionReq : obj) :
  let id := Obj.get "nodeId" d in
  let code := Obj.get "manualPairingCode" pairReq in
  let ssid := Obj.get "ssid" commissionReq in
  let password := Obj.get "password" commissionReq in
  let command := PairingBleWifi id (Obj.get "discriminator" d) ssid password in
  let r1 := servePart002 w1 P2Search deviceState in
  let r2 := servePart002 w2 (P2Pair pairReq) (registryAfter r1) in
  let r3 := servePart002 w3 (P2Commission commissionReq) (registryAfter r2) in
  runner w1 (Tool DiscoverCommissionables) = Done result ->
  In d (Part002.parseDiscoveryResult result) ->
  Obj.get "deviceId" pairReq = id -> truthy code = true ->
  renders (textOfNumber w2) code ->
  runner w2 (Tool (PairingCode id code)) = Done out2 ->
  Obj.get "deviceId" commissionReq = id ->
  truthy ssid = true -> truthy password = true ->
  renders (textOfNumber w3) ssid -> renders (textOfNumber w3) password ->
  runner w3 (Tool command) = Done out3 ->
  status (answer r1) = 200 /\ status (answer r2) = 200 /\
  status (answer r3) = 200 /\ ran r3 = [Tool command] /\
  exists e,
    Map.get id (registryAfter r3) = Some e /\
    hasStatus "commissioned" e /\
    Obj.get "manualPairingCode" e = code /\
    Obj.get "network" e
    = VObj [ ("ssid", ssid); ("timestamp", VStr (clock w3)) ]%string /\
    (forall k,
       ~ In k [ "status"; "timestamp"; "manualPairingCode"; "pairingTimestamp";
                "network" ]%string ->
       Obj.lookup k e = Obj.lookup k d).
Proof.
  intros id code ssid password command r1 r2 r3
         Hrun1 Hin Hid2 Hcode Hrcode Hrun2 Hid3 Hssid Hpw Hrssid Hrpw Hrun3.
  assert (Hprim : primitive id = true).
  { apply FlowFacts.nodeIdKey_primitive.
    now apply (RegistryFacts.parsed_key Part002.parseDiscoveryResult result d
                 (or_introl eq_refl)). }
  assert (Hname : forall nt, renders nt (Obj.get "name" (discovered (clock w1) d))).
  { intros nt.
    apply (FlowFacts.part002_renders nt (clock w1) result d "name" Hin eq_refl);
      discriminate. }
  assert (Hdiscr : forall nt, renders nt (Obj.get "discriminator" d)).
  { intros nt.
    apply (FlowFacts.part002_renders nt (clock w1) result d "discriminator"
             Hin eq_refl). }
  assert (H1 : r1 = ofEffect
                 (mkEffect
                    (mkReply 200
                       [ ("status", VStr (lit "success"));
                         ("message",
                           VStr (if Nat.ltb 0 (List.length
                                                 (Part002.parseDiscoveryResult result))
                                 then msgSearchDone else msgNoDevices));
                         ("devices",
                           VArr (map VObj (Part002.parseDiscoveryResult result))) ]%string)
                    (upsertDiscovered (clock w1)
                       (Part002.parseDiscoveryResult result) deviceState)
                    [DiscoverCommissionables])).
  { subst r1; unfold_handlers. now rewrite Hrun1. }
  pose proof (FlowFacts.found_entry Part002.parseDiscoveryResult (clock w1) result
                deviceState d (or_introl eq_refl) Hin) as Hget1.
  fold id in Hget1.
  set (e2 := Obj.set "pairingTimestamp" (VStr (clock w2))
               (Obj.set "status" (VStr (lit "paired"))
                  (Obj.set "manualPairingCode" code (discovered (clock w1) d)))).
  assert (H2 : status (answer r2) = 200 /\
               registryAfter r2 = Map.set id e2 (registryAfter r1)).
  { destruct (TemplateFacts.interpolate_done (textOfNumber w2)
                [Obj.get "name" (discovered (clock w1) d); code; id; code])
      as (ss & Hss).
    { repeat constructor; auto using TemplateFacts.renders_primitive. }
    subst r2; rewrite H1; unfold_handlers; cbn [registryAfter state].
    fold code; rewrite Hid2, Hcode; cbn [negb].
    rewrite Hget1, Hss, Hrun2. now cbn. }
  destruct H2 as [H2s H2r].
  assert (Hdisc : Obj.get "discriminator" e2 = Obj.get "discriminator" d).
  { unfold e2, discovered. now rewrite !ObjFacts.get_set_other by discriminate. }
  assert (Hst2 : Obj.get "status" e2 = VStr (lit "paired")).
  { unfold e2. rewrite ObjFacts.get_set_other by discriminate.
    apply ObjFacts.get_set_same. }
  assert (H3 : status (answer r3) = 200 /\ ran r3 = [Tool command] /\
               registryAfter r3
               = Map.set id (commissioned (clock w3) e2 ssid) (registryAfter r2)).
  { assert (Hname2 : Obj.get "name" e2 = Obj.get "name" (discovered (clock w1) d)).
    { unfold e2. now rewrite !ObjFacts.get_set_other by discriminate. }
    destruct (TemplateFacts.interpolate_done (textOfNumber w3)
                [Obj.get "name" e2; ssid; id; Obj.get "discriminator" d; ssid;
                 password]) as (ss & Hss).
    { rewrite Hname2.
      repeat constructor; auto using TemplateFacts.renders_primitive. }
    subst r3; rewrite H2r; unfold_handlers. fold ssid password.
    rewrite Hid3, (MapFacts.map_get_set_same _ _ _ Hprim), Hst2.
    cbn [sameValueZero]. rewrite JsStringFacts.eqb_refl; cbn [negb].
    rewrite !(FlowFacts.truthy_or_else _ _ Hssid),
            !(FlowFacts.truthy_or_else _ _ Hpw), Hssid, Hpw; cbn [negb orb].
    rewrite Hdisc, Hss. fold command. rewrite Hrun3. now cbn. }
  destruct H3 as (H3s & H3c & H3r).
  split; [now rewrite H1|]. repeat (split; [assumption|]).
  exists (commissioned (clock w3) e2 ssid).
  split; [rewrite H3r; now apply MapFacts.map_get_set_same|].
  split; [apply InvariantFacts.commissioned_status|]. split; [|split].
  - rewrite InvariantFacts.commissioned_other by discriminate.
    unfold e2. rewrite !ObjFacts.get_set_other by discriminate.
    apply ObjFacts.get_set_same.
  - unfold commissioned. apply ObjFacts.get_set_same.
  - intros k Hk; cbn in Hk. unfold commissioned, e2, discovered.
    rewrite !ObjFacts.lookup_set_other; [reflexivity|..];
      intros E; subst k; tauto.
Qed.

(** The scenario, paired with a manual code and commissioned on "home". *)
Lemma discover_pair_commission_witness :
  exists e,
    Map.get (VStr (lit "1"))
      (registryAfter
         (servePart002 sampleWorld (P2Commission sampleDevicePairCommission)
            samplePaired)) = Some e /\
    hasStatus "commissioned" e /\
    Obj.lookup "name" e = Some (VStr (lit "light1")).
Proof.
  pose (d := hd [] (Part002.parseDiscoveryResult scenarioTagged)).
  destruct (discover_pair_commission sampleWorld sampleWorld sampleWorld []
              scenarioTagged scenarioTagged scenarioTagged d
              sampleDevicePair sampleDevicePairCommission
              eq_refl ltac:(vm_compute; left; reflexivity)
              eq_refl eq_refl (ex_intro _ _ eq_refl) eq_refl eq_refl eq_refl
              eq_refl (ex_intro _ _ eq_refl) (ex_intro _ _ eq_refl) eq_refl)
    as (_ & _ & _ & _ & e & Hget & Hst & _ & _ & Hkeep).
  exists e; split; [exact Hget|]; split; [exact Hst|].
  rewrite Hkeep by (cbn; intuition discriminate). reflexivity.
Defined.

(** /api/device/setup checks its parameters before it looks the device up
    and asks for no pairing: a request without setupPinCode, ssid or
    password is answered 400 even for a device that is not there; and for
    any device that a search has found, a setup request with the three
    parameters on the device's node id, with values that can stand in the
    command line and with a command that succeeds, is answered 200
    without any pairing before.  The entry ends
    'commissioned' with the network, the PIN code and the
    setupDiscriminator of the request, which replaces the Long
    Discriminator that the search has parsed; the reply carries the PIN
    code too; every other property still reads as in the discovery
    record. *)
Theorem setup_needs_no_pairing
    (w1 w2 : world) (deviceState : registry) (result out : str) (d req : obj) :
  let id := Obj.get "nodeId" d in
  let pin := Obj.get "setupPinCode" req in
  let ssid := Obj.get "ssid" req in
  let password := Obj.get "password" req in
  let paa := or_else (Obj.get "paaStorePath" req)
               (paaStorePath (MATTER_PAA_STORE_PATH w2)) in
  let r1 := serveServer w1 SvSearch deviceState in
  let r2 := serveServer w2 (SvSetup req) (registryAfter r1) in
  (truthy pin = false \/ truthy ssid = false \/ truthy password = false ->
   forall anyState,
     status (answer (serveServer w2 (SvSetup req) anyState)) = 400) /\
  (runner w1 (Tool DiscoverCommissionables) = Done result ->
   In d (Server.parseDiscoveryResult result) ->
   Obj.get "nodeId" req = id ->
   truthy pin = true -> truthy ssid = true -> truthy password = true ->
   Forall (renders (textOfNumber w2)) [ssid; password; pin; paa] ->
   runner w2 (PairingCodeWifi id ssid password pin paa) = Done out ->
   status (answer r2) = 200 /\
   ran r2 = [PairingCodeWifi id ssid password pin paa] /\
   Obj.get "setupPinCode" (match Obj.get "deviceInfo" (body (answer r2)) with
                           | VObj info => info
                           | _ => []
                           end) = pin /\
   exists e,
     Map.get id (registryAfter r2) = Some e /\
     hasStatus "commissioned" e /\
     Obj.get "setupPinCode" e = pin /\
     Obj.get "setupDiscriminator" e = Obj.get "setupDiscriminator" req /\
     Obj.get "network" e
     = VObj [ ("ssid", ssid); ("timestamp", VStr (clock w2)) ]%string /\
     (forall k,
        ~ In k [ "status"; "timestamp"; "network"; "setupPinCode";
                 "setupDiscriminator" ]%string ->
        Obj.lookup k e = Obj.lookup k d)).
Proof.
  intros id pin ssid password paa r1 r2; split.
  - intros Hmissing anyState; unfold_handlers. fold pin ssid password.
    destruct Hmissing as [-> |[-> | ->]]; cbn [negb orb];
      rewrite ?orb_true_r; reflexivity.
  - intros Hrun1 Hin Hid Hpin Hssid Hpw Hr Hrun2.
    assert (Hprim : primitive id = true).
    { apply FlowFacts.nodeIdKey_primitive.
      now apply (RegistryFacts.parsed_key Server.parseDiscoveryResult result d
                   (or_intror eq_refl)). }
    destruct (TemplateFacts.interpolate_done (textOfNumber w2)
                [ Obj.get "name" (discovered (clock w1) d); ssid;
                  id; ssid; password; pin; paa; id; paa ]) as (ss & Hss).
    { inversion Hr as [|? ? Ha Hra]; subst.
      inversion Hra as [|? ? Hb Hrb]; subst.
      inversion Hrb as [|? ? Hc Hrc]; subst.
      inversion Hrc as [|? ? Hd _]; subst.
      pose proof (proj2 (FlowFacts.server_renders (textOfNumber w2) (clock w1)
                           result d "name" Hin eq_refl)) as Hname.
      repeat constructor;
        auto using TemplateFacts.renders_primitive.
      apply Hname; discriminate. }
    assert (H1 : registryAfter r1
                 = upsertDiscovered (clock w1)
                     (Server.parseDiscoveryResult result) deviceState).
    { subst r1; unfold_handlers. now rewrite Hrun1. }
    pose proof (FlowFacts.found_entry Server.parseDiscoveryResult (clock w1) result
                  deviceState d (or_intror eq_refl) Hin) as Hget1.
    fold id in Hget1.
    set (e := updatedDeviceInfo (clock w2) (discovered (clock w1) d) ssid pin
                (Obj.get "setupDiscriminator" req)).
    assert (H2 : status (answer r2) = 200 /\
                 ran r2 = [PairingCodeWifi id ssid password pin paa] /\
                 Obj.get "deviceInfo" (body (answer r2))
                 = VObj (Obj.set "network" (networkAt ssid (clockLater w2)) e) /\
                 registryAfter r2 = Map.set id e (registryAfter r1)).
    { subst r2; rewrite H1; unfold_handlers. fold pin ssid password.
      rewrite Hid, Hpin, Hssid, Hpw; cbn [negb orb].
      rewrite Hget1. fold paa. rewrite Hss, Hrun2. now cbn. }
    destruct H2 as (H2s & H2c & H2b & H2r).
    split; [assumption|]. split; [assumption|]. split.
    + rewrite H2b. unfold e, updatedDeviceInfo.
      rewrite !ObjFacts.get_set_other by discriminate.
      apply ObjFacts.get_set_same.
    + exists e; split; [rewrite H2r; now apply MapFacts.map_get_set_same|].
      unfold e, updatedDeviceInfo, hasStatus. repeat split.
      * rewrite !ObjFacts.get_set_other by discriminate.
        apply ObjFacts.get_set_same.
      * rewrite !ObjFacts.get_set_other by discriminate.
        apply ObjFacts.get_set_same.
      * apply ObjFacts.get_set_same.
      * rewrite !ObjFacts.get_set_other by discriminate.
        apply ObjFacts.get_set_same.
      * intros k Hk; cbn in Hk. unfold discovered.
        rewrite !ObjFacts.lookup_set_other; [reflexivity|..];
          intros E; subst k; tauto.
Qed.

Lemma setup_needs_no_pairing_witness :
  status (answer (serveServer sampleWorld (SvSetup sampleSetup)
                    (registryAfter (serveServer sampleWorld SvSearch [])))) = 200
  /\ status (answer (serveServer sampleWorld (SvSetup sampleDeviceCommission) []))
     = 400.
Proof.
  pose (d := hd [] (Server.parseDiscoveryResult scenarioTagged)).
  split.
  - refine (proj1 (proj2 (setup_needs_no_pairing sampleWorld sampleWorld []
                            scenarioTagged scenarioTagged d sampleSetup)
                     eq_refl ltac:(vm_compute; left; reflexivity)
                     eq_refl eq_refl eq_refl eq_refl _ eq_refl)).
    repeat constructor; eexists; reflexivity.
  - exact (proj1 (setup_needs_no_pairing sampleWorld sampleWorld []
                    scenarioTagged scenarioTagged d sampleDeviceCommission)
             (or_introl eq_refl) []).
Defined.

(** The Wi-Fi password reaches neither the registry nor the deviceInfo of
    the reply: two requests that differ in their password only, when both
    are answered 200, leave the same registry and carry the same deviceInfo
    in their replies.  This holds for /api/commissioning/wifi,
    /api/device/commission and /api/device/setup.  The password does go
    into the command line, which [executeMatterCommand] also writes to
    the log file; the log is no part of this model. *)
Theorem password_not_in_registry_or_reply (w : world) (deviceState : registry) (req1 req2 : obj) :
  (forall k, k <> "password"%string -> Obj.get k req1 = Obj.get k req2) ->
  let same (r1 r2 : toolEffect) :=
    status (answer r1) = 200 -> status (answer r2) = 200 ->
    registryAfter r1 = registryAfter r2 /\
    Obj.get "deviceInfo" (body (answer r1)) = Obj.get "deviceInfo" (body (answer r2)) in
  same (serveFirst w (F1CommissioningWifi req1) deviceState)
       (serveFirst w (F1CommissioningWifi req2) deviceState) /\
  same (servePart002 w (P2Commission req1) deviceState)
       (servePart002 w (P2Commission req2) deviceState) /\
  same (serveServer w (SvSetup req1) deviceState)
       (serveServer w (SvSetup req2) deviceState).
Proof.
  intros Hsame same; subst same; cbn beta.
  assert (Hk : forall k, String.eqb k "password" = false ->
                         Obj.get k req1 = Obj.get k req2).
  { intros k E; apply Hsame; intros ->; discriminate. }
  split; [|split]; unfold_handlers; unfold get_default;
    rewrite ?(Hk "nodeId"%string eq_refl), ?(Hk "deviceId"%string eq_refl),
      ?(Hk "ssid"%string eq_refl), ?(Hk "discriminator"%string eq_refl),
      ?(Hk "setupPinCode"%string eq_refl),
      ?(Hk "setupDiscriminator"%string eq_refl),
      ?(Hk "paaStorePath"%string eq_refl);
    handler_cases; cbn [answer response status registryAfter state body];
    intros; try discriminate; split; reflexivity.
Qed.

Lemma password_not_in_registry_or_reply_witness :
  registryAfter (serveFirst sampleWorld (F1CommissioningWifi sampleCommission) [])
  = registryAfter (serveFirst sampleWorld (F1CommissioningWifi sampleOtherPassword) []).
Proof.
  refine (proj1 (proj1 (password_not_in_registry_or_reply sampleWorld []
                          sampleCommission
                          sampleOtherPassword _) eq_refl eq_refl)).
  intros k Hk; unfold Obj.get, sampleCommission, sampleOtherPassword.
  cbn [Obj.lookup].
  destruct (String.eqb_spec "password" k) as [E|_]; [now subst k|reflexivity].
Defined.

Module ListFacts.

Lemma nonempty_truthy (s : str) : s <> [] -> truthy (VStr s) = true.
Proof. destruct s; [congruence|reflexivity]. Qed.

Lemma nth_map_VObj (items : list obj) (i : nat) (d : obj) (f : obj -> obj) :
  nth_error items i = Some d ->
  nth_error (map VObj (map f items)) i = Some (VObj (f d)).
Proof.
  intros H. rewrite map_map. now apply (map_nth_error (fun x => VObj (f x))).
Qed.

(** The [i]-th record of either parser has the node id [i + 1]. *)
Lemma nth_nodeId (parse : str -> list obj) (result : str) (i : nat) (d : obj) :
  parse = Part002.parseDiscoveryResult \/ parse = Server.parseDiscoveryResult ->
  nth_error (parse result) i = Some d ->
  Obj.get "nodeId" d = VStr (toString (i + 1)).
Proof.
  intros Hp Hnth.
  assert (Hlt : i < List.length (parse result))
    by (apply nth_error_Some; congruence).
  destruct parsers_numbered as [H1 H2].
  destruct Hp as [-> | ->].
  - destruct (H1 result) as (_ & Hlen & Hi & _). rewrite Hlen in Hlt.
    destruct (Hi i Hlt) as (d' & Hd' & Hid). congruence.
  - destruct (H2 result) as (_ & Hlen & Hi & _). rewrite Hlen in Hlt.
    destruct (Hi i Hlt) as (d' & Hd' & Hid). congruence.
Qed.

(** What the list shows for the [i]-th listed device after a search that
    found more than [i] devices. *)
Lemma shown_after_search (parse : str -> list obj) (now1 now2 : str)
      (deviceState : registry) (found listed : str) (i : nat) (d : obj) :
  parse = Part002.parseDiscoveryResult \/ parse = Server.parseDiscoveryResult ->
  now1 <> [] ->
  nth_error (parse listed) i = Some d ->
  i < List.length (parse found) ->
  let shown := withState now2 (upsertDiscovered now1 (parse found) deviceState) d in
  hasStatus "discovered" shown /\
  Obj.get "lastSeen" shown = VStr now1 /\
  (forall k, k <> "status"%string -> k <> "lastSeen"%string ->
             Obj.lookup k shown = Obj.lookup k d).
Proof.
  intros Hp Hnow Hnth Hlt shown.
  destruct (nth_error (parse found) i) as [d1|] eqn:H1;
    [|apply nth_error_None in H1; lia].
  pose proof (nth_nodeId parse found i d1 Hp H1) as Hid1.
  pose proof (nth_nodeId parse listed i d Hp Hnth) as Hid.
  pose proof (FlowFacts.found_entry parse now1 found deviceState d1 Hp
                (nth_error_In _ _ H1)) as Hget.
  rewrite Hid1, <- Hid in Hget.
  subst shown; unfold withState, hasStatus; rewrite Hget.
  assert (Hs : Obj.get "status" (discovered now1 d1) = VStr (lit "discovered"))
    by apply RegistryFacts.discovered_status.
  assert (Ht : Obj.get "timestamp" (discovered now1 d1) = VStr now1)
    by (unfold discovered; apply ObjFacts.get_set_same).
  rewrite Hs, Ht.
  rewrite (FlowFacts.truthy_or_else (VStr now1) _ (nonempty_truthy now1 Hnow)).
  rewrite (FlowFacts.truthy_or_else (VStr (lit "discovered")) _ eq_refl).
  split; [|split].
  - rewrite ObjFacts.get_set_other by discriminate. apply ObjFacts.get_set_same.
  - apply ObjFacts.get_set_same.
  - intros k Hks Hkl. rewrite !ObjFacts.lookup_set_other; auto.
Qed.

End ListFacts.

(** The list of /api/discovery/list joins the registry by position.  After
    a search that found more than i devices, the i-th device of a later
    list is shown as 'discovered' with the time of the search as its
    lastSeen, not the time of the list, whatever the two devices are:
    their node ids are both i + 1.  The list is answered 200 and leaves
    the registry as the search left it.  This holds in part_002 and in the
    last server of server.js. *)
Theorem list_joins_by_position (w1 w2 : world) (deviceState : registry)
    (found listed : str) (i : nat) :
  runner w1 (Tool DiscoverCommissionables) = Done found ->
  runner w2 DiscoverList = Done listed ->
  clock w1 <> [] ->
  let joined (parse : str -> list obj) (r1 r2 : toolEffect) :=
    forall d,
      nth_error (parse listed) i = Some d ->
      i < List.length (parse found) ->
      status (answer r2) = 200 /\
      registryAfter r2 = registryAfter r1 /\
      exists shown,
        match Obj.get "devices" (body (answer r2)) with
        | VArr devices => nth_error devices i
        | _ => None
        end = Some (VObj shown) /\
        hasStatus "discovered" shown /\
        Obj.get "lastSeen" shown = VStr (clock w1) /\
        Obj.get "nodeId" shown = VStr (toString (i + 1)) /\
        (forall k, k <> "status"%string -> k <> "lastSeen"%string ->
                   Obj.lookup k shown = Obj.lookup k d) in
  joined Part002.parseDiscoveryResult
    (servePart002 w1 P2Search deviceState)
    (servePart002 w2 P2List (registryAfter (servePart002 w1 P2Search deviceState)))
  /\
  joined Server.parseDiscoveryResult
    (serveServer w1 SvSearch deviceState)
    (serveServer w2 SvList (registryAfter (serveServer w1 SvSearch deviceState))).
Proof.
  intros Hrun1 Hrun2 Hnow joined; subst joined; cbn beta.
  split; intros d Hnth Hlt; unfold_handlers; rewrite Hrun1, Hrun2;
    cbn [answer response status registryAfter state body];
    (split; [reflexivity|]); (split; [reflexivity|]).
  - destruct (ListFacts.shown_after_search Part002.parseDiscoveryResult
                (clock w1) (clock w2) deviceState found listed i d
                (or_introl eq_refl) Hnow Hnth Hlt) as (Hs & Hl & Hk).
    eexists; split; [|split; [exact Hs|split; [exact Hl|split; [|exact Hk]]]].
    + unfold Obj.get; cbn [Obj.lookup String.eqb Ascii.eqb Bool.eqb].
      now apply ListFacts.nth_map_VObj.
    + unfold Obj.get; rewrite Hk by discriminate.
      apply (ListFacts.nth_nodeId Part002.parseDiscoveryResult listed i d
               (or_introl eq_refl) Hnth).
  - destruct (ListFacts.shown_after_search Server.parseDiscoveryResult
                (clock w1) (clock w2) deviceState found listed i d
                (or_intror eq_refl) Hnow Hnth Hlt) as (Hs & Hl & Hk).
    eexists; split; [|split; [exact Hs|split; [exact Hl|split; [|exact Hk]]]].
    + unfold Obj.get; cbn [Obj.lookup String.eqb Ascii.eqb Bool.eqb].
      now apply ListFacts.nth_map_VObj.
    + unfold Obj.get; rewrite Hk by discriminate.
      apply (ListFacts.nth_nodeId Server.parseDiscoveryResult listed i d
               (or_intror eq_refl) Hnth).
Qed.

Lemma list_joins_by_position_witness :
  registryAfter (servePart002 sampleLater P2List sampleFound) = sampleFound.
Proof.
  pose (d := hd [] (Part002.parseDiscoveryResult scenarioTagged)).
  exact (proj1 (proj2 (proj1 (list_joins_by_position sampleWorld sampleLater []
                                scenarioTagged scenarioTagged 0
                                eq_refl eq_refl ltac:(discriminate))
                         d eq_refl ltac:(vm_compute; lia)))).
Defined.

(** Every reply to a command that failed has a code and a message.  For
    each of the four handleMatterError functions and any error whose
    stderr is a string or missing, the reply is a 500 whose body has the
    status "error", a code among TIMEOUT_ERROR, BLE_ERROR, DATA_MODEL_ERROR,
    COMMAND_NOT_FOUND, MATTER_SDK_ERROR and UNKNOWN_ERROR, and a message
    string; an errorCode is there for TIMEOUT_ERROR and MATTER_SDK_ERROR
    only; and the functions of part_001 and of the second server give
    neither of these two codes. *)
Theorem error_replies_have_a_code (e : error) :
  plainError e ->
  Forall
    (fun handle =>
       let r := internalError (detailsOf handle) e in
       status r = 500 /\
       Obj.get "status" (body r) = VStr (lit "error") /\
       exists code text,
         Obj.get "code" (body r) = VStr code /\
         In code errorCodes /\
         Obj.get "message" (body r) = VStr text /\
         (Obj.lookup "errorCode" (body r) <> None ->
          code = lit "TIMEOUT_ERROR" \/ code = lit "MATTER_SDK_ERROR"))
    [ ErrorsPart001.handleMatterError; ErrorsServerFirst.handleMatterError;
      ErrorsServerSecond.handleMatterError; ErrorsPart002.handleMatterError ]
  /\
  Forall
    (fun handle =>
       Obj.get "code" (detailsOf handle e) <> VStr (lit "TIMEOUT_ERROR") /\
       Obj.get "code" (detailsOf handle e) <> VStr (lit "MATTER_SDK_ERROR"))
    [ ErrorsPart001.handleMatterError; ErrorsServerSecond.handleMatterError ].
Proof.
  intros _; split.
  - repeat constructor;
      unfold internalError, detailsOf, ErrorsPart001.handleMatterError,
        ErrorsServerFirst.handleMatterError, ErrorsServerSecond.handleMatterError,
        ErrorsPart002.handleMatterError, errorDetails;
      handler_cases; try reflexivity;
      eexists; eexists;
      (split; [reflexivity|]); (split; [cbn; tauto|]); (split; [reflexivity|]);
      cbn; intros H; try (now right); try (now left); congruence.
  - repeat constructor;
      unfold detailsOf, ErrorsPart001.handleMatterError,
        ErrorsServerSecond.handleMatterError, errorDetails;
      handler_cases; discriminate.
Qed.

Lemma error_replies_have_a_code_witness :
  status (internalError (detailsOf ErrorsPart002.handleMatterError) sampleTimeout)
  = 500.
Proof.
  refine (proj1 (Forall_inv (Forall_inv_tail (Forall_inv_tail (Forall_inv_tail
            (proj1 (error_replies_have_a_code sampleTimeout _))))))).
  right; eexists; reflexivity.
Defined.

(** Only the message of an error makes it a BLE error.  With each of the
    four handleMatterError functions, an error whose message contains
    "CHIP:BLE" gets the code BLE_ERROR, or TIMEOUT_ERROR where a timeout
    is checked first, whatever else the message and stderr hold; an error
    whose message does not contain it never gets BLE_ERROR, also when its
    stderr contains it. *)
Theorem ble_error_by_message_only (text : str) (stderr : option str) :
  Forall
    (fun handle =>
       let code := Obj.get "code" (handle text stderr) in
       if includes (lit "CHIP:BLE") text
       then code = VStr (lit "BLE_ERROR") \/ code = VStr (lit "TIMEOUT_ERROR")
       else code <> VStr (lit "BLE_ERROR"))
    [ ErrorsPart001.handleMatterError; ErrorsServerFirst.handleMatterError;
      ErrorsServerSecond.handleMatterError; ErrorsPart002.handleMatterError ].
Proof.
  repeat constructor;
    unfold ErrorsPart001.handleMatterError, ErrorsServerFirst.handleMatterError,
      ErrorsServerSecond.handleMatterError, ErrorsPart002.handleMatterError,
      errorDetails;
    cbn zeta; destruct (includes (lit "CHIP:BLE") text) eqn:Hble;
    handler_cases; cbn; first [now left | now right | discriminate].
Qed.

(* ===================================================================== *)
(** ** Further facts: values that no template literal can hold *)
(* ===================================================================== *)

Module ThrowFacts.

(** A value that cannot be converted makes the template literal throw. *)
Lemma interpolate_fails (numberText : Z -> str) (vs : list value) (v : value) :
  In v vs -> ~ renders numberText v ->
  exists e, interpolate numberText vs = Throw e.
Proof.
  intros Hin Hv; induction vs as [|x vs IH]; [destruct Hin|].
  cbn [interpolate]. destruct (toText numberText x) as [s|e] eqn:Hx;
    cbn [bind]; [|eauto].
  destruct Hin as [->|Hin]; [exfalso; apply Hv; now exists s|].
  destruct (IH Hin) as (e & ->); cbn [bind]; eauto.
Qed.

(** An object with an own property [toString] cannot be converted. *)
Lemma own_toString (numberText : Z -> str) (props : obj) (v : value) :
  Obj.lookup "toString" props = Some v -> ~ renders numberText (VObj props).
Proof. intros H (s & Hs); cbn in Hs; rewrite H in Hs; discriminate. Qed.

End ThrowFacts.

(** A value of the body that cannot stand in a template literal, such as
    the object [{"toString": null}], passes the truthiness checks and makes
    the request fail inside the [try] before any command runs: the answer
    is 500, no command has run and the registry is as it was.  This holds
    for the code of /api/pairing/code and of /api/device/pair, for the ssid
    of /api/commissioning/wifi and of /api/device/commission on a paired
    device, and for /api/device/setup, where such a node id without entry
    is answered 500 and not 404. *)
Theorem unconvertible_value_is_a_500 (w : world) (deviceState : registry)
    (req : obj) :
  let failed (r : toolEffect) :=
    status (answer r) = 500 /\ ran r = [] /\ registryAfter r = deviceState in
  let bad (v : value) := truthy v = true /\ ~ renders (textOfNumber w) v in
  (bad (Obj.get "setupCode" req) ->
   failed (serveFirst w (F1PairingCode req) deviceState)) /\
  (bad (Obj.get "ssid" req) -> truthy (Obj.get "password" req) = true ->
   failed (serveFirst w (F1CommissioningWifi req) deviceState)) /\
  (bad (Obj.get "manualPairingCode" req) ->
   Map.get (Obj.get "deviceId" req) deviceState <> None ->
   failed (servePart002 w (P2Pair req) deviceState)) /\
  (bad (Obj.get "ssid" req) -> truthy (Obj.get "password" req) = true ->
   (exists e, Map.get (Obj.get "deviceId" req) deviceState = Some e /\
              hasStatus "paired" e) ->
   failed (servePart002 w (P2Commission req) deviceState)) /\
  (bad (Obj.get "nodeId" req) ->
   truthy (Obj.get "setupPinCode" req) = true ->
   truthy (Obj.get "ssid" req) = true ->
   truthy (Obj.get "password" req) = true ->
   failed (serveServer w (SvSetup req) deviceState)).
Proof.
  intros failed bad; subst failed bad; cbn beta.
  split; [|split; [|split; [|split]]].
  - intros [Ht Hr].
    destruct (ThrowFacts.interpolate_fails (textOfNumber w)
                [ get_default "nodeId" defaultNodeId req; Obj.get "setupCode" req;
                  get_default "nodeId" defaultNodeId req; Obj.get "setupCode" req ]
                (Obj.get "setupCode" req)) as (e & He);
      [cbn; auto|assumption|].
    unfold_handlers. rewrite Ht, He. now cbn.
  - intros [Ht Hr] Hp.
    destruct (ThrowFacts.interpolate_fails (textOfNumber w)
                [ get_default "nodeId" defaultNodeId req; Obj.get "ssid" req;
                  get_default "nodeId" defaultNodeId req;
                  Obj.get "discriminator" req; Obj.get "ssid" req;
                  Obj.get "password" req ]
                (Obj.get "ssid" req)) as (e & He);
      [cbn; auto|assumption|].
    unfold_handlers. rewrite Ht, Hp, He. now cbn.
  - intros [Ht Hr] Hfound.
    destruct (Map.get (Obj.get "deviceId" req) deviceState) as [e0|] eqn:Hg;
      [|congruence].
    destruct (ThrowFacts.interpolate_fails (textOfNumber w)
                [ Obj.get "name" e0; Obj.get "manualPairingCode" req;
                  Obj.get "deviceId" req; Obj.get "manualPairingCode" req ]
                (Obj.get "manualPairingCode" req)) as (e & He);
      [cbn; auto|assumption|].
    unfold_handlers. rewrite Ht, Hg, He. now cbn.
  - intros [Ht Hr] Hp (e0 & Hg & Hst).
    destruct (ThrowFacts.interpolate_fails (textOfNumber w)
                [ Obj.get "name" e0; Obj.get "ssid" req; Obj.get "deviceId" req;
                  Obj.get "discriminator" e0; Obj.get "ssid" req;
                  Obj.get "password" req ]
                (Obj.get "ssid" req)) as (e & He);
      [cbn; auto|assumption|].
    unfold_handlers. rewrite Hg, Hst.
    cbn [sameValueZero]. rewrite JsStringFacts.eqb_refl; cbn [negb].
    rewrite !(FlowFacts.truthy_or_else _ _ Ht),
            !(FlowFacts.truthy_or_else _ _ Hp), Ht, Hp; cbn [negb orb].
    rewrite He. now cbn.
  - intros [Ht Hr] Hpin Hssid Hpw.
    unfold_handlers. rewrite Hpin, Hssid, Hpw; cbn [negb orb].
    destruct (Map.get (Obj.get "nodeId" req) deviceState) as [e0|] eqn:Hg.
    + apply TemplateFacts.found_primitive in Hg.
      exfalso; apply Hr. now apply TemplateFacts.renders_primitive.
    + destruct (toText (textOfNumber w) (Obj.get "nodeId" req)) as [s|e] eqn:Hx;
        [exfalso; apply Hr; now exists s|now cbn].
Qed.

(** The body [{setupCode: {toString: null}}] on an empty registry. *)
Lemma unconvertible_value_is_a_500_witness :
  status (answer (serveFirst sampleWorld (F1PairingCode sampleUnconvertible) []))
  = 500 /\
  ran (serveFirst sampleWorld (F1PairingCode sampleUnconvertible) []) = [].
Proof.
  destruct (proj1 (unconvertible_value_is_a_500 sampleWorld []
                     sampleUnconvertible)) as (H1 & H2 & _).
  - split; [reflexivity|].
    exact (ThrowFacts.own_toString decimalText [("toString", VNull)]%string
             VNull eq_refl).
  - split; [exact H1|exact H2].
Defined.
